(** * db/write_batch.cc: the write batch, its iteration and its application

    A shallow embedding of RocksDB's [WriteBatch] (db/write_batch.cc):
    the byte buffer [rep_] with its 12-byte header, the cached content
    flags, the heap-allocated save-point stack, [Iterate] over a
    [Handler], and the [MemTableInserter] handler.

    Conventions.
    - A [char] of the buffer is a [byte]; an unsigned integer is a [Z]
      whose wrap-around is written out ([wrap32], [wrap64]); the [int]
      returned by [Count] is the two's complement reading [to_int].
    - [save_points_] is a raw pointer: the model keeps a heap of
      save-point stacks and the batch holds an optional location.
    - Reads that the C++ source performs without a bounds check and that
      would leave the buffer are made explicit: [ReadPastEnd] for the
      record reader, [None] for [Iterate]. *)

From Stdlib Require Import ZArith List String Lia Bool.
From Stdlib Require Import Strings.Byte.
From stdpp Require Import base option list gmap.

Import ListNotations.
Local Open Scope string_scope.
Local Open Scope list_scope.
Local Open Scope Z_scope.

(** ** Machine integers *)

Definition wrap32 (z : Z) : Z := z mod 2 ^ 32.
Definition wrap64 (z : Z) : Z := z mod 2 ^ 64.

(** uint32_t to int, as every two's complement target converts it. *)
Definition to_int (z : Z) : Z := if z <? 2 ^ 31 then z else z - 2 ^ 32.

Definition byte_to_Z (b : byte) : Z := Z.of_N (Byte.to_N b).

(** static_cast<char>: keeps the low eight bits. *)
Definition byte_of_Z (z : Z) : byte :=
  match Byte.of_N (Z.to_N (z mod 256)) with
  | Some b => b
  | None => x00
  end.

#[global] Instance byte_eq_decision : EqDecision byte := Byte.byte_eq_dec.

(** ** Status (include/rocksdb/status.h, the codes this file produces) *)

Inductive Status : Type :=
  | OK
  | NotFound
  | Corruption (msg : string)
  | InvalidArgument (msg : string).

Definition ok (s : Status) : bool :=
  match s with OK => true | _ => false end.

(** ** util/coding.h *)

(** Modelled from the spec: util/coding.h is not part of the sources.
    "Fixed32/Fixed64: unsigned little-endian at known offsets". *)
Definition EncodeFixed32 (value : Z) : list byte :=
  [ byte_of_Z value; byte_of_Z (value / 2 ^ 8);
    byte_of_Z (value / 2 ^ 16); byte_of_Z (value / 2 ^ 24) ].

(** Modelled from the spec: util/coding.h is not part of the sources.
    Little-endian value of the four bytes at [p]; a byte past the end of
    [p] is outside the source's defined behaviour and reads as zero. *)
Definition DecodeFixed32 (p : list byte) : Z :=
  byte_to_Z (nth 0 p x00) + 2 ^ 8 * byte_to_Z (nth 1 p x00)
  + 2 ^ 16 * byte_to_Z (nth 2 p x00) + 2 ^ 24 * byte_to_Z (nth 3 p x00).

(** Modelled from the spec: util/coding.h is not part of the sources.
    Eight bytes, least significant first. *)
Definition EncodeFixed64 (value : Z) : list byte :=
  map (fun k => byte_of_Z (value / 2 ^ (8 * Z.of_nat k))) (seq 0 8).

(** Modelled from the spec: util/coding.h is not part of the sources. *)
Definition DecodeFixed64 (p : list byte) : Z :=
  fold_right (fun k acc => acc + 2 ^ (8 * Z.of_nat k) * byte_to_Z (nth k p x00))
             0 (seq 0 8).

(** Modelled from the spec: util/coding.h is not part of the sources.
    "Varint32: LEB128 over 32 bits, 1-5 bytes", seven bits per byte, least
    significant group first, continuation bit in the MSB. *)
Definition PutVarint32 (v : Z) : list byte :=
  let B := 128 in
  if v <? 2 ^ 7 then [byte_of_Z v]
  else if v <? 2 ^ 14 then [byte_of_Z (Z.lor v B); byte_of_Z (Z.shiftr v 7)]
  else if v <? 2 ^ 21 then
    [byte_of_Z (Z.lor v B); byte_of_Z (Z.lor (Z.shiftr v 7) B);
     byte_of_Z (Z.shiftr v 14)]
  else if v <? 2 ^ 28 then
    [byte_of_Z (Z.lor v B); byte_of_Z (Z.lor (Z.shiftr v 7) B);
     byte_of_Z (Z.lor (Z.shiftr v 14) B); byte_of_Z (Z.shiftr v 21)]
  else
    [byte_of_Z (Z.lor v B); byte_of_Z (Z.lor (Z.shiftr v 7) B);
     byte_of_Z (Z.lor (Z.shiftr v 14) B); byte_of_Z (Z.lor (Z.shiftr v 21) B);
     byte_of_Z (Z.shiftr v 28)].

(** The decoding loop: at most five bytes ([shift] = 0, 7, .., 28). *)
Fixpoint GetVarint32_loop (n : nat) (shift result : Z) (p : list byte)
  : option (Z * list byte) :=
  match n with
  | O => None
  | S n' =>
    match p with
    | [] => None
    | b :: p' =>
      let byte := byte_to_Z b in
      if Z.testbit byte 7
      then GetVarint32_loop n' (shift + 7)
             (Z.lor result (wrap32 (Z.shiftl (Z.land byte 127) shift))) p'
      else Some (Z.lor result (wrap32 (Z.shiftl byte shift)), p')
    end
  end.

(** Modelled from the spec: util/coding.h is not part of the sources.
    "Decode fails if the buffer ends mid-varint or if more than five
    continuation bytes are present."  On success the cursor is advanced. *)
Definition GetVarint32 (input : list byte) : option (Z * list byte) :=
  GetVarint32_loop 5 0 0 input.

(** Modelled from the spec: util/coding.h is not part of the sources.
    "Length-prefixed slice: varint32 length followed by that many raw
    bytes.  Decode fails if length exceeds remaining input." *)
Definition GetLengthPrefixedSlice (input : list byte)
  : option (list byte * list byte) :=
  match GetVarint32 input with
  | Some (len, rest) =>
    if len <=? Z.of_nat (length rest)
    then Some (take (Z.to_nat len) rest, drop (Z.to_nat len) rest)
    else None
  | None => None
  end.

(** Modelled from the spec: util/coding.h is not part of the sources. *)
Definition PutLengthPrefixedSlice (dst value : list byte) : list byte :=
  dst ++ PutVarint32 (wrap32 (Z.of_nat (length value))) ++ value.

(** A gather list: the SliceParts of include/rocksdb/slice.h. *)
Definition SliceParts : Type := list (list byte).

(** Modelled from the spec: util/coding.h is not part of the sources.
    The total length as one varint32, then the parts in order. *)
Definition PutLengthPrefixedSliceParts (dst : list byte) (parts : SliceParts)
  : list byte :=
  dst
  ++ PutVarint32 (fold_left (fun t p => wrap32 (t + Z.of_nat (length p))) parts 0)
  ++ concat parts.

(** ** db/dbformat.h: the record tags *)

Inductive ValueType : Type :=
  | kTypeDeletion
  | kTypeValue
  | kTypeMerge
  | kTypeLogData
  | kTypeColumnFamilyDeletion
  | kTypeColumnFamilyValue
  | kTypeColumnFamilyMerge
  | kTypeSingleDeletion
  | kTypeColumnFamilySingleDeletion.

Definition all_value_types : list ValueType :=
  [ kTypeDeletion; kTypeValue; kTypeMerge; kTypeLogData;
    kTypeColumnFamilyDeletion; kTypeColumnFamilyValue;
    kTypeColumnFamilyMerge; kTypeSingleDeletion;
    kTypeColumnFamilySingleDeletion ].

(** db/dbformat.h is not part of the sources, so the numeric values of
    the enumerators are a parameter of the development: [tag_char t] is
    [static_cast<char>(t)].  The enumerators are the labels of one
    [switch], hence pairwise distinct. *)
Class ValueTypeTags : Type := {
  tag_char : ValueType -> byte;
  tag_char_inj : forall a b, tag_char a = tag_char b -> a = b
}.

(** The enumerator a [switch (tag)] selects, [None] for [default:]. *)
Definition tag_case `{ValueTypeTags} (tag : byte) : option ValueType :=
  List.find (fun t => Byte.eqb (tag_char t) tag) all_value_types.

(** ** ContentFlags *)

Definition DEFERRED : Z := 1.
Definition HAS_PUT : Z := 2.
Definition HAS_DELETE : Z := 4.
Definition HAS_SINGLE_DELETE : Z := 8.
Definition HAS_MERGE : Z := 16.

(** WriteBatch header has an 8-byte sequence number followed by a 4-byte
    count. *)
Definition kHeader : nat := 12.

Record SavePoint : Type := mkSavePoint {
  sp_size : nat;          (* size of rep_ *)
  sp_count : Z;           (* count of elements in rep_ *)
  sp_content_flags : Z
}.

(** ** The batch and the heap of save-point stacks *)

(** A [SavePoints] object lives on the heap; the head of the list is the
    top of its [std::stack]. *)
Abbreviation loc := positive.
Abbreviation Heap := (gmap positive (list SavePoint)).

Record WriteBatch : Type := mkWriteBatch {
  save_points_ : option loc;     (* nullptr is None *)
  content_flags_ : Z;
  rep_ : list byte
}.

Definition set_rep (b : WriteBatch) (r : list byte) : WriteBatch :=
  mkWriteBatch (save_points_ b) (content_flags_ b) r.
Definition set_content_flags (b : WriteBatch) (f : Z) : WriteBatch :=
  mkWriteBatch (save_points_ b) f (rep_ b).
Definition set_save_points (b : WriteBatch) (p : option loc) : WriteBatch :=
  mkWriteBatch p (content_flags_ b) (rep_ b).

(** std::string::resize: truncate, or pad with zero bytes. *)
Definition resize (n : nat) (s : list byte) : list byte :=
  take n s ++ replicate (n - length s) x00.

(** WriteBatch::WriteBatch(size_t reserved_bytes): the reservation does
    not show in the contents. *)
Definition WriteBatch_new (reserved_bytes : nat) : WriteBatch :=
  mkWriteBatch None 0 (resize kHeader []).

(** WriteBatch::WriteBatch(const std::string& rep) *)
Definition WriteBatch_of_rep (rep : list byte) : WriteBatch :=
  mkWriteBatch None DEFERRED rep.

(** WriteBatch::WriteBatch(const WriteBatch& src): the three members are
    copied with their own copy constructors; [save_points_] is a raw
    pointer, so the copy holds the same location. *)
Definition WriteBatch_copy (src : WriteBatch) : WriteBatch :=
  mkWriteBatch (save_points_ src) (content_flags_ src) (rep_ src).

(** WriteBatch::~WriteBatch: [delete save_points_].  Deleting a null
    pointer does nothing; deleting a location that is no longer
    allocated is a double free, [None]. *)
Definition WriteBatch_destroy (b : WriteBatch) (h : Heap) : option Heap :=
  match save_points_ b with
  | None => Some h
  | Some l =>
    match h !! l with
    | Some _ => Some (delete l h)
    | None => None
    end
  end.

(** WriteBatchInternal::Count *)
Definition Count (b : WriteBatch) : Z :=
  to_int (DecodeFixed32 (drop 8 (rep_ b))).

(** WriteBatchInternal::SetCount: [EncodeFixed32(&b->rep_[8], n)], the
    [int] converted to uint32_t.  The four bytes written are bytes 8..11
    of a buffer that holds its header. *)
Definition SetCount (b : WriteBatch) (n : Z) : WriteBatch :=
  set_rep b (take 8 (rep_ b) ++ EncodeFixed32 (wrap32 n) ++ drop 12 (rep_ b)).

(** WriteBatchInternal::Sequence *)
Definition Sequence (b : WriteBatch) : Z := DecodeFixed64 (rep_ b).

(** WriteBatchInternal::SetSequence *)
Definition SetSequence (b : WriteBatch) (seq : Z) : WriteBatch :=
  set_rep b (EncodeFixed64 (wrap64 seq) ++ drop 8 (rep_ b)).

(** WriteBatch::GetDataSize (include/rocksdb/write_batch.h): rep_.size() *)
Definition GetDataSize (b : WriteBatch) : nat := length (rep_ b).

(** rep_.push_back *)
Definition push_back (b : WriteBatch) (c : byte) : WriteBatch :=
  set_rep b (rep_ b ++ [c]).

(** content_flags_.store(content_flags_.load() | flag) *)
Definition or_content_flags (b : WriteBatch) (flag : Z) : WriteBatch :=
  set_content_flags b (Z.lor (content_flags_ b) flag).

(** ** WriteBatch::Handler *)

(** The virtual interface; [St] is the state of the handler object,
    which every member function may change. *)
Record Handler (St : Type) : Type := mkHandler {
  PutCF : Z -> list byte -> list byte -> St -> Status * St;
  DeleteCF : Z -> list byte -> St -> Status * St;
  SingleDeleteCF : Z -> list byte -> St -> Status * St;
  MergeCF : Z -> list byte -> list byte -> St -> Status * St;
  LogData : list byte -> St -> St;
  Continue : St -> bool * St
}.
Arguments PutCF {St}.
Arguments DeleteCF {St}.
Arguments SingleDeleteCF {St}.
Arguments MergeCF {St}.
Arguments LogData {St}.
Arguments Continue {St}.

(** WriteBatch::Handler::LogData, the default: blobs are ignored. *)
Definition Handler_LogData {St : Type} (blob : list byte) (h : St) : St := h.

(** WriteBatch::Handler::Continue, the default. *)
Definition Handler_Continue {St : Type} (h : St) : bool * St := (true, h).

Section Batch.
Context `{tags : ValueTypeTags}.

(** The tag byte, and the column family id unless it is 0. *)
Definition put_tag (b : WriteBatch) (column_family_id : Z)
    (plain with_cf : ValueType) : WriteBatch :=
  if column_family_id =? 0
  then push_back b (tag_char plain)
  else
    let b := push_back b (tag_char with_cf) in
    set_rep b (rep_ b ++ PutVarint32 column_family_id).

(** WriteBatchInternal::Put (Slice) *)
Definition Put (b : WriteBatch) (column_family_id : Z) (key value : list byte)
  : WriteBatch :=
  let b := SetCount b (Count b + 1) in
  let b := put_tag b column_family_id kTypeValue kTypeColumnFamilyValue in
  let b := set_rep b (PutLengthPrefixedSlice (rep_ b) key) in
  let b := set_rep b (PutLengthPrefixedSlice (rep_ b) value) in
  or_content_flags b HAS_PUT.

(** WriteBatchInternal::Put (SliceParts) *)
Definition PutParts (b : WriteBatch) (column_family_id : Z)
    (key value : SliceParts) : WriteBatch :=
  let b := SetCount b (Count b + 1) in
  let b := put_tag b column_family_id kTypeValue kTypeColumnFamilyValue in
  let b := set_rep b (PutLengthPrefixedSliceParts (rep_ b) key) in
  let b := set_rep b (PutLengthPrefixedSliceParts (rep_ b) value) in
  or_content_flags b HAS_PUT.

(** WriteBatchInternal::Delete (Slice) *)
Definition Delete (b : WriteBatch) (column_family_id : Z) (key : list byte)
  : WriteBatch :=
  let b := SetCount b (Count b + 1) in
  let b := put_tag b column_family_id kTypeDeletion kTypeColumnFamilyDeletion in
  let b := set_rep b (PutLengthPrefixedSlice (rep_ b) key) in
  or_content_flags b HAS_DELETE.

(** WriteBatchInternal::Delete (SliceParts) *)
Definition DeleteParts (b : WriteBatch) (column_family_id : Z)
    (key : SliceParts) : WriteBatch :=
  let b := SetCount b (Count b + 1) in
  let b := put_tag b column_family_id kTypeDeletion kTypeColumnFamilyDeletion in
  let b := set_rep b (PutLengthPrefixedSliceParts (rep_ b) key) in
  or_content_flags b HAS_DELETE.

(** WriteBatchInternal::SingleDelete (Slice) *)
Definition SingleDelete (b : WriteBatch) (column_family_id : Z)
    (key : list byte) : WriteBatch :=
  let b := SetCount b (Count b + 1) in
  let b := put_tag b column_family_id
             kTypeSingleDeletion kTypeColumnFamilySingleDeletion in
  let b := set_rep b (PutLengthPrefixedSlice (rep_ b) key) in
  or_content_flags b HAS_SINGLE_DELETE.

(** WriteBatchInternal::SingleDelete (SliceParts) *)
Definition SingleDeleteParts (b : WriteBatch) (column_family_id : Z)
    (key : SliceParts) : WriteBatch :=
  let b := SetCount b (Count b + 1) in
  let b := put_tag b column_family_id
             kTypeSingleDeletion kTypeColumnFamilySingleDeletion in
  let b := set_rep b (PutLengthPrefixedSliceParts (rep_ b) key) in
  or_content_flags b HAS_SINGLE_DELETE.

(** WriteBatchInternal::Merge (Slice) *)
Definition Merge (b : WriteBatch) (column_family_id : Z)
    (key value : list byte) : WriteBatch :=
  let b := SetCount b (Count b + 1) in
  let b := put_tag b column_family_id kTypeMerge kTypeColumnFamilyMerge in
  let b := set_rep b (PutLengthPrefixedSlice (rep_ b) key) in
  let b := set_rep b (PutLengthPrefixedSlice (rep_ b) value) in
  or_content_flags b HAS_MERGE.

(** WriteBatchInternal::Merge (SliceParts) *)
Definition MergeParts (b : WriteBatch) (column_family_id : Z)
    (key value : SliceParts) : WriteBatch :=
  let b := SetCount b (Count b + 1) in
  let b := put_tag b column_family_id kTypeMerge kTypeColumnFamilyMerge in
  let b := set_rep b (PutLengthPrefixedSliceParts (rep_ b) key) in
  let b := set_rep b (PutLengthPrefixedSliceParts (rep_ b) value) in
  or_content_flags b HAS_MERGE.

(** WriteBatch::PutLogData *)
Definition PutLogData (b : WriteBatch) (blob : list byte) : WriteBatch :=
  let b := push_back b (tag_char kTypeLogData) in
  set_rep b (PutLengthPrefixedSlice (rep_ b) blob).

(** ** Reading one record *)

(** The out-parameters of ReadRecordFromWriteBatch on success, its
    Status on failure.  The source takes element 0 of [input] without
    looking at its size; on an empty Slice that has no defined result
    (Slice::operator[] asserts [n < size()]): [ReadPastEnd]. *)
Inductive ReadResult : Type :=
  | ReadOk (input : list byte) (tag : byte) (column_family : Z)
           (key value blob : list byte)
  | ReadError (s : Status)
  | ReadPastEnd.

(** [GetLengthPrefixedSlice(input, key)] alone (the delete cases). *)
Definition read_key (msg : string) (tag : byte) (column_family : Z)
    (input : list byte) : ReadResult :=
  match GetLengthPrefixedSlice input with
  | Some (key, input) => ReadOk input tag column_family key [] []
  | None => ReadError (Corruption msg)
  end.

(** [!GetLengthPrefixedSlice(input, key) ||
     !GetLengthPrefixedSlice(input, value)] (the put and merge cases). *)
Definition read_key_value (msg : string) (tag : byte) (column_family : Z)
    (input : list byte) : ReadResult :=
  match GetLengthPrefixedSlice input with
  | Some (key, input) =>
    match GetLengthPrefixedSlice input with
    | Some (value, input) => ReadOk input tag column_family key value []
    | None => ReadError (Corruption msg)
    end
  | None => ReadError (Corruption msg)
  end.

(** The column-family cases read the id and fall through to [next]. *)
Definition read_column_family (msg : string) (input : list byte)
    (next : Z -> list byte -> ReadResult) : ReadResult :=
  match GetVarint32 input with
  | Some (column_family, input) => next column_family input
  | None => ReadError (Corruption msg)
  end.

(** ReadRecordFromWriteBatch.  Slots the source leaves untouched are
    returned empty; Iterate never passes them to the handler. *)
Definition ReadRecordFromWriteBatch (input : list byte) : ReadResult :=
  match input with
  | [] => ReadPastEnd
  | tag :: input =>
    (* remove_prefix(1); column_family is 0 by default *)
    match tag_case tag with
    | Some kTypeColumnFamilyValue =>
      read_column_family "bad WriteBatch Put" input
        (read_key_value "bad WriteBatch Put" tag)
    | Some kTypeValue => read_key_value "bad WriteBatch Put" tag 0 input
    | Some kTypeColumnFamilyDeletion
    | Some kTypeColumnFamilySingleDeletion =>
      read_column_family "bad WriteBatch Delete" input
        (read_key "bad WriteBatch Delete" tag)
    | Some kTypeDeletion
    | Some kTypeSingleDeletion => read_key "bad WriteBatch Delete" tag 0 input
    | Some kTypeColumnFamilyMerge =>
      read_column_family "bad WriteBatch Merge" input
        (read_key_value "bad WriteBatch Merge" tag)
    | Some kTypeMerge => read_key_value "bad WriteBatch Merge" tag 0 input
    | Some kTypeLogData =>
      match GetLengthPrefixedSlice input with
      | Some (blob, input) => ReadOk input tag 0 [] [] blob
      | None => ReadError (Corruption "bad WriteBatch Blob")
      end
    | None => ReadError (Corruption "unknown WriteBatch tag")
    end
  end.

(** ** WriteBatch::Iterate *)

(** The [while] loop.  The result is the Status [s] the loop ends with
    (or returns directly), the local [found] and the handler.  [found]
    is an [int] that counts at most one per byte of payload.  Every
    round consumes at least the tag byte, so [fuel] = the payload length
    is never used up; [None] stands for a run that would leave the
    source's defined behaviour. *)
Fixpoint Iterate_loop {St : Type} (handler : Handler St) (fuel : nat)
    (input : list byte) (found : Z) (h : St) : option (Status * Z * St) :=
  match input with
  | [] => Some (OK, found, h)
  | _ :: _ =>
    let (continue, h) := Continue handler h in
    if negb continue then Some (OK, found, h)
    else
      match fuel with
      | O => None
      | S fuel =>
        match ReadRecordFromWriteBatch input with
        | ReadPastEnd => None
        | ReadError s => Some (s, found, h)
        | ReadOk input tag column_family key value blob =>
          let next (r : Status * St) (found : Z) :=
            if ok (fst r) then Iterate_loop handler fuel input found (snd r)
            else Some (fst r, found, snd r) in
          match tag_case tag with
          | Some kTypeColumnFamilyValue
          | Some kTypeValue =>
            next (PutCF handler column_family key value h) (found + 1)
          | Some kTypeColumnFamilyDeletion
          | Some kTypeDeletion =>
            next (DeleteCF handler column_family key h) (found + 1)
          | Some kTypeColumnFamilySingleDeletion
          | Some kTypeSingleDeletion =>
            next (SingleDeleteCF handler column_family key h) (found + 1)
          | Some kTypeColumnFamilyMerge
          | Some kTypeMerge =>
            next (MergeCF handler column_family key value h) (found + 1)
          | Some kTypeLogData =>
            Iterate_loop handler fuel input found (LogData handler blob h)
          | None => Some (Corruption "unknown WriteBatch tag", found, h)
          end
        end
      end
  end.

(** WriteBatch::Iterate.  The asserts on [content_flags_] are debug-only
    and do not change the result. *)
Definition Iterate {St : Type} (handler : Handler St) (b : WriteBatch) (h : St)
  : option (Status * St) :=
  let input := rep_ b in
  if (length input <? kHeader)%nat
  then Some (Corruption "malformed WriteBatch (too small)", h)
  else
    let input := drop kHeader input in
    match Iterate_loop handler (length input) input 0 h with
    | None => None
    | Some (s, found, h) =>
      if negb (ok s) then Some (s, h)
      else if negb (found =? Count b)
      then Some (Corruption "WriteBatch has wrong count", h)
      else Some (OK, h)
    end.

(** ** BatchContentClassifier and the lazy content flags *)

(** The state of the classifier is its member [content_flags]. *)
Definition BatchContentClassifier : Handler Z :=
  {| PutCF := fun _ _ _ content_flags => (OK, Z.lor content_flags HAS_PUT);
     DeleteCF := fun _ _ content_flags => (OK, Z.lor content_flags HAS_DELETE);
     SingleDeleteCF := fun _ _ content_flags =>
       (OK, Z.lor content_flags HAS_SINGLE_DELETE);
     MergeCF := fun _ _ _ content_flags => (OK, Z.lor content_flags HAS_MERGE);
     LogData := Handler_LogData;
     Continue := Handler_Continue |}.

(** WriteBatch::ComputeContentFlags: the value returned and the batch
    with its (mutable) [content_flags_].  The Status of Iterate is
    dropped. *)
Definition ComputeContentFlags (b : WriteBatch) : option (Z * WriteBatch) :=
  let rv := content_flags_ b in
  if negb (Z.land rv DEFERRED =? 0) then
    match Iterate BatchContentClassifier b 0 with
    | Some (_, classifier) =>
      let rv := classifier in
      Some (rv, set_content_flags b rv)
    | None => None
    end
  else Some (rv, b).

Definition has_flag (flag : Z) (b : WriteBatch) : option (bool * WriteBatch) :=
  match ComputeContentFlags b with
  | Some (rv, b) => Some (negb (Z.land rv flag =? 0), b)
  | None => None
  end.

(** WriteBatch::HasPut, HasDelete, HasSingleDelete, HasMerge *)
Definition HasPut := has_flag HAS_PUT.
Definition HasDelete := has_flag HAS_DELETE.
Definition HasSingleDelete := has_flag HAS_SINGLE_DELETE.
Definition HasMerge := has_flag HAS_MERGE.

(** ** Clear, save points, rollback *)

(** WriteBatch::Clear.  A dangling [save_points_] is a use after free:
    [None]. *)
Definition Clear (b : WriteBatch) (h : Heap) : option (WriteBatch * Heap) :=
  let b := set_rep b (resize kHeader []) in
  let b := set_content_flags b 0 in
  match save_points_ b with
  | None => Some (b, h)
  | Some l =>
    match h !! l with
    | Some _ => Some (b, <[l := []]> h)
    | None => None
    end
  end.

(** WriteBatch::SetSavePoint *)
Definition SetSavePoint (b : WriteBatch) (h : Heap)
  : option (WriteBatch * Heap) :=
  let savepoint := mkSavePoint (GetDataSize b) (Count b) (content_flags_ b) in
  match save_points_ b with
  | None =>
    let l := fresh (dom h) in
    Some (set_save_points b (Some l), <[l := [savepoint]]> h)
  | Some l =>
    match h !! l with
    | Some stack => Some (b, <[l := savepoint :: stack]> h)
    | None => None
    end
  end.

(** WriteBatch::RollbackToSavePoint.  The two asserts (the recorded size
    and count do not exceed the current ones) are debug-only. *)
Definition RollbackToSavePoint (b : WriteBatch) (h : Heap)
  : option (Status * WriteBatch * Heap) :=
  match save_points_ b with
  | None => Some (NotFound, b, h)
  | Some l =>
    match h !! l with
    | None => None
    | Some [] => Some (NotFound, b, h)
    | Some (savepoint :: stack) =>
      (* Pop the most recent savepoint off the stack *)
      let h := <[l := stack]> h in
      if (sp_size savepoint =? length (rep_ b))%nat then
        (* No changes to rollback *)
        Some (OK, b, h)
      else if (sp_size savepoint =? 0)%nat then
        (* Rollback everything *)
        match Clear b h with
        | Some (b, h) => Some (OK, b, h)
        | None => None
        end
      else
        let b := set_rep b (resize (sp_size savepoint) (rep_ b)) in
        let b := SetCount b (sp_count savepoint) in
        let b := set_content_flags b (sp_content_flags savepoint) in
        Some (OK, b, h)
    end
  end.

(** The save-point stack a batch sees, [None] when it has none. *)
Definition save_point_stack (b : WriteBatch) (h : Heap)
  : option (list SavePoint) :=
  match save_points_ b with
  | None => None
  | Some l => h !! l
  end.

(** ** Engine-private operations *)

(** WriteBatchInternal::SetContents *)
Definition SetContents (b : WriteBatch) (contents : list byte) : WriteBatch :=
  set_content_flags (set_rep b contents) DEFERRED.

(** WriteBatchInternal::Append *)
Definition Append (dst src : WriteBatch) : WriteBatch :=
  let dst := SetCount dst (Count dst + Count src) in
  let dst := set_rep dst (rep_ dst ++ drop kHeader (rep_ src)) in
  set_content_flags dst (Z.lor (content_flags_ dst) (content_flags_ src)).

(** WriteBatchInternal::AppendedByteSize.  The sizes are [size_t], 64
    bits wide: the sum and the difference wrap around. *)
Definition AppendedByteSize (leftByteSize rightByteSize : Z) : Z :=
  if (leftByteSize =? 0) || (rightByteSize =? 0)
  then wrap64 (leftByteSize + rightByteSize)
  else wrap64 (leftByteSize + rightByteSize - Z.of_nat kHeader).

End Batch.

(** ** MemTableInserter *)

(** include/rocksdb/options.h *)
Inductive UpdateStatus : Type :=
  | UPDATE_FAILED
  | UPDATED_INPLACE
  | UPDATED.

(** The tickers of include/rocksdb/statistics.h this file records. *)
Inductive Tickers : Type :=
  | NUMBER_KEYS_UPDATED
  | NUMBER_KEYS_WRITTEN
  | NUMBER_FILTERED_DELETES
  | MERGE_OPERATION_TOTAL_TIME
  | NUMBER_MERGE_FAILURES.

(** What the inserter calls on its collaborators (ColumnFamilyMemTables,
    MemTable and its options, DBImpl, the user's callbacks, Statistics,
    FlushScheduler).  None of them is part of the sources; [W] is their
    joint state.  The memtable and the options are those of the column
    family of the last successful Seek. *)
Class Collaborators (W : Type) : Type := {
  cf_mems_Seek : Z -> W -> bool * W;
  cf_mems_GetLogNumber : W -> Z;
  inplace_update_support : W -> bool;
  inplace_callback_set : W -> bool;
  filter_deletes : W -> bool;
  max_successive_merges : W -> Z;
  mem_Add : Z -> ValueType -> list byte -> list byte -> bool -> W -> W;
  mem_Update : Z -> list byte -> list byte -> W -> W;
  mem_UpdateCallback : Z -> list byte -> list byte -> W -> bool * W;
  mem_CountSuccessiveMergeEntries : list byte -> Z -> W -> Z;
  mem_ShouldScheduleFlush : W -> bool;
  mem_MarkFlushScheduled : W -> bool * W;
  (* reads through a snapshot whose number is the first argument *)
  db_Get : Z -> list byte -> W -> Status * list byte;
  db_KeyMayExist : Z -> list byte -> W -> bool;
  (* previous value (if the Get succeeded) and delta to status, the
     previous buffer as rewritten, and merged_value *)
  inplace_callback :
    option (list byte) -> list byte -> W -> UpdateStatus * list byte * list byte;
  (* key, existing value, operands to success and new_value *)
  FullMerge : list byte -> list byte -> list (list byte) -> W -> bool * list byte;
  RecordTick : Tickers -> W -> W;
  ScheduleFlush : W -> W
}.

Record MemTableInserter : Type := mkMemTableInserter {
  sequence_ : Z;
  flush_scheduler_ : bool;        (* flush_scheduler_ != nullptr *)
  ignore_missing_column_families_ : bool;
  log_number_ : Z;
  db_ : bool;                     (* db_ != nullptr *)
  dont_filter_deletes_ : bool;
  concurrent_memtable_writes_ : bool
}.

(** sequence_++ on a uint64_t *)
Definition bump_sequence (i : MemTableInserter) : MemTableInserter :=
  mkMemTableInserter (wrap64 (sequence_ i + 1)) (flush_scheduler_ i)
    (ignore_missing_column_families_ i) (log_number_ i) (db_ i)
    (dont_filter_deletes_ i) (concurrent_memtable_writes_ i).

Section Inserter.
Context {W : Type} `{collab : Collaborators W}.

(** MemTableInserter::SeekToColumnFamily: the result and [*s]. *)
Definition SeekToColumnFamily (i : MemTableInserter) (column_family_id : Z)
    (w : W) : bool * Status * W :=
  let (found, w) := cf_mems_Seek column_family_id w in
  if negb found then
    if ignore_missing_column_families_ i then (false, OK, w)
    else
      (false,
       InvalidArgument "Invalid column family specified in write batch", w)
  else if negb (log_number_ i =? 0) && (log_number_ i <? cf_mems_GetLogNumber w)
  then (false, OK, w)
  else (true, OK, w).

(** MemTableInserter::CheckMemtableFull *)
Definition CheckMemtableFull (i : MemTableInserter) (w : W) : W :=
  if flush_scheduler_ i then
    if mem_ShouldScheduleFlush w then
      let (claimed, w) := mem_MarkFlushScheduled w in
      if claimed then ScheduleFlush w else w
    else w
  else w.

(** MemTableInserter::PutCF *)
Definition Inserter_PutCF (column_family_id : Z) (key value : list byte)
    (st : MemTableInserter * W) : Status * (MemTableInserter * W) :=
  let (i, w) := st in
  let '(found, seek_status, w) := SeekToColumnFamily i column_family_id w in
  if negb found then (seek_status, (bump_sequence i, w))
  else
    let w :=
      if negb (inplace_update_support w) then
        mem_Add (sequence_ i) kTypeValue key value
                (concurrent_memtable_writes_ i) w
      else if negb (inplace_callback_set w) then
        let w := mem_Update (sequence_ i) key value w in
        RecordTick NUMBER_KEYS_UPDATED w
      else
        let (updated, w) := mem_UpdateCallback (sequence_ i) key value w in
        if updated then w
        else
          (* key not found in memtable. Do sst get, update, add *)
          let (s, prev_value) := db_Get (sequence_ i) key w in
          let '(status, prev_buffer, merged_value) :=
            inplace_callback (if ok s then Some prev_value else None) value w in
          match status with
          | UPDATED_INPLACE =>
            let w := mem_Add (sequence_ i) kTypeValue key prev_buffer false w in
            RecordTick NUMBER_KEYS_WRITTEN w
          | UPDATED =>
            let w := mem_Add (sequence_ i) kTypeValue key merged_value false w in
            RecordTick NUMBER_KEYS_WRITTEN w
          | UPDATE_FAILED => w
          end in
    (* always bump sequence number *)
    let i := bump_sequence i in
    (OK, (i, CheckMemtableFull i w)).

(** MemTableInserter::DeleteImpl *)
Definition DeleteImpl (column_family_id : Z) (key : list byte)
    (delete_type : ValueType) (st : MemTableInserter * W)
  : Status * (MemTableInserter * W) :=
  let (i, w) := st in
  let '(found, seek_status, w) := SeekToColumnFamily i column_family_id w in
  if negb found then (seek_status, (bump_sequence i, w))
  else if negb (dont_filter_deletes_ i) && filter_deletes w
          && negb (db_KeyMayExist (sequence_ i) key w)
  then (OK, (i, RecordTick NUMBER_FILTERED_DELETES w))
  else
    let w := mem_Add (sequence_ i) delete_type key []
               (concurrent_memtable_writes_ i) w in
    let i := bump_sequence i in
    (OK, (i, CheckMemtableFull i w)).

(** MemTableInserter::DeleteCF *)
Definition Inserter_DeleteCF (column_family_id : Z) (key : list byte) :=
  DeleteImpl column_family_id key kTypeDeletion.

(** MemTableInserter::SingleDeleteCF *)
Definition Inserter_SingleDeleteCF (column_family_id : Z) (key : list byte) :=
  DeleteImpl column_family_id key kTypeSingleDeletion.

(** MemTableInserter::MergeCF *)
Definition Inserter_MergeCF (column_family_id : Z) (key value : list byte)
    (st : MemTableInserter * W) : Status * (MemTableInserter * W) :=
  let (i, w) := st in
  let '(found, seek_status, w) := SeekToColumnFamily i column_family_id w in
  if negb found then (seek_status, (bump_sequence i, w))
  else
    let perform_merge :=
      (0 <? max_successive_merges w) && db_ i
      && (max_successive_merges w
          <=? mem_CountSuccessiveMergeEntries key (sequence_ i) w) in
    let (perform_merge, w) :=
      if perform_merge then
        (* 1) Get the existing value *)
        let (_, get_value) := db_Get (sequence_ i) key w in
        (* 2) Apply this merge *)
        let (merge_success, new_value) := FullMerge key get_value [value] w in
        let w := RecordTick MERGE_OPERATION_TOTAL_TIME w in
        if negb merge_success then
          (* Failed to merge!  Store the delta in memtable *)
          (false, RecordTick NUMBER_MERGE_FAILURES w)
        else
          (* 3) Add value to memtable *)
          (true, mem_Add (sequence_ i) kTypeValue key new_value false w)
      else (false, w) in
    let w :=
      if negb perform_merge
      then mem_Add (sequence_ i) kTypeMerge key value false w
      else w in
    let i := bump_sequence i in
    (OK, (i, CheckMemtableFull i w)).

(** The handler object: LogData and Continue are inherited. *)
Definition MemTableInserter_handler : Handler (MemTableInserter * W) :=
  {| PutCF := Inserter_PutCF;
     DeleteCF := Inserter_DeleteCF;
     SingleDeleteCF := Inserter_SingleDeleteCF;
     MergeCF := Inserter_MergeCF;
     LogData := Handler_LogData;
     Continue := Handler_Continue |}.

Context `{tags : ValueTypeTags}.

(** WriteBatchInternal::InsertInto (one batch) *)
Definition InsertInto (batch : WriteBatch) (w : W) (flush_scheduler : bool)
    (ignore_missing_column_families : bool) (log_number : Z) (db : bool)
    (dont_filter_deletes concurrent_memtable_writes : bool)
  : option (Status * (MemTableInserter * W)) :=
  let inserter :=
    mkMemTableInserter (Sequence batch) flush_scheduler
      ignore_missing_column_families log_number db dont_filter_deletes
      concurrent_memtable_writes in
  Iterate MemTableInserter_handler batch (inserter, w).

End Inserter.

(** ** The records of a payload *)

(** One decoded record: the enumerator of its tag and the slots
    ReadRecordFromWriteBatch filled. *)
Record Rec : Type := mkRec {
  rec_type : ValueType;
  rec_column_family : Z;
  rec_key : list byte;
  rec_value : list byte;
  rec_blob : list byte
}.

(** How decoding a payload ends: at its end, at a record that does not
    decode, or (never, with enough fuel) before either. *)
Inductive DecodeEnd : Type :=
  | DecodeClean
  | DecodeFailed (s : Status)
  | DecodeUnfinished.

Definition is_log_data (r : Rec) : bool :=
  match rec_type r with kTypeLogData => true | _ => false end.

(** The number of records that are not log data. *)
Definition counted (recs : list Rec) : Z :=
  Z.of_nat (length (List.filter (fun r => negb (is_log_data r)) recs)).

(** The content flag of a record kind (none for log data). *)
Definition flag_of (t : ValueType) : Z :=
  match t with
  | kTypeValue | kTypeColumnFamilyValue => HAS_PUT
  | kTypeDeletion | kTypeColumnFamilyDeletion => HAS_DELETE
  | kTypeSingleDeletion | kTypeColumnFamilySingleDeletion => HAS_SINGLE_DELETE
  | kTypeMerge | kTypeColumnFamilyMerge => HAS_MERGE
  | kTypeLogData => 0
  end.

(** What the classifier accumulates over [recs], starting from [f]. *)
Definition classify (recs : list Rec) (f : Z) : Z :=
  fold_left (fun f r => Z.lor f (flag_of (rec_type r))) recs f.

Definition flags_of (recs : list Rec) : Z := classify recs 0.

Section Decoding.
Context `{tags : ValueTypeTags}.

(** The records ReadRecordFromWriteBatch yields when it is called again
    and again on a payload, up to the first record that does not decode. *)
Fixpoint decode_records (fuel : nat) (input : list byte)
  : list Rec * DecodeEnd :=
  match input with
  | [] => ([], DecodeClean)
  | _ :: _ =>
    match fuel with
    | O => ([], DecodeUnfinished)
    | S fuel =>
      match ReadRecordFromWriteBatch input with
      | ReadOk input tag column_family key value blob =>
        match tag_case tag with
        | Some t =>
          let (recs, e) := decode_records fuel input in
          (mkRec t column_family key value blob :: recs, e)
        | None => ([], DecodeFailed (Corruption "unknown WriteBatch tag"))
        end
      | ReadError s => ([], DecodeFailed s)
      | ReadPastEnd => ([], DecodeUnfinished)
      end
    end
  end.

(** The records of a batch: those of its payload. *)
Definition records_of (b : WriteBatch) : list Rec * DecodeEnd :=
  let payload := drop kHeader (rep_ b) in
  decode_records (length payload) payload.

End Decoding.

(** A handler that lets Iterate run to the end: every callback returns
    OK and Continue answers true. *)
Definition never_stops {St : Type} (handler : Handler St) : Prop :=
  (forall cf k v h, fst (PutCF handler cf k v h) = OK)
  /\ (forall cf k h, fst (DeleteCF handler cf k h) = OK)
  /\ (forall cf k h, fst (SingleDeleteCF handler cf k h) = OK)
  /\ (forall cf k v h, fst (MergeCF handler cf k v h) = OK)
  /\ (forall h, fst (Continue handler h) = true).

(** A handler that counts the records it is given and whose Continue
    turns false once [limit] of them have been seen. *)
Definition StopAfter (limit : Z) : Handler Z :=
  {| PutCF := fun _ _ _ seen => (OK, seen + 1);
     DeleteCF := fun _ _ seen => (OK, seen + 1);
     SingleDeleteCF := fun _ _ seen => (OK, seen + 1);
     MergeCF := fun _ _ _ seen => (OK, seen + 1);
     LogData := Handler_LogData;
     Continue := fun seen => (seen <? limit, seen) |}.

(** ** Sequences of operations on one batch *)

(** The appends of the public interface and the content-flag queries. *)
Inductive Op : Type :=
  | OpPut (column_family_id : Z) (key value : list byte)
  | OpPutParts (column_family_id : Z) (key value : SliceParts)
  | OpDelete (column_family_id : Z) (key : list byte)
  | OpDeleteParts (column_family_id : Z) (key : SliceParts)
  | OpSingleDelete (column_family_id : Z) (key : list byte)
  | OpSingleDeleteParts (column_family_id : Z) (key : SliceParts)
  | OpMerge (column_family_id : Z) (key value : list byte)
  | OpMergeParts (column_family_id : Z) (key value : SliceParts)
  | OpPutLogData (blob : list byte)
  | OpHasPut
  | OpHasDelete
  | OpHasSingleDelete
  | OpHasMerge.

Definition is_append (o : Op) : bool :=
  match o with
  | OpHasPut | OpHasDelete | OpHasSingleDelete | OpHasMerge => false
  | _ => true
  end.

Section Ops.
Context `{tags : ValueTypeTags}.

Definition run_op (o : Op) (b : WriteBatch) : option WriteBatch :=
  match o with
  | OpPut cf key value => Some (Put b cf key value)
  | OpPutParts cf key value => Some (PutParts b cf key value)
  | OpDelete cf key => Some (Delete b cf key)
  | OpDeleteParts cf key => Some (DeleteParts b cf key)
  | OpSingleDelete cf key => Some (SingleDelete b cf key)
  | OpSingleDeleteParts cf key => Some (SingleDeleteParts b cf key)
  | OpMerge cf key value => Some (Merge b cf key value)
  | OpMergeParts cf key value => Some (MergeParts b cf key value)
  | OpPutLogData blob => Some (PutLogData b blob)
  | OpHasPut => snd <$> HasPut b
  | OpHasDelete => snd <$> HasDelete b
  | OpHasSingleDelete => snd <$> HasSingleDelete b
  | OpHasMerge => snd <$> HasMerge b
  end.

Fixpoint run_ops (ops : list Op) (b : WriteBatch) : option WriteBatch :=
  match ops with
  | [] => Some b
  | o :: ops =>
    match run_op o b with
    | Some b => run_ops ops b
    | None => None
    end
  end.

End Ops.

(** A batch whose [save_points_] is null or points to a live object. *)
Definition live (b : WriteBatch) (h : Heap) : Prop :=
  match save_points_ b with
  | None => True
  | Some l => is_Some (h !! l)
  end.

(** [y] is [x] with bytes appended: the sequence field and the payload
    of [x] are still there, some bytes follow, and the save-point
    pointer is the same (the count field may differ). *)
Definition appends (x y : WriteBatch) : Prop :=
  save_points_ y = save_points_ x
  /\ take 8 (rep_ y) = take 8 (rep_ x)
  /\ exists extra : list byte,
       extra <> [] /\ drop kHeader (rep_ y) = drop kHeader (rep_ x) ++ extra.

(** ** Concrete collaborators and tags *)

(** The values of the enumerators in the db/dbformat.h of this release;
    used where a statement needs concrete bytes. *)
Definition dbformat_tag (t : ValueType) : byte :=
  match t with
  | kTypeDeletion => x00
  | kTypeValue => x01
  | kTypeMerge => x02
  | kTypeLogData => x03
  | kTypeColumnFamilyDeletion => x04
  | kTypeColumnFamilyValue => x05
  | kTypeColumnFamilyMerge => x06
  | kTypeSingleDeletion => x07
  | kTypeColumnFamilySingleDeletion => x08
  end.

Definition dbformat_tags : ValueTypeTags :=
  {| tag_char := dbformat_tag;
     tag_char_inj :=
       ltac:(intros [] []; simpl; intros E; first [reflexivity | discriminate E]) |}.

(** One entry added to a memtable. *)
Definition Entry : Type := Z * ValueType * list byte * list byte.

Definition entry_has_key (key : list byte) (e : Entry) : bool :=
  bool_decide (snd (fst e) = key).

(** A database with the default column family only, whose single
    memtable has filter_deletes set and no in-place updates, no merge
    folding and no flush scheduling; its state is the list of entries
    added so far, and a key may exist when an entry carries it. *)
Definition FilteringDb : Collaborators (list Entry) :=
  {| cf_mems_Seek := fun cf w => (cf =? 0, w);
     cf_mems_GetLogNumber := fun _ => 0;
     inplace_update_support := fun _ => false;
     inplace_callback_set := fun _ => false;
     filter_deletes := fun _ => true;
     max_successive_merges := fun _ => 0;
     mem_Add := fun seq t key value _ w => (seq, t, key, value) :: w;
     mem_Update := fun _ _ _ w => w;
     mem_UpdateCallback := fun _ _ _ w => (false, w);
     mem_CountSuccessiveMergeEntries := fun _ _ _ => 0;
     mem_ShouldScheduleFlush := fun _ => false;
     mem_MarkFlushScheduled := fun w => (false, w);
     db_Get := fun _ key w =>
       match List.find (entry_has_key key) w with
       | Some e => (OK, snd e)
       | None => (NotFound, [])
       end;
     db_KeyMayExist := fun _ key w => existsb (entry_has_key key) w;
     inplace_callback := fun _ _ _ => (UPDATE_FAILED, [], []);
     FullMerge := fun _ _ _ _ => (false, []);
     RecordTick := fun _ w => w;
     ScheduleFlush := fun w => w |}.

(** Bytes of an ASCII string. *)
Definition bytes (s : string) : list byte := list_byte_of_string s.

(** ** Example batches (with the tags of db/dbformat.h) *)

Section Examples.
#[local] Existing Instance dbformat_tags.

(** put("a","1"); put("b","2") on a fresh batch. *)
Definition two_puts : WriteBatch :=
  Put (Put (WriteBatch_new 0) 0 (bytes "a") (bytes "1")) 0 (bytes "b") (bytes "2").

(** S6: the bytes of [two_puts] cut after the first record; the header
    still says 2. *)
Definition truncated_batch : WriteBatch :=
  WriteBatch_of_rep (take 17 (rep_ two_puts)).

(** A put and a delete followed by a byte that is no tag. *)
Definition malformed_batch : WriteBatch :=
  WriteBatch_of_rep
    (rep_ (Delete (Put (WriteBatch_new 0) 0 (bytes "abc") (bytes "xyz"))
                  7 (bytes "k"))
     ++ [xff]).

(** S5: A holds put("a","1"); B holds delete("b") and merge("c","3") and
    carries sequence 99. *)
Definition batch_A : WriteBatch :=
  Put (WriteBatch_new 0) 0 (bytes "a") (bytes "1").
Definition batch_B : WriteBatch :=
  SetSequence
    (Merge (Delete (WriteBatch_new 0) 0 (bytes "b")) 0 (bytes "c") (bytes "3"))
    99.

(** A batch adopted from twelve zero bytes: its flags are DEFERRED. *)
Definition adopted_empty : WriteBatch := WriteBatch_of_rep (replicate 12 x00).

(** One deletion of a key the database never saw, at sequence 100. *)
Definition lone_delete : WriteBatch :=
  SetSequence (Delete (WriteBatch_new 0) 0 (bytes "k")) 100.

End Examples.

(** ** The records the append operations write *)

(** A column family id, or the length of a key, fits a varint32. *)
Definition fits32 (n : Z) : Prop := 0 <= n < 2 ^ 32.

Definition slice_fits (s : list byte) : Prop := fits32 (Z.of_nat (length s)).

(** The operation's arguments are in the range of their C++ types
    (uint32_t for the column family id) and of the varint32 that
    prefixes a slice. *)
Definition op_fits (o : Op) : Prop :=
  match o with
  | OpPut cf key value | OpMerge cf key value =>
    fits32 cf /\ slice_fits key /\ slice_fits value
  | OpPutParts cf key value | OpMergeParts cf key value =>
    fits32 cf /\ slice_fits (concat key) /\ slice_fits (concat value)
  | OpDelete cf key | OpSingleDelete cf key => fits32 cf /\ slice_fits key
  | OpDeleteParts cf key | OpSingleDeleteParts cf key =>
    fits32 cf /\ slice_fits (concat key)
  | OpPutLogData blob => slice_fits blob
  | OpHasPut | OpHasDelete | OpHasSingleDelete | OpHasMerge => True
  end.

(** The tag an append writes: the plain one for column family 0. *)
Definition tag_for (column_family_id : Z) (plain with_cf : ValueType)
  : ValueType :=
  if column_family_id =? 0 then plain else with_cf.

(** The record an operation appends, as a reader sees it; none for a
    query. *)
Definition op_record (o : Op) : option Rec :=
  match o with
  | OpPut cf key value =>
    Some (mkRec (tag_for cf kTypeValue kTypeColumnFamilyValue) cf key value [])
  | OpPutParts cf key value =>
    Some (mkRec (tag_for cf kTypeValue kTypeColumnFamilyValue) cf
                (concat key) (concat value) [])
  | OpDelete cf key =>
    Some (mkRec (tag_for cf kTypeDeletion kTypeColumnFamilyDeletion) cf key [] [])
  | OpDeleteParts cf key =>
    Some (mkRec (tag_for cf kTypeDeletion kTypeColumnFamilyDeletion) cf
                (concat key) [] [])
  | OpSingleDelete cf key =>
    Some (mkRec (tag_for cf kTypeSingleDeletion kTypeColumnFamilySingleDeletion)
                cf key [] [])
  | OpSingleDeleteParts cf key =>
    Some (mkRec (tag_for cf kTypeSingleDeletion kTypeColumnFamilySingleDeletion)
                cf (concat key) [] [])
  | OpMerge cf key value =>
    Some (mkRec (tag_for cf kTypeMerge kTypeColumnFamilyMerge) cf key value [])
  | OpMergeParts cf key value =>
    Some (mkRec (tag_for cf kTypeMerge kTypeColumnFamilyMerge) cf
                (concat key) (concat value) [])
  | OpPutLogData blob => Some (mkRec kTypeLogData 0 [] [] blob)
  | OpHasPut | OpHasDelete | OpHasSingleDelete | OpHasMerge => None
  end.

Definition ops_records (ops : list Op) : list Rec := omap op_record ops.

(** ** Iterate at the level of records *)

(** The [switch] of Iterate on one decoded record. *)
Definition dispatch {St : Type} (handler : Handler St) (r : Rec) (h : St)
  : Status * St :=
  match rec_type r with
  | kTypeColumnFamilyValue | kTypeValue =>
    PutCF handler (rec_column_family r) (rec_key r) (rec_value r) h
  | kTypeColumnFamilyDeletion | kTypeDeletion =>
    DeleteCF handler (rec_column_family r) (rec_key r) h
  | kTypeColumnFamilySingleDeletion | kTypeSingleDeletion =>
    SingleDeleteCF handler (rec_column_family r) (rec_key r) h
  | kTypeColumnFamilyMerge | kTypeMerge =>
    MergeCF handler (rec_column_family r) (rec_key r) (rec_value r) h
  | kTypeLogData => (OK, LogData handler (rec_blob r) h)
  end.

(** The loop of Iterate over the records of the payload and the way
    their decoding ends: Continue is asked before each record (and
    before the read that fails), a record other than log data counts,
    and a callback that does not return OK ends the walk. *)
Fixpoint walk {St : Type} (handler : Handler St) (recs : list Rec)
    (e : DecodeEnd) (found : Z) (h : St) : Status * Z * St :=
  match recs with
  | [] =>
    match e with
    | DecodeFailed s =>
      let (continue, h) := Continue handler h in
      if continue then (s, found, h) else (OK, found, h)
    | _ => (OK, found, h)
    end
  | r :: recs =>
    let (continue, h) := Continue handler h in
    if negb continue then (OK, found, h)
    else
      let (s, h) := dispatch handler r h in
      let found := if is_log_data r then found else found + 1 in
      if ok s then walk handler recs e found h else (s, found, h)
  end.

(** The callbacks for [recs] one after the other, as long as they return
    OK: the handler after the last one, or [None] if one of them fails. *)
Fixpoint visit {St : Type} (handler : Handler St) (recs : list Rec) (h : St)
  : option St :=
  match recs with
  | [] => Some h
  | r :: recs =>
    let (s, h) := dispatch handler r h in
    if ok s then visit handler recs h else None
  end.

(** One run of the loop of Iterate to the end of [recs]: Continue
    answers true before each record and the callback the record goes to
    returns OK.  The handler after the last record, or [None] if this
    run is stopped on the way. *)
Fixpoint run_to_end {St : Type} (handler : Handler St) (recs : list Rec)
    (h : St) : option St :=
  match recs with
  | [] => Some h
  | r :: recs =>
    let (continue, h) := Continue handler h in
    if continue then
      let (s, h) := dispatch handler r h in
      if ok s then run_to_end handler recs h else None
    else None
  end.

(** A batch that holds its header, whose payload decodes to the end and
    whose count field is the number of its records other than log data. *)
Definition well_formed `{tags : ValueTypeTags} (b : WriteBatch) : Prop :=
  (kHeader <= length (rep_ b))%nat
  /\ snd (records_of b) = DecodeClean
  /\ Count b = counted (fst (records_of b)).

(** ** The wire form of a record *)

Definition has_column_family (t : ValueType) : bool :=
  match t with
  | kTypeColumnFamilyValue | kTypeColumnFamilyDeletion
  | kTypeColumnFamilySingleDeletion | kTypeColumnFamilyMerge => true
  | _ => false
  end.

Definition has_value (t : ValueType) : bool :=
  match t with
  | kTypeValue | kTypeColumnFamilyValue | kTypeMerge | kTypeColumnFamilyMerge =>
    true
  | _ => false
  end.

(** The bytes of a record as the header comment of the file lays them
    out: the tag, the column family id for the ColumnFamily kinds, then
    the key (and the value for puts and merges), or the blob. *)
Definition record_bytes `{tags : ValueTypeTags} (r : Rec) : list byte :=
  [tag_char (rec_type r)]
  ++ (if has_column_family (rec_type r)
      then PutVarint32 (rec_column_family r) else [])
  ++ match rec_type r with
     | kTypeLogData => PutLengthPrefixedSlice [] (rec_blob r)
     | _ =>
       PutLengthPrefixedSlice [] (rec_key r)
       ++ (if has_value (rec_type r)
           then PutLengthPrefixedSlice [] (rec_value r) else [])
     end.

(** A record as a reader returns it: the sizes fit their varint32, the
    column family is 0 for the plain kinds, and the slots its kind does
    not have are empty. *)
Definition rec_canonical (r : Rec) : Prop :=
  fits32 (rec_column_family r)
  /\ slice_fits (rec_key r) /\ slice_fits (rec_value r)
  /\ slice_fits (rec_blob r)
  /\ (has_column_family (rec_type r) = false -> rec_column_family r = 0)
  /\ (has_value (rec_type r) = false -> rec_value r = [])
  /\ (rec_type r = kTypeLogData -> rec_key r = [])
  /\ (rec_type r <> kTypeLogData -> rec_blob r = []).

(** The cached content flags are either marked DEFERRED or those of the
    records of the batch. *)
Definition cache_ok `{tags : ValueTypeTags} (b : WriteBatch) : Prop :=
  Z.land (content_flags_ b) DEFERRED = 0 ->
  content_flags_ b = flags_of (fst (records_of b)).

(** Some record of [recs] carries the content flag [flag]. *)
Definition has_kind (flag : Z) (recs : list Rec) : bool :=
  existsb (fun r => flag_of (rec_type r) =? flag) recs.

(** A handler that inherits WriteBatch::Handler::Continue. *)
Definition default_Continue {St : Type} (handler : Handler St) : Prop :=
  forall h : St, Continue handler h = (true, h).

(** ** A group of writers *)


Section Group.
Context {W : Type} `{collab : Collaborators W} `{tags : ValueTypeTags}.



End Group.



(** WriteBatchInternal::GetFirstOffset *)
Definition GetFirstOffset (b : WriteBatch) : nat := kHeader.

(** ** More examples *)

(** A handler that counts the puts and merges it is given and rejects
    deletions. *)
Definition RejectDeletes : Handler Z :=
  {| PutCF := fun _ _ _ seen => (OK, seen + 1);
     DeleteCF := fun _ _ seen => (NotFound, seen);
     SingleDeleteCF := fun _ _ seen => (NotFound, seen);
     MergeCF := fun _ _ _ seen => (OK, seen + 1);
     LogData := Handler_LogData;
     Continue := Handler_Continue |}.

(** A database with the default column family only, at log number
    [log_number], with a plain memtable: no filter, no in-place update,
    no merge folding, no flush scheduling. *)
Definition PlainDb (log_number : Z) : Collaborators (list Entry) :=
  {| cf_mems_Seek := fun cf w => (cf =? 0, w);
     cf_mems_GetLogNumber := fun _ => log_number;
     inplace_update_support := fun _ => false;
     inplace_callback_set := fun _ => false;
     filter_deletes := fun _ => false;
     max_successive_merges := fun _ => 0;
     mem_Add := fun seq t key value _ w => (seq, t, key, value) :: w;
     mem_Update := fun _ _ _ w => w;
     mem_UpdateCallback := fun _ _ _ w => (false, w);
     mem_CountSuccessiveMergeEntries := fun _ _ _ => 0;
     mem_ShouldScheduleFlush := fun _ => false;
     mem_MarkFlushScheduled := fun w => (false, w);
     db_Get := fun _ key w =>
       match List.find (entry_has_key key) w with
       | Some e => (OK, snd e)
       | None => (NotFound, [])
       end;
     db_KeyMayExist := fun _ key w => existsb (entry_has_key key) w;
     inplace_callback := fun _ _ _ => (UPDATE_FAILED, [], []);
     FullMerge := fun _ _ _ _ => (false, []);
     RecordTick := fun _ w => w;
     ScheduleFlush := fun w => w |}.

Section MoreExamples.
#[local] Existing Instance dbformat_tags.

(** put("a","1"); delete(cf 7, "k"); put("b","2") on a fresh batch. *)
Definition put_delete_put : WriteBatch :=
  Put (Delete (Put (WriteBatch_new 0) 0 (bytes "a") (bytes "1")) 7 (bytes "k"))
      0 (bytes "b") (bytes "2").



End MoreExamples.

(** A put, a blob, a query, a gathered delete to family 7 and a merge to
    family 3. *)
Definition example_ops : list Op :=
  [ OpPut 0 (bytes "a") (bytes "1"); OpPutLogData (bytes "blob"); OpHasPut;
    OpDeleteParts 7 [bytes "k"; bytes "ey"]; OpMerge 3 (bytes "c") (bytes "3") ].

(** * Properties *)

(** ** Bytes and the fixed-width codec *)

Lemma byte_to_Z_range (b : byte) : 0 <= byte_to_Z b < 256.
Proof.
  unfold byte_to_Z. pose proof (Byte.to_N_bounded b). lia.
Qed.

Lemma byte_of_Z_eq (z : Z) (b : byte) : z mod 256 = byte_to_Z b -> byte_of_Z z = b.
Proof.
  unfold byte_of_Z, byte_to_Z. intros ->.
  rewrite N2Z.id. now rewrite Byte.of_to_N.
Qed.

Lemma byte_of_to_Z (b : byte) : byte_of_Z (byte_to_Z b) = b.
Proof.
  apply byte_of_Z_eq. pose proof (byte_to_Z_range b).
  apply Z.mod_small. lia.
Qed.

Lemma byte_to_of_Z (z : Z) : byte_to_Z (byte_of_Z z) = z mod 256.
Proof.
  unfold byte_of_Z, byte_to_Z.
  assert (Hr : 0 <= z mod 256 < 256) by (apply Z.mod_pos_bound; lia).
  destruct (Byte.of_N (Z.to_N (z mod 256))) as [b|] eqn:E.
  - apply Byte.to_of_N in E. rewrite E. lia.
  - apply Byte.of_N_None_iff in E. lia.
Qed.

Lemma DecodeFixed32_range (p : list byte) : 0 <= DecodeFixed32 p < 2 ^ 32.
Proof.
  unfold DecodeFixed32.
  pose proof (byte_to_Z_range (nth 0 p x00)).
  pose proof (byte_to_Z_range (nth 1 p x00)).
  pose proof (byte_to_Z_range (nth 2 p x00)).
  pose proof (byte_to_Z_range (nth 3 p x00)).
  lia.
Qed.

Lemma DecodeFixed32_EncodeFixed32 (v : Z) (rest : list byte) :
  0 <= v < 2 ^ 32 -> DecodeFixed32 (EncodeFixed32 v ++ rest) = v.
Proof.
  intros Hv. unfold DecodeFixed32, EncodeFixed32. cbn [nth app].
  rewrite !byte_to_of_Z.
  change (2 ^ 32) with 4294967296 in Hv.
  change (2 ^ 8) with 256; change (2 ^ 16) with 65536;
    change (2 ^ 24) with 16777216.
  Z.div_mod_to_equations. lia.
Qed.

Lemma EncodeFixed32_DecodeFixed32 (a b c d : byte) (rest : list byte) :
  EncodeFixed32 (DecodeFixed32 (a :: b :: c :: d :: rest)) = [a; b; c; d].
Proof.
  unfold DecodeFixed32, EncodeFixed32. cbn [nth].
  pose proof (byte_to_Z_range a). pose proof (byte_to_Z_range b).
  pose proof (byte_to_Z_range c). pose proof (byte_to_Z_range d).
  change (2 ^ 8) with 256; change (2 ^ 16) with 65536;
    change (2 ^ 24) with 16777216.
  repeat f_equal; apply byte_of_Z_eq; Z.div_mod_to_equations; lia.
Qed.

Lemma DecodeFixed32_app (p q : list byte) :
  (4 <= length p)%nat -> DecodeFixed32 (p ++ q) = DecodeFixed32 p.
Proof.
  intros Hlen. destruct p as [|a [|b [|c [|d t]]]]; simpl in Hlen; try lia.
  reflexivity.
Qed.

Lemma wrap32_to_int (v : Z) : 0 <= v < 2 ^ 32 -> wrap32 (to_int v) = v.
Proof.
  intros Hv. unfold wrap32, to_int.
  change (2 ^ 32) with 4294967296 in *. change (2 ^ 31) with 2147483648.
  destruct (v <? 2147483648); Z.div_mod_to_equations; lia.
Qed.

Lemma wrap32_range (z : Z) : 0 <= wrap32 z < 2 ^ 32.
Proof. unfold wrap32. apply Z.mod_pos_bound. lia. Qed.

Lemma to_int_wrap32 (s : Z) : - 2 ^ 31 <= s < 2 ^ 31 -> to_int (wrap32 s) = s.
Proof.
  intros Hs. unfold wrap32, to_int.
  change (2 ^ 32) with 4294967296 in *. change (2 ^ 31) with 2147483648 in *.
  destruct (s mod 4294967296 <? 2147483648) eqn:E;
    [apply Z.ltb_lt in E | apply Z.ltb_ge in E];
    revert E; Z.div_mod_to_equations; lia.
Qed.

(** ** The header of a batch *)

(** A buffer that holds its header starts with twelve bytes. *)
Lemma header_split (r : list byte) :
  (kHeader <= length r)%nat ->
  exists s0 s1 s2 s3 s4 s5 s6 s7 c0 c1 c2 c3 payload,
    r = s0 :: s1 :: s2 :: s3 :: s4 :: s5 :: s6 :: s7
        :: c0 :: c1 :: c2 :: c3 :: payload.
Proof.
  unfold kHeader. intros Hlen.
  do 12 (destruct r as [|? r]; [simpl in Hlen; lia|]).
  repeat eexists.
Qed.

Ltac split_header H :=
  let s0 := fresh "s0" in let s1 := fresh "s1" in let s2 := fresh "s2" in
  let s3 := fresh "s3" in let s4 := fresh "s4" in let s5 := fresh "s5" in
  let s6 := fresh "s6" in let s7 := fresh "s7" in let c0 := fresh "c0" in
  let c1 := fresh "c1" in let c2 := fresh "c2" in let c3 := fresh "c3" in
  let payload := fresh "payload" in let E := fresh "Erep" in
  destruct (header_split _ H)
    as (s0 & s1 & s2 & s3 & s4 & s5 & s6 & s7 & c0 & c1 & c2 & c3 & payload & E).

Lemma Count_SetCount (b : WriteBatch) (n : Z) :
  (kHeader <= length (rep_ b))%nat -> Count (SetCount b n) = to_int (wrap32 n).
Proof.
  intros Hlen. split_header Hlen. unfold Count, SetCount, set_rep.
  cbn [rep_]. rewrite Erep. cbn [take drop app]. rewrite !drop_0.
  now rewrite DecodeFixed32_EncodeFixed32 by apply wrap32_range.
Qed.

(** Writing back the count that was read leaves the buffer as it is. *)
Lemma SetCount_Count (b : WriteBatch) :
  (kHeader <= length (rep_ b))%nat -> rep_ (SetCount b (Count b)) = rep_ b.
Proof.
  intros Hlen. split_header Hlen. unfold Count, SetCount, set_rep.
  cbn [rep_]. rewrite Erep. cbn [take drop app]. rewrite !drop_0.
  rewrite wrap32_to_int by apply DecodeFixed32_range.
  now rewrite EncodeFixed32_DecodeFixed32.
Qed.

Lemma SetCount_payload (b : WriteBatch) (n : Z) :
  (kHeader <= length (rep_ b))%nat ->
  drop kHeader (rep_ (SetCount b n)) = drop kHeader (rep_ b)
  /\ take 8 (rep_ (SetCount b n)) = take 8 (rep_ b)
  /\ length (rep_ (SetCount b n)) = length (rep_ b).
Proof.
  intros Hlen. split_header Hlen. unfold SetCount, set_rep, kHeader.
  cbn [rep_]. rewrite Erep. cbn [take drop app EncodeFixed32 length].
  rewrite !drop_0. cbn [app length]. repeat split.
Qed.

Lemma Sequence_take8 (r r' : list byte) :
  (8 <= length r)%nat -> take 8 r' = take 8 r -> DecodeFixed64 r' = DecodeFixed64 r.
Proof.
  intros Hlen E.
  do 8 (destruct r as [|? r]; [simpl in Hlen; lia|]).
  do 8 (destruct r' as [|? r']; [discriminate E|]).
  cbn [take] in E. injection E as -> -> -> -> -> -> -> ->.
  reflexivity.
Qed.

(** ** S2: a single put to the default column family *)

(** C8.  On a fresh batch, put(key = "abc", value = "xyz") to the default
    column family leaves, after the 12-byte header, exactly the bytes
    kTypeValue, 3, 'a', 'b', 'c', 3, 'x', 'y', 'z'; Count is 1, HasPut
    answers true and HasDelete, HasSingleDelete and HasMerge answer
    false (none of them changes the batch). *)
Theorem single_put_default_family `{tags : ValueTypeTags} (reserved_bytes : nat) :
  let b := Put (WriteBatch_new reserved_bytes) 0 (bytes "abc") (bytes "xyz") in
  drop kHeader (rep_ b)
  = [tag_char kTypeValue; x03; "a"; "b"; "c"; x03; "x"; "y"; "z"]%byte
  /\ Count b = 1
  /\ HasPut b = Some (true, b)
  /\ HasDelete b = Some (false, b)
  /\ HasSingleDelete b = Some (false, b)
  /\ HasMerge b = Some (false, b).
Proof.
  cbv zeta. repeat split; vm_compute; reflexivity.
Qed.

(** ** Append *)

(** C9.  For two batches that hold their headers, Append makes the
    payload of dst its old payload followed by the payload of src (bytes
    12.. of src), sets the count to the sum of the two counts (in the
    32-bit arithmetic of the count field; the plain sum whenever that
    fits an int), ORs the content flags, and keeps dst's sequence field:
    nothing of src's first eight bytes reaches dst. *)
Theorem Append_splices `{tags : ValueTypeTags} (dst src : WriteBatch) :
  (kHeader <= length (rep_ dst))%nat ->
  (kHeader <= length (rep_ src))%nat ->
  let r := Append dst src in
  drop kHeader (rep_ r) = drop kHeader (rep_ dst) ++ drop kHeader (rep_ src)
  /\ Count r = to_int (wrap32 (Count dst + Count src))
  /\ (- 2 ^ 31 <= Count dst + Count src < 2 ^ 31 ->
      Count r = Count dst + Count src)
  /\ content_flags_ r = Z.lor (content_flags_ dst) (content_flags_ src)
  /\ take 8 (rep_ r) = take 8 (rep_ dst)
  /\ Sequence r = Sequence dst
  /\ save_points_ r = save_points_ dst.
Proof.
  intros Hd Hs r.
  pose proof (SetCount_payload dst (Count dst + Count src) Hd) as (Hp & Ht & Hl).
  assert (Hrep : rep_ r
                 = rep_ (SetCount dst (Count dst + Count src))
                   ++ drop kHeader (rep_ src)) by reflexivity.
  assert (Htake : take 8 (rep_ r) = take 8 (rep_ dst)).
  { rewrite Hrep, take_app_le by (rewrite Hl; unfold kHeader in Hd; lia).
    exact Ht. }
  assert (Hcount : Count r = to_int (wrap32 (Count dst + Count src))).
  { rewrite <- (Count_SetCount dst) by exact Hd.
    unfold Count at 1. rewrite Hrep.
    rewrite drop_app_le by (rewrite Hl; unfold kHeader in Hd; lia).
    rewrite DecodeFixed32_app; [reflexivity|].
    rewrite length_drop, Hl. unfold kHeader in Hd. lia. }
  repeat split.
  - rewrite Hrep, drop_app_le by (rewrite Hl; lia). now rewrite Hp.
  - exact Hcount.
  - intros Hfit. rewrite Hcount. now apply to_int_wrap32.
  - exact Htake.
  - unfold Sequence. apply Sequence_take8; [unfold kHeader in Hd; lia | exact Htake].
Qed.

(** ** The record reader consumes its input *)

Lemma GetVarint32_loop_shorter (n : nat) (shift result : Z) (p : list byte)
    (v : Z) (rest : list byte) :
  GetVarint32_loop n shift result p = Some (v, rest) ->
  (length rest < length p)%nat.
Proof.
  revert shift result p.
  induction n as [|n IH]; intros shift result p; cbn [GetVarint32_loop].
  - discriminate.
  - destruct p as [|b p']; [discriminate|].
    destruct (Z.testbit (byte_to_Z b) 7).
    + intros E. apply IH in E. simpl. lia.
    + intros [= _ <-]. simpl. lia.
Qed.

Lemma GetVarint32_shorter (input : list byte) (v : Z) (rest : list byte) :
  GetVarint32 input = Some (v, rest) -> (length rest < length input)%nat.
Proof. apply GetVarint32_loop_shorter. Qed.

Lemma GetLengthPrefixedSlice_shorter (input s rest : list byte) :
  GetLengthPrefixedSlice input = Some (s, rest) ->
  (length rest < length input)%nat.
Proof.
  unfold GetLengthPrefixedSlice.
  destruct (GetVarint32 input) as [[len r]|] eqn:E; [|discriminate].
  apply GetVarint32_shorter in E.
  destruct (len <=? Z.of_nat (length r)); [|discriminate].
  intros [= _ <-]. rewrite length_drop. lia.
Qed.

Section Reader.
Context `{tags : ValueTypeTags}.

(** Case analysis on the calls a record read is made of. *)
Ltac read_cases :=
  repeat match goal with
  | |- context [match GetVarint32 ?i with _ => _ end] =>
    let E := fresh "Ecf" in
    destruct (GetVarint32 i) as [[? ?]|] eqn:E;
    [apply GetVarint32_shorter in E|]
  | |- context [match GetLengthPrefixedSlice ?i with _ => _ end] =>
    let E := fresh "Eslice" in
    destruct (GetLengthPrefixedSlice i) as [[? ?]|] eqn:E;
    [apply GetLengthPrefixedSlice_shorter in E|]
  end.

Lemma ReadRecordFromWriteBatch_shorter (input rest : list byte) (tag : byte)
    (cf : Z) (key value blob : list byte) :
  ReadRecordFromWriteBatch input = ReadOk rest tag cf key value blob ->
  (length rest < length input)%nat /\ is_Some (tag_case tag).
Proof.
  unfold ReadRecordFromWriteBatch.
  destruct input as [|t input]; [discriminate|].
  destruct (tag_case t) as [[]|] eqn:Etag;
    unfold read_column_family, read_key_value, read_key; read_cases;
    try discriminate;
    intros [= <- <- <- <- <- <-]; (split; [simpl; lia | rewrite Etag; eauto]).
Qed.

(** On a cursor that is not empty the reader stays inside it: it
    returns its out-parameters or a Corruption status. *)
Lemma ReadRecordFromWriteBatch_nonempty (input : list byte) :
  input <> [] ->
  (exists rest tag cf key value blob,
      ReadRecordFromWriteBatch input = ReadOk rest tag cf key value blob)
  \/ (exists msg, ReadRecordFromWriteBatch input = ReadError (Corruption msg)).
Proof.
  unfold ReadRecordFromWriteBatch.
  destruct input as [|t input]; [congruence|]. intros _.
  destruct (tag_case t) as [[]|];
    unfold read_column_family, read_key_value, read_key; read_cases;
    eauto 10.
Qed.

(** ** Iterate always returns *)

Lemma Iterate_loop_total {St : Type} (handler : Handler St) (fuel : nat) :
  forall (input : list byte) (found : Z) (h : St),
    (length input <= fuel)%nat ->
    is_Some (Iterate_loop handler fuel input found h).
Proof.
  induction fuel as [|fuel IH]; intros input found h Hlen.
  - destruct input; [simpl; eauto | simpl in Hlen; lia].
  - destruct input as [|t input]; [simpl; eauto|].
    cbn [Iterate_loop].
    destruct (Continue handler h) as [c h1]. destruct c; cbn [negb]; [|eauto].
    destruct (ReadRecordFromWriteBatch_nonempty (t :: input)) as
      [(rest & tag & cf & key & value & blob & E) | (msg & E)];
      [congruence | | rewrite E; eauto].
    rewrite E. apply ReadRecordFromWriteBatch_shorter in E as [Hshort _].
    assert (Hrest : (length rest <= fuel)%nat) by (simpl in *; lia).
    destruct (tag_case tag) as [[]|]; eauto;
      match goal with
      | |- context [ok (fst ?r)] => destruct (ok (fst r)); eauto
      end.
Qed.

Lemma Iterate_total {St : Type} (handler : Handler St) (b : WriteBatch) (h : St) :
  is_Some (Iterate handler b h).
Proof.
  unfold Iterate.
  destruct (length (rep_ b) <? kHeader)%nat; [eauto|].
  destruct (Iterate_loop_total handler (length (drop kHeader (rep_ b)))
              (drop kHeader (rep_ b)) 0 h) as [[[s found] h'] E]; [lia|].
  rewrite E.
  destruct (negb (ok s)); [eauto|].
  destruct (negb (found =? Count b)); eauto.
Qed.

End Reader.

(** ** Iterate against the records of the payload *)

Lemma counted_cons (r : Rec) (recs : list Rec) :
  counted (r :: recs) = (if is_log_data r then 0 else 1) + counted recs.
Proof.
  unfold counted. cbn [List.filter]. destruct (is_log_data r); cbn [negb length]; lia.
Qed.

Lemma BatchContentClassifier_never_stops : never_stops BatchContentClassifier.
Proof. repeat split. Qed.

Section Simulation.
Context `{tags : ValueTypeTags}.

(** With a handler that never stops, the loop dispatches the records of
    the payload one by one: it ends with the status of the decoding and
    has counted the records that are not log data. *)
Lemma Iterate_loop_never_stops {St : Type} (handler : Handler St) :
  never_stops handler ->
  forall (fuel : nat) (input : list byte) (found : Z) (h : St),
  exists h',
    Iterate_loop handler fuel input found h
    = match decode_records fuel input with
      | (recs, DecodeClean) => Some (OK, found + counted recs, h')
      | (recs, DecodeFailed s) => Some (s, found + counted recs, h')
      | (_, DecodeUnfinished) => None
      end.
Proof.
  intros (Hput & Hdel & Hsdel & Hmerge & Hcont).
  induction fuel as [|fuel IH]; intros input found h.
  - destruct input as [|t input]; cbn [Iterate_loop decode_records].
    + exists h. unfold counted. cbn. now rewrite Z.add_0_r.
    + specialize (Hcont h). destruct (Continue handler h) as [c h1].
      cbn in Hcont. subst c. now exists h.
  - destruct input as [|t input]; cbn [Iterate_loop decode_records].
    + exists h. unfold counted. cbn. now rewrite Z.add_0_r.
    + specialize (Hcont h). destruct (Continue handler h) as [c h1].
      cbn in Hcont. subst c. cbn [negb].
      destruct (ReadRecordFromWriteBatch (t :: input))
        as [rest tag cf key value blob | s | ]; [| | now exists h].
      2:{ exists h1. unfold counted. cbn. now rewrite Z.add_0_r. }
      destruct (tag_case tag) as [ty|];
        [| exists h1; unfold counted; cbn; now rewrite Z.add_0_r].
      destruct (decode_records fuel rest) as [recs e] eqn:Edec.
      assert (Hstep : forall (r : Status * St), fst r = OK ->
                is_log_data (mkRec ty cf key value blob) = false ->
                exists h',
                  (if ok (fst r)
                   then Iterate_loop handler fuel rest (found + 1) (snd r)
                   else Some (fst r, found + 1, snd r))
                  = match e with
                    | DecodeClean =>
                      Some (OK, found + counted (mkRec ty cf key value blob :: recs), h')
                    | DecodeFailed s =>
                      Some (s, found + counted (mkRec ty cf key value blob :: recs), h')
                    | DecodeUnfinished => None
                    end).
      { intros r Hr Hlog. rewrite Hr. cbn [ok].
        destruct (IH rest (found + 1) (snd r)) as [h' E]. exists h'.
        rewrite E, Edec, counted_cons, Hlog. cbv iota.
        rewrite Z.add_assoc. destruct e; reflexivity. }
      destruct ty; try (apply Hstep; [auto | reflexivity]).
      destruct (IH rest found (LogData handler blob h1)) as [h' E]. exists h'.
      rewrite E, Edec, counted_cons. cbn [is_log_data rec_type].
      destruct e; reflexivity.
Qed.

(** The classifier ends with the flags of the records decoded. *)
Lemma Iterate_loop_classifier (fuel : nat) :
  forall (input : list byte) (found f : Z),
    Iterate_loop BatchContentClassifier fuel input found f
    = match decode_records fuel input with
      | (recs, DecodeClean) => Some (OK, found + counted recs, classify recs f)
      | (recs, DecodeFailed s) => Some (s, found + counted recs, classify recs f)
      | (_, DecodeUnfinished) => None
      end.
Proof.
  induction fuel as [|fuel IH]; intros input found f.
  - destruct input as [|t input]; cbn [Iterate_loop decode_records]; [|reflexivity].
    unfold counted. cbn. now rewrite Z.add_0_r.
  - destruct input as [|t input]; cbn [Iterate_loop decode_records].
    + unfold counted. cbn. now rewrite Z.add_0_r.
    + cbn [BatchContentClassifier Continue Handler_Continue negb].
      destruct (ReadRecordFromWriteBatch (t :: input))
        as [rest tag cf key value blob | s | ]; [| | reflexivity].
      2:{ unfold counted. cbn. now rewrite Z.add_0_r. }
      destruct (tag_case tag) as [ty|];
        [| unfold counted; cbn; now rewrite Z.add_0_r].
      destruct (decode_records fuel rest) as [recs e] eqn:Edec.
      destruct ty;
        cbn [PutCF DeleteCF SingleDeleteCF MergeCF LogData Handler_LogData
             fst snd ok];
        rewrite IH, Edec, counted_cons;
        cbn [is_log_data rec_type flag_of]; unfold classify; cbn [fold_left];
        cbn [rec_type flag_of LogData BatchContentClassifier Handler_LogData];
        rewrite ?Z.add_assoc, ?Z.lor_0_r, ?Z.add_0_r;
        destruct e; reflexivity.
Qed.

Lemma decode_records_finishes (fuel : nat) :
  forall input : list byte,
    (length input <= fuel)%nat ->
    snd (decode_records fuel input) <> DecodeUnfinished.
Proof.
  induction fuel as [|fuel IH]; intros input Hlen.
  - destruct input; [cbn; discriminate | simpl in Hlen; lia].
  - destruct input as [|t input]; cbn [decode_records]; [cbn; discriminate|].
    destruct (ReadRecordFromWriteBatch_nonempty (t :: input)) as
      [(rest & tag & cf & key & value & blob & E) | (msg & E)];
      [congruence | | rewrite E; cbn; discriminate].
    rewrite E. apply ReadRecordFromWriteBatch_shorter in E as [Hshort [ty Hty]].
    rewrite Hty.
    specialize (IH rest ltac:(simpl in *; lia)).
    destruct (decode_records fuel rest) as [recs e]. exact IH.
Qed.

End Simulation.

(** ** The lazy content flags *)

Lemma classify_not_deferred (recs : list Rec) :
  forall f : Z, Z.land f DEFERRED = 0 -> Z.land (classify recs f) DEFERRED = 0.
Proof.
  unfold classify.
  induction recs as [|r recs IH]; intros f Hf; cbn [fold_left]; [exact Hf|].
  apply IH. rewrite Z.land_lor_distr_l, Hf.
  now destruct (rec_type r).
Qed.

(** What the classifier holds after Iterate, whatever Iterate returns. *)
Lemma Iterate_classifier `{tags : ValueTypeTags} (b : WriteBatch) :
  exists s : Status,
    Iterate BatchContentClassifier b 0
    = Some (s, if (length (rep_ b) <? kHeader)%nat then 0
               else flags_of (fst (records_of b))).
Proof.
  unfold Iterate, records_of, flags_of.
  destruct (length (rep_ b) <? kHeader)%nat; [eauto|].
  rewrite Iterate_loop_classifier.
  pose proof (decode_records_finishes (length (drop kHeader (rep_ b)))
                (drop kHeader (rep_ b)) ltac:(lia)) as Hfin.
  destruct (decode_records (length (drop kHeader (rep_ b)))
              (drop kHeader (rep_ b))) as [recs e].
  cbn [fst snd] in *.
  destruct e as [|s|]; [| |congruence].
  - cbn [ok negb]. destruct (negb (0 + counted recs =? Count b)); eauto.
  - destruct (negb (ok s)); [eauto|].
    destruct (negb (0 + counted recs =? Count b)); eauto.
Qed.


(** ** The reader and the empty cursor *)

(** C7, as amended.  ReadRecordFromWriteBatch does not test its cursor:
    a cursor that is not empty is its precondition.  On such a cursor it
    reads inside the input, returning either its out-parameters with a
    strictly shorter cursor or a Corruption status; and Iterate, which
    tests [input.empty()] before every call, returns on every buffer. *)
Theorem ReadRecordFromWriteBatch_guarded `{tags : ValueTypeTags} :
  (forall input : list byte,
      input <> [] ->
      (exists rest tag cf key value blob,
          ReadRecordFromWriteBatch input = ReadOk rest tag cf key value blob
          /\ (length rest < length input)%nat)
      \/ (exists msg,
             ReadRecordFromWriteBatch input = ReadError (Corruption msg)))
  /\ (forall (St : Type) (handler : Handler St) (b : WriteBatch) (h : St),
         is_Some (Iterate handler b h)).
Proof.
  split.
  - intros input Hne.
    destruct (ReadRecordFromWriteBatch_nonempty input Hne)
      as [(rest & tag & cf & key & value & blob & E) | Herr]; [left | now right].
    exists rest, tag, cf, key, value, blob. split; [exact E|].
    now apply ReadRecordFromWriteBatch_shorter in E.
  - intros St handler b h. apply Iterate_total.
Qed.

(** ** Appends and queries, seen from a save point *)

Lemma appends_from_SetCount (x y : WriteBatch) (n : Z) (extra : list byte) :
  (kHeader <= length (rep_ x))%nat ->
  save_points_ y = save_points_ x ->
  rep_ y = rep_ (SetCount x n) ++ extra ->
  extra <> [] ->
  appends x y.
Proof.
  intros Hlen Hsp Hrep Hne.
  destruct (SetCount_payload x n Hlen) as (Hp & Ht & Hl).
  unfold appends, kHeader in *. repeat split.
  - exact Hsp.
  - rewrite Hrep, take_app_le by lia. exact Ht.
  - exists extra. split; [exact Hne|].
    rewrite Hrep, drop_app_le by lia. now rewrite Hp.
Qed.

Lemma appends_longer (x y : WriteBatch) :
  (kHeader <= length (rep_ x))%nat -> appends x y ->
  (length (rep_ x) < length (rep_ y))%nat.
Proof.
  unfold appends, kHeader. intros Hlen (_ & Ht & extra & Hne & Hd).
  apply (f_equal length) in Hd. rewrite length_app, !length_drop in Hd.
  destruct extra; [congruence|]. simpl in Hd. lia.
Qed.

Lemma appends_trans (x y z : WriteBatch) :
  appends x y -> appends y z -> appends x z.
Proof.
  intros (Hs1 & Ht1 & e1 & Hn1 & Hd1) (Hs2 & Ht2 & e2 & Hn2 & Hd2).
  repeat split; try congruence.
  exists (e1 ++ e2). split.
  - destruct e1; [congruence | discriminate].
  - now rewrite Hd2, Hd1, app_assoc.
Qed.

Section SavePoints.
Context `{tags : ValueTypeTags}.

Ltac counted_append :=
  unfold put_tag;
  match goal with
  | |- context [?cf =? 0] => destruct (cf =? 0)
  end;
  match goal with
  | Hlen : (kHeader <= length (rep_ ?x))%nat |- appends ?x _ =>
    eapply (appends_from_SetCount x _ (Count x + 1));
    [ exact Hlen
    | reflexivity
    | unfold push_back, or_content_flags, set_content_flags, set_rep,
        PutLengthPrefixedSlice, PutLengthPrefixedSliceParts;
      cbn [rep_]; rewrite <- ?app_assoc; cbn [app]; reflexivity
    | discriminate ]
  end.

Lemma run_op_append (o : Op) (x : WriteBatch) :
  (kHeader <= length (rep_ x))%nat ->
  is_append o = true ->
  exists y, run_op o x = Some y /\ appends x y.
Proof.
  intros Hlen Happ.
  destruct o; try discriminate Happ; cbn [run_op]; eexists; (split; [reflexivity|]).
  - unfold Put. counted_append.
  - unfold PutParts. counted_append.
  - unfold Delete. counted_append.
  - unfold DeleteParts. counted_append.
  - unfold SingleDelete. counted_append.
  - unfold SingleDeleteParts. counted_append.
  - unfold Merge. counted_append.
  - unfold MergeParts. counted_append.
  - unfold appends, PutLogData, push_back, set_rep, PutLengthPrefixedSlice.
    cbn [rep_ save_points_]. repeat split.
    + rewrite <- !app_assoc, take_app_le; [reflexivity | unfold kHeader in Hlen; lia].
    + eexists. split; [| rewrite <- !app_assoc, drop_app_le by lia; reflexivity].
      discriminate.
Qed.

(** A query leaves the bytes alone; it leaves the whole batch alone when
    DEFERRED is clear. *)
Lemma has_flag_query (flag : Z) (x : WriteBatch) :
  exists (answer : bool) (y : WriteBatch),
    has_flag flag x = Some (answer, y)
    /\ rep_ y = rep_ x
    /\ save_points_ y = save_points_ x
    /\ (Z.land (content_flags_ x) DEFERRED = 0 -> y = x).
Proof.
  unfold has_flag, ComputeContentFlags.
  destruct (Z.eqb_spec (Z.land (content_flags_ x) DEFERRED) 0) as [E|E];
    cbn [negb].
  - eauto 10.
  - destruct (Iterate_total BatchContentClassifier x 0) as [[s rv] Hit].
    rewrite Hit. do 2 eexists. repeat split. congruence.
Qed.

Lemma run_op_query (o : Op) (x : WriteBatch) :
  is_append o = false ->
  exists y, run_op o x = Some y
            /\ rep_ y = rep_ x
            /\ save_points_ y = save_points_ x
            /\ (Z.land (content_flags_ x) DEFERRED = 0 -> y = x).
Proof.
  intros Hq.
  destruct o; try discriminate Hq; cbn [run_op];
    unfold HasPut, HasDelete, HasSingleDelete, HasMerge;
    match goal with
    | |- context [has_flag ?f x] =>
      destruct (has_flag_query f x) as (answer & y & E & Hr & Hs & Hsame)
    end;
    rewrite E; exists y; cbn; auto.
Qed.

(** Where a run of operations leaves the batch, seen from its start. *)
Lemma run_ops_from (ops : list Op) :
  forall x : WriteBatch,
    (kHeader <= length (rep_ x))%nat ->
    exists y,
      run_ops ops x = Some y
      /\ if existsb is_append ops
         then appends x y
         else rep_ y = rep_ x
              /\ save_points_ y = save_points_ x
              /\ (Z.land (content_flags_ x) DEFERRED = 0 -> y = x).
Proof.
  induction ops as [|o ops IH]; intros x Hlen; cbn [run_ops existsb].
  - exists x. auto.
  - destruct (is_append o) eqn:Eo; cbn [orb].
    + destruct (run_op_append o x Hlen Eo) as (x1 & E1 & Happ).
      rewrite E1.
      pose proof (appends_longer x x1 Hlen Happ) as Hlonger.
      destruct (IH x1 ltac:(lia)) as (y & Ey & Hy).
      exists y. split; [exact Ey|].
      destruct (existsb is_append ops).
      * now apply appends_trans with x1.
      * destruct Hy as (Hr & Hs & _). destruct Happ as (Hs1 & Ht1 & e & Hne & Hd).
        unfold appends. rewrite Hr, Hs. eauto 10.
    + destruct (run_op_query o x Eo) as (x1 & E1 & Hr1 & Hs1 & Hsame1).
      rewrite E1.
      destruct (IH x1 ltac:(rewrite Hr1; exact Hlen)) as (y & Ey & Hy).
      exists y. split; [exact Ey|].
      destruct (existsb is_append ops).
      * unfold appends in *. now rewrite <- Hr1, <- Hs1.
      * destruct Hy as (Hr & Hs & Hsame). repeat split; try congruence.
        intros Hclear. specialize (Hsame1 Hclear). subst x1. auto.
Qed.

End SavePoints.

(** ** SetSavePoint and RollbackToSavePoint *)

Lemma SetSavePoint_pushes (b : WriteBatch) (h : Heap) :
  live b h ->
  exists l : loc,
    SetSavePoint b h
    = Some (set_save_points b (Some l),
            <[l := mkSavePoint (GetDataSize b) (Count b) (content_flags_ b)
                   :: default [] (save_point_stack b h)]> h).
Proof.
  unfold live, SetSavePoint, save_point_stack.
  destruct b as [[l|] flags rep]; cbn [save_points_].
  - intros [stack E]. exists l. now rewrite E.
  - intros _. now exists (fresh (dom h)).
Qed.

Lemma RollbackToSavePoint_after_appends (b b2 : WriteBatch) (h1 : Heap)
    (l : loc) (stack : list SavePoint) :
  (kHeader <= length (rep_ b))%nat ->
  appends b b2 ->
  save_points_ b2 = Some l ->
  h1 !! l
  = Some (mkSavePoint (GetDataSize b) (Count b) (content_flags_ b) :: stack) ->
  exists b3,
    RollbackToSavePoint b2 h1 = Some (OK, b3, <[l := stack]> h1)
    /\ rep_ b3 = rep_ b
    /\ content_flags_ b3 = content_flags_ b
    /\ save_points_ b3 = Some l.
Proof.
  intros Hlen Happ Hsp Hl.
  pose proof (appends_longer b b2 Hlen Happ) as Hlong.
  destruct Happ as (_ & Ht & extra & _ & Hd).
  unfold RollbackToSavePoint. rewrite Hsp, Hl.
  cbn [sp_size sp_count sp_content_flags]. unfold GetDataSize.
  destruct (Nat.eqb_spec (length (rep_ b)) (length (rep_ b2))); [lia|].
  destruct (Nat.eqb_spec (length (rep_ b)) 0); [unfold kHeader in Hlen; lia|].
  eexists. split; [reflexivity|]. repeat split; [|exact Hsp].
  transitivity (rep_ (SetCount b (Count b))); [|now apply SetCount_Count].
  unfold SetCount, set_content_flags, set_rep, resize. cbn [rep_].
  replace (length (rep_ b) - length (rep_ b2))%nat with 0%nat by lia.
  cbn [replicate]. rewrite app_nil_r. unfold kHeader in *.
  f_equal; [|f_equal].
  - rewrite take_take. replace (8 `min` length (rep_ b))%nat with 8%nat by lia.
    exact Ht.
  - rewrite skipn_firstn_comm, Hd.
    apply take_app_length'. rewrite length_drop. lia.
Qed.

Lemma RollbackToSavePoint_unchanged (b b2 : WriteBatch) (h1 : Heap)
    (l : loc) (stack : list SavePoint) :
  rep_ b2 = rep_ b ->
  save_points_ b2 = Some l ->
  h1 !! l
  = Some (mkSavePoint (GetDataSize b) (Count b) (content_flags_ b) :: stack) ->
  RollbackToSavePoint b2 h1 = Some (OK, b2, <[l := stack]> h1).
Proof.
  intros Hrep Hsp Hl. unfold RollbackToSavePoint. rewrite Hsp, Hl.
  cbn [sp_size]. unfold GetDataSize. rewrite Hrep.
  now rewrite Nat.eqb_refl.
Qed.

(** C3, as amended.  Take a save point on a live batch that holds its
    header, run any sequence of appends and content-flag queries, and
    roll back: the call returns OK, the buffer (hence the count) is
    byte for byte what it was at the push, and the save-point stack is
    what it was before the push.  The content-flag word is restored,
    DEFERRED included, whenever something was appended since the push;
    when nothing was appended the rollback changes nothing, so the word
    is what the queries left: the word of the push if DEFERRED was clear
    then, otherwise possibly the classification a query has stored. *)
Theorem RollbackToSavePoint_restores `{tags : ValueTypeTags}
    (b : WriteBatch) (h : Heap) (ops : list Op) :
  (kHeader <= length (rep_ b))%nat ->
  live b h ->
  exists b1 h1 b2 b3 h3,
    SetSavePoint b h = Some (b1, h1)
    /\ run_ops ops b1 = Some b2
    /\ RollbackToSavePoint b2 h1 = Some (OK, b3, h3)
    /\ rep_ b3 = rep_ b
    /\ Count b3 = Count b
    /\ save_point_stack b3 h3 = Some (default [] (save_point_stack b h))
    /\ (existsb is_append ops = true -> content_flags_ b3 = content_flags_ b)
    /\ (Z.land (content_flags_ b) DEFERRED = 0 ->
        content_flags_ b3 = content_flags_ b)
    /\ (existsb is_append ops = false -> b3 = b2).
Proof.
  intros Hlen Hlive.
  destruct (SetSavePoint_pushes b h Hlive) as [l E1].
  set (b1 := set_save_points b (Some l)) in *.
  set (stack := default [] (save_point_stack b h)) in *.
  set (h1 := <[l := mkSavePoint (GetDataSize b) (Count b) (content_flags_ b)
                     :: stack]> h) in *.
  assert (Hl : h1 !! l
               = Some (mkSavePoint (GetDataSize b1) (Count b1) (content_flags_ b1)
                       :: stack)) by apply lookup_insert_eq.
  destruct (run_ops_from ops b1 Hlen) as (b2 & E2 & Hinv).
  destruct (existsb is_append ops) eqn:Eapp.
  - assert (Hsp : save_points_ b2 = Some l) by (destruct Hinv as (-> & _); reflexivity).
    destruct (RollbackToSavePoint_after_appends b1 b2 h1 l stack Hlen Hinv Hsp Hl)
      as (b3 & E3 & Hrep & Hflags & Hsp3).
    exists b1, h1, b2, b3, (<[l := stack]> h1).
    repeat split; intros; try assumption; try discriminate.
    + unfold Count. now rewrite Hrep.
    + unfold save_point_stack. rewrite Hsp3. apply lookup_insert_eq.
  - destruct Hinv as (Hrep & Hsp & Hsame).
    pose proof (RollbackToSavePoint_unchanged b1 b2 h1 l stack Hrep Hsp Hl) as E3.
    exists b1, h1, b2, b2, (<[l := stack]> h1).
    repeat split; intros; try assumption; try discriminate.
    + unfold Count. now rewrite Hrep.
    + unfold save_point_stack. rewrite Hsp. apply lookup_insert_eq.
    + now rewrite Hsame.
Qed.

(** C4, as amended.  When the save point popped records size 12 and the
    buffer is longer, RollbackToSavePoint takes the general branch: it
    returns OK, cuts the buffer to its first 12 bytes with the count
    field rewritten to the recorded count, restores the recorded content
    flags, and pops that one save point only, the rest of the stack
    staying in place.  If the sequence field is zero and the recorded
    count is 0 the buffer is 12 zero bytes.  The full Clear is what a
    recorded size of 0 gets (on a buffer that is not empty): the result
    is that of Clear, a zeroed header, flags 0 and an empty stack.  For
    every other recorded size there is no Clear: one save point is
    popped, the rest of the stack stays, and the sequence field and the
    payload up to the recorded size are kept. *)
Theorem RollbackToSavePoint_header_only (b : WriteBatch) (h : Heap) (l : loc)
    (savepoint : SavePoint) (stack : list SavePoint) :
  save_points_ b = Some l ->
  h !! l = Some (savepoint :: stack) ->
  (sp_size savepoint = kHeader ->
   (kHeader < length (rep_ b))%nat ->
   exists b',
     RollbackToSavePoint b h = Some (OK, b', <[l := stack]> h)
     /\ rep_ b' = take 8 (rep_ b) ++ EncodeFixed32 (wrap32 (sp_count savepoint))
     /\ content_flags_ b' = sp_content_flags savepoint
     /\ save_point_stack b' (<[l := stack]> h) = Some stack
     /\ (take 8 (rep_ b) = replicate 8 x00 -> sp_count savepoint = 0 ->
         rep_ b' = replicate kHeader x00))
  /\ (sp_size savepoint = 0%nat ->
      rep_ b <> [] ->
      exists b',
        RollbackToSavePoint b h = Some (OK, b', <[l := []]> h)
        /\ Clear b (<[l := stack]> h) = Some (b', <[l := []]> h)
        /\ rep_ b' = replicate kHeader x00
        /\ content_flags_ b' = 0
        /\ save_point_stack b' (<[l := []]> h) = Some [])
  /\ (sp_size savepoint <> 0%nat ->
      exists b',
        RollbackToSavePoint b h = Some (OK, b', <[l := stack]> h)
        /\ save_point_stack b' (<[l := stack]> h) = Some stack
        /\ ((kHeader <= sp_size savepoint <= length (rep_ b))%nat ->
            length (rep_ b') = sp_size savepoint
            /\ take 8 (rep_ b') = take 8 (rep_ b)
            /\ drop kHeader (rep_ b')
               = drop kHeader (take (sp_size savepoint) (rep_ b)))).
Proof.
  intros Hsp Hl. split_and!.
  - intros Hsize Hlen.
    unfold RollbackToSavePoint. rewrite Hsp, Hl, Hsize.
    destruct (Nat.eqb_spec kHeader (length (rep_ b))); [lia|].
    cbn [Nat.eqb kHeader].
    assert (Hrep : rep_ (SetCount (set_rep b (resize kHeader (rep_ b)))
                           (sp_count savepoint))
                   = take 8 (rep_ b)
                     ++ EncodeFixed32 (wrap32 (sp_count savepoint))).
    { split_header (Nat.lt_le_incl _ _ Hlen). rewrite Erep.
      unfold SetCount, set_rep, resize, kHeader. cbn [rep_ take length].
      cbn [Nat.sub replicate app take drop]. now rewrite drop_0, !app_nil_r. }
    eexists. split; [reflexivity|]. repeat split.
    + exact Hrep.
    + unfold save_point_stack.
      cbn [save_points_ set_content_flags SetCount set_rep].
      rewrite Hsp. apply lookup_insert_eq.
    + intros Hzero Hcount. cbn [rep_ set_content_flags].
      change (rep_ (SetCount (set_rep b (resize 12 (rep_ b)))
                      (sp_count savepoint)))
        with (rep_ (SetCount (set_rep b (resize kHeader (rep_ b)))
                      (sp_count savepoint))).
      rewrite Hrep, Hzero, Hcount. reflexivity.
  - intros Hsize Hne.
    destruct b as [sp flags rep]. cbn [save_points_ rep_] in Hsp, Hne.
    subst sp.
    unfold RollbackToSavePoint, Clear, set_content_flags, set_rep.
    cbn [save_points_ rep_ content_flags_]. rewrite Hl, Hsize.
    destruct (Nat.eqb_spec 0 (length rep)) as [E|_].
    { destruct rep; [contradiction|discriminate E]. }
    cbn [Nat.eqb]. rewrite lookup_insert_eq, insert_insert_eq.
    eexists. split; [reflexivity|]. split; [reflexivity|].
    split; [reflexivity|]. split; [reflexivity|].
    unfold save_point_stack. cbn [save_points_]. apply lookup_insert_eq.
  - intros Hsize.
    unfold RollbackToSavePoint. rewrite Hsp, Hl.
    destruct (Nat.eqb_spec (sp_size savepoint) (length (rep_ b))) as [E|E].
    + exists b. split; [reflexivity|]. split.
      * unfold save_point_stack. rewrite Hsp. apply lookup_insert_eq.
      * intros _. rewrite E, firstn_all. auto.
    + destruct (Nat.eqb_spec (sp_size savepoint) 0); [contradiction|].
      eexists. split; [reflexivity|]. split.
      * unfold save_point_stack.
        cbn [save_points_ set_content_flags SetCount set_rep].
        rewrite Hsp. apply lookup_insert_eq.
      * intros [Hmin Hmax]. cbn [rep_ set_content_flags].
        assert (Hcut : rep_ (set_rep b (resize (sp_size savepoint) (rep_ b)))
                       = take (sp_size savepoint) (rep_ b)).
        { unfold set_rep, resize. cbn [rep_].
          replace (sp_size savepoint - length (rep_ b))%nat with 0%nat by lia.
          cbn [replicate]. apply app_nil_r. }
        assert (Hcutlen :
                  (kHeader
                   <= length (rep_ (set_rep b (resize (sp_size savepoint)
                                                  (rep_ b)))))%nat)
          by (rewrite Hcut, length_take; lia).
        destruct (SetCount_payload _ (sp_count savepoint) Hcutlen)
          as (Hpay & Htake & Hsame).
        rewrite Hsame, Hpay, Htake, Hcut, length_take, take_take.
        unfold kHeader in Hmin.
        replace (8 `min` sp_size savepoint)%nat with 8%nat by lia.
        split_and!; [lia|reflexivity|reflexivity].
Qed.

(** ** The sequence number of the inserter *)

Section InserterSequence.
Context {W : Type} `{collab : Collaborators W}.




End InserterSequence.

(** C1, where the code departs from it.  With filter_deletes set on the
    memtable, dont_filter_deletes off and a key the database cannot
    hold, DeleteCF and SingleDeleteCF return OK and leave [sequence_] at
    100, where PutCF and MergeCF move it to 101; applied through
    InsertInto, a batch holding that one deletion leaves the inserter at
    the sequence of the batch. *)
Theorem filtered_delete_keeps_sequence :
  let i := mkMemTableInserter 100 false false 0 true false false in
  Inserter_DeleteCF (collab := FilteringDb) 0 (bytes "k") (i, []) = (OK, (i, []))
  /\ Inserter_SingleDeleteCF (collab := FilteringDb) 0 (bytes "k") (i, [])
     = (OK, (i, []))
  /\ sequence_ (fst (snd (Inserter_PutCF (collab := FilteringDb)
                            0 (bytes "k") (bytes "v") (i, [])))) = 101
  /\ sequence_ (fst (snd (Inserter_MergeCF (collab := FilteringDb)
                            0 (bytes "k") (bytes "v") (i, [])))) = 101
  /\ Sequence lone_delete = 100
  /\ InsertInto (collab := FilteringDb) (tags := dbformat_tags)
       lone_delete [] false false 0 true false false
     = Some (OK, (i, [])).
Proof.
  cbv zeta. repeat split; vm_compute; reflexivity.
Qed.

(** ** Copies and the save-point stack *)

(** C5, where the code departs from it.  A batch with one save point is
    copied.  SetSavePoint on the copy pushes onto the stack of the
    original, Clear on the copy empties it, RollbackToSavePoint on the
    copy pops it; and once the copy is destroyed the destructor of the
    original deletes the same object again. *)
Theorem copy_shares_save_points :
  exists (b : WriteBatch) (h : Heap),
    SetSavePoint (WriteBatch_new 0) ∅ = Some (b, h)
    /\ save_point_stack b h = Some [mkSavePoint 12 0 0]
    /\ (exists c' h', SetSavePoint (WriteBatch_copy b) h = Some (c', h')
                      /\ save_point_stack b h'
                         = Some [mkSavePoint 12 0 0; mkSavePoint 12 0 0])
    /\ (exists c' h', Clear (WriteBatch_copy b) h = Some (c', h')
                      /\ save_point_stack b h' = Some [])
    /\ (exists c' h', RollbackToSavePoint (WriteBatch_copy b) h = Some (OK, c', h')
                      /\ save_point_stack b h' = Some [])
    /\ (exists h', WriteBatch_destroy (WriteBatch_copy b) h = Some h'
                   /\ WriteBatch_destroy b h' = None).
Proof.
  do 2 eexists. split; [vm_compute; reflexivity|].
  split; [vm_compute; reflexivity|].
  repeat split; do 2 try eexists; split; vm_compute; reflexivity.
Qed.

(** ** Stopping Iterate through Continue *)

(** C6, where the code departs from it.  [two_puts] is well formed: its
    two records decode cleanly, its count is 2, and a handler that lets
    Iterate run gets OK.  A handler whose Continue turns false after the
    first record is given that record only (it has seen 1), and Iterate
    returns Corruption "WriteBatch has wrong count" instead of OK. *)
Theorem Iterate_stopped_early_reports_wrong_count :
  snd (records_of (tags := dbformat_tags) two_puts) = DecodeClean
  /\ counted (fst (records_of (tags := dbformat_tags) two_puts)) = 2
  /\ Count two_puts = 2
  /\ Iterate (tags := dbformat_tags) (StopAfter 2) two_puts 0 = Some (OK, 2)
  /\ Iterate (tags := dbformat_tags) (StopAfter 1) two_puts 0
     = Some (Corruption "WriteBatch has wrong count", 1).
Proof.
  repeat split; vm_compute; reflexivity.
Qed.

(** * Concrete runs *)

(** ** Where the statements of the specification fail *)

(** C3 as the specification states it fails on this run: a batch adopted
    from twelve zero bytes has the flag word DEFERRED; a save point is
    taken, HasPut is asked (which stores the classification 0), and the
    rollback, finding the size unchanged, does nothing: the flag word is
    0, not the DEFERRED of the push. *)
Lemma rollback_keeps_resolved_flags :
  exists b1 h1 b2 b3 h3,
    SetSavePoint adopted_empty ∅ = Some (b1, h1)
    /\ run_ops (tags := dbformat_tags) [OpHasPut] b1 = Some b2
    /\ RollbackToSavePoint b2 h1 = Some (OK, b3, h3)
    /\ rep_ b3 = rep_ adopted_empty
    /\ content_flags_ adopted_empty = DEFERRED
    /\ content_flags_ b3 = 0
    /\ content_flags_ b3 <> content_flags_ adopted_empty.
Proof.
  do 5 eexists.
  split; [vm_compute; reflexivity|].
  split; [vm_compute; reflexivity|].
  split; [vm_compute; reflexivity|].
  repeat split. vm_compute. discriminate.
Qed.

(** C4 as the specification states it fails on these runs.  Two save
    points are taken on a fresh batch, a put follows, and the rollback
    pops a save point of size 12: the outer save point is still on the
    stack.  And on a batch adopted from a header with sequence 7, a save
    point, a put and a rollback leave the sequence field in the buffer
    and the flag word DEFERRED. *)
Lemma rollback_to_header_is_no_clear :
  (exists b1 h1 b2 h2 b4 h4,
      SetSavePoint (WriteBatch_new 0) ∅ = Some (b1, h1)
      /\ SetSavePoint b1 h1 = Some (b2, h2)
      /\ save_point_stack b2 h2 = Some [mkSavePoint 12 0 0; mkSavePoint 12 0 0]
      /\ RollbackToSavePoint
           (Put (tags := dbformat_tags) b2 0 (bytes "a") (bytes "1")) h2
         = Some (OK, b4, h4)
      /\ save_point_stack b4 h4 = Some [mkSavePoint 12 0 0]
      /\ save_point_stack b4 h4 <> Some [])
  /\ (exists b1 h1 b4 h4,
         SetSavePoint (SetSequence adopted_empty 7) ∅ = Some (b1, h1)
         /\ save_point_stack b1 h1 = Some [mkSavePoint 12 0 DEFERRED]
         /\ RollbackToSavePoint
              (Put (tags := dbformat_tags) b1 0 (bytes "a") (bytes "1")) h1
            = Some (OK, b4, h4)
         /\ rep_ b4 = x07 :: replicate 11 x00
         /\ rep_ b4 <> replicate 12 x00
         /\ content_flags_ b4 = DEFERRED
         /\ content_flags_ b4 <> 0).
Proof.
  split.
  - do 6 eexists.
    split; [vm_compute; reflexivity|].
    split; [vm_compute; reflexivity|].
    split; [vm_compute; reflexivity|].
    split; [vm_compute; reflexivity|].
    split; [vm_compute; reflexivity|].
    vm_compute. discriminate.
  - do 4 eexists.
    split; [vm_compute; reflexivity|].
    split; [vm_compute; reflexivity|].
    split; [vm_compute; reflexivity|].
    repeat split; vm_compute; discriminate.
Qed.

(** C7 as the specification states it fails on the empty cursor: the
    reader takes element 0 of its input without a test, so what it does
    there is no error Status. *)
Lemma ReadRecordFromWriteBatch_empty_cursor :
  ReadRecordFromWriteBatch (tags := dbformat_tags) [] = ReadPastEnd
  /\ ~ (exists s : Status,
           ReadRecordFromWriteBatch (tags := dbformat_tags) [] = ReadError s).
Proof.
  split; [reflexivity|]. intros [s E]. discriminate E.
Qed.

(** ** The theorems at concrete inputs *)

(** S4: put("a","1"); SetSavePoint; put("b","2"); delete("c"); rollback. *)
Lemma RollbackToSavePoint_restores_witness :
  (kHeader <= length (rep_ batch_A))%nat
  /\ live batch_A ∅
  /\ exists b1 h1 b2 b3 h3,
       SetSavePoint batch_A ∅ = Some (b1, h1)
       /\ run_ops (tags := dbformat_tags)
            [OpPut 0 (bytes "b") (bytes "2"); OpDelete 0 (bytes "c")] b1
          = Some b2
       /\ RollbackToSavePoint b2 h1 = Some (OK, b3, h3)
       /\ rep_ b3 = rep_ batch_A
       /\ Count b3 = Count batch_A
       /\ save_point_stack b3 h3 = Some (default [] (save_point_stack batch_A ∅))
       /\ (existsb is_append
             [OpPut 0 (bytes "b") (bytes "2"); OpDelete 0 (bytes "c")] = true ->
           content_flags_ b3 = content_flags_ batch_A)
       /\ (Z.land (content_flags_ batch_A) DEFERRED = 0 ->
           content_flags_ b3 = content_flags_ batch_A)
       /\ (existsb is_append
             [OpPut 0 (bytes "b") (bytes "2"); OpDelete 0 (bytes "c")] = false ->
           b3 = b2).
Proof.
  assert (Hlen : (kHeader <= length (rep_ batch_A))%nat) by (vm_compute; lia).
  assert (Hlive : live batch_A ∅) by exact I.
  split; [exact Hlen|]. split; [exact Hlive|].
  exact (RollbackToSavePoint_restores (tags := dbformat_tags) batch_A ∅
           [OpPut 0 (bytes "b") (bytes "2"); OpDelete 0 (bytes "c")] Hlen Hlive).
Defined.

(** The inner of two save points taken on an empty batch, after one
    put; and the same batch over a stack whose top records size 0. *)
Lemma RollbackToSavePoint_header_only_witness :
  let b := mkWriteBatch (Some 1%positive) HAS_PUT (rep_ batch_A) in
  let h : Heap := {[ 1%positive := [mkSavePoint 12 0 0; mkSavePoint 12 0 0] ]} in
  let h0 : Heap := {[ 1%positive := [mkSavePoint 0 0 0; mkSavePoint 12 0 0] ]} in
  (kHeader < length (rep_ b))%nat
  /\ (exists b',
       RollbackToSavePoint b h
       = Some (OK, b', <[1%positive := [mkSavePoint 12 0 0]]> h)
       /\ rep_ b' = take 8 (rep_ b) ++ EncodeFixed32 (wrap32 0)
       /\ content_flags_ b' = 0
       /\ save_point_stack b' (<[1%positive := [mkSavePoint 12 0 0]]> h)
          = Some [mkSavePoint 12 0 0]
       /\ (take 8 (rep_ b) = replicate 8 x00 -> 0 = 0 ->
           rep_ b' = replicate kHeader x00))
  /\ rep_ b <> []
  /\ (exists b',
        RollbackToSavePoint b h0 = Some (OK, b', <[1%positive := []]> h0)
        /\ Clear b (<[1%positive := [mkSavePoint 12 0 0]]> h0)
           = Some (b', <[1%positive := []]> h0)
        /\ rep_ b' = replicate kHeader x00
        /\ content_flags_ b' = 0
        /\ save_point_stack b' (<[1%positive := []]> h0) = Some [])
  /\ (exists b',
        RollbackToSavePoint b h
        = Some (OK, b', <[1%positive := [mkSavePoint 12 0 0]]> h)
        /\ save_point_stack b' (<[1%positive := [mkSavePoint 12 0 0]]> h)
           = Some [mkSavePoint 12 0 0]
        /\ ((kHeader <= 12 <= length (rep_ b))%nat ->
            length (rep_ b') = 12%nat
            /\ take 8 (rep_ b') = take 8 (rep_ b)
            /\ drop kHeader (rep_ b') = drop kHeader (take 12 (rep_ b)))).
Proof.
  intros b h h0.
  assert (Hlen : (kHeader < length (rep_ b))%nat) by (vm_compute; lia).
  assert (Hne : rep_ b <> []) by discriminate.
  assert (Hsize : 12%nat <> 0%nat) by discriminate.
  destruct (RollbackToSavePoint_header_only b h 1%positive (mkSavePoint 12 0 0)
              [mkSavePoint 12 0 0] eq_refl eq_refl) as (Hheader & _ & Hother).
  destruct (RollbackToSavePoint_header_only b h0 1%positive (mkSavePoint 0 0 0)
              [mkSavePoint 12 0 0] eq_refl eq_refl) as (_ & Hzero & _).
  split; [exact Hlen|]. split; [exact (Hheader eq_refl Hlen)|].
  split; [exact Hne|]. split; [exact (Hzero eq_refl Hne)|].
  exact (Hother Hsize).
Defined.

(** A put record for key "k", value "v" under the tags of dbformat.h. *)
Lemma ReadRecordFromWriteBatch_guarded_witness :
  [x01; x01; "k"; x01; "v"]%byte <> []
  /\ ((exists rest tag cf key value blob,
          ReadRecordFromWriteBatch (tags := dbformat_tags)
            [x01; x01; "k"; x01; "v"]%byte
          = ReadOk rest tag cf key value blob
          /\ (length rest < length [x01; x01; "k"; x01; "v"]%byte)%nat)
      \/ (exists msg,
             ReadRecordFromWriteBatch (tags := dbformat_tags)
               [x01; x01; "k"; x01; "v"]%byte
             = ReadError (Corruption msg))).
Proof.
  assert (Hne : [x01; x01; "k"; x01; "v"]%byte <> []) by discriminate.
  split; [exact Hne|].
  exact (proj1 (ReadRecordFromWriteBatch_guarded (tags := dbformat_tags))
               [x01; x01; "k"; x01; "v"]%byte Hne).
Defined.

(** S5: A holds one put; B holds a delete and a merge, with sequence 99. *)
Lemma Append_splices_witness :
  (kHeader <= length (rep_ batch_A))%nat
  /\ (kHeader <= length (rep_ batch_B))%nat
  /\ (- 2 ^ 31 <= Count batch_A + Count batch_B < 2 ^ 31)
  /\ drop kHeader (rep_ (Append batch_A batch_B))
     = drop kHeader (rep_ batch_A) ++ drop kHeader (rep_ batch_B)
  /\ Count (Append batch_A batch_B) = Count batch_A + Count batch_B
  /\ content_flags_ (Append batch_A batch_B)
     = Z.lor (content_flags_ batch_A) (content_flags_ batch_B)
  /\ Sequence (Append batch_A batch_B) = Sequence batch_A.
Proof.
  assert (Ha : (kHeader <= length (rep_ batch_A))%nat) by (vm_compute; lia).
  assert (Hb : (kHeader <= length (rep_ batch_B))%nat) by (vm_compute; lia).
  assert (Hfit : - 2 ^ 31 <= Count batch_A + Count batch_B < 2 ^ 31)
    by (change (Count batch_A + Count batch_B) with 3; lia).
  destruct (Append_splices (tags := dbformat_tags) batch_A batch_B Ha Hb)
    as (Hpayload & _ & Hsum & Hflags & _ & Hseq & _).
  exact (conj Ha (conj Hb (conj Hfit (conj Hpayload
           (conj (Hsum Hfit) (conj Hflags Hseq)))))).
Defined.


(** The same malformed batch, spelled out: Iterate fails with
    Corruption, the classifier has seen the put and the delete, and the
    queries answer from those flags. *)
Example malformed_batch_queries :
  Iterate (tags := dbformat_tags) BatchContentClassifier malformed_batch 0
  = Some (Corruption "unknown WriteBatch tag", Z.lor HAS_PUT HAS_DELETE)
  /\ HasPut (tags := dbformat_tags) malformed_batch
     = Some (true, set_content_flags malformed_batch (Z.lor HAS_PUT HAS_DELETE))
  /\ HasMerge (tags := dbformat_tags)
       (set_content_flags malformed_batch (Z.lor HAS_PUT HAS_DELETE))
     = Some (false, set_content_flags malformed_batch (Z.lor HAS_PUT HAS_DELETE)).
Proof.
  repeat split; vm_compute; reflexivity.
Qed.
(** ** The varint32 codec *)

Lemma byte_bits (c : byte) :
  Z.testbit (byte_to_Z c) 7 = (128 <=? byte_to_Z c)
  /\ Z.land (byte_to_Z c) 127 = byte_to_Z c mod 128
  /\ Z.lor (byte_to_Z c) 128 = 128 + byte_to_Z c mod 128.
Proof. destruct c; repeat split. Qed.

(** A byte with the continuation bit: the low seven bits of [x]. *)
Lemma continuation_byte (x : Z) :
  byte_to_Z (byte_of_Z (Z.lor x 128)) = 128 + x mod 128.
Proof.
  rewrite byte_to_of_Z.
  change 256 with (2 ^ 8). rewrite <- Z.land_ones by lia.
  rewrite Z.land_lor_distr_l. change (Z.land 128 (Z.ones 8)) with 128.
  rewrite Z.land_ones by lia. change (2 ^ 8) with 256.
  rewrite <- (byte_to_of_Z x).
  destruct (byte_bits (byte_of_Z x)) as (_ & _ & ->).
  rewrite byte_to_of_Z. Z.div_mod_to_equations. lia.
Qed.

Lemma GetVarint32_loop_continue (n : nat) (shift result x : Z) (p : list byte) :
  GetVarint32_loop (S n) shift result (byte_of_Z (Z.lor x 128) :: p)
  = GetVarint32_loop n (shift + 7)
      (Z.lor result (wrap32 (Z.shiftl (x mod 128) shift))) p.
Proof.
  cbn [GetVarint32_loop].
  destruct (byte_bits (byte_of_Z (Z.lor x 128))) as (-> & -> & _).
  rewrite continuation_byte.
  assert (H : 0 <= x mod 128 < 128) by (apply Z.mod_pos_bound; lia).
  destruct (Z.leb_spec 128 (128 + x mod 128)); [|lia].
  replace ((128 + x mod 128) mod 128) with (x mod 128)
    by (Z.div_mod_to_equations; lia).
  reflexivity.
Qed.

Lemma GetVarint32_loop_last (n : nat) (shift result x : Z) (p : list byte) :
  0 <= x < 128 ->
  GetVarint32_loop (S n) shift result (byte_of_Z x :: p)
  = Some (Z.lor result (wrap32 (Z.shiftl x shift)), p).
Proof.
  intros Hx. cbn [GetVarint32_loop].
  destruct (byte_bits (byte_of_Z x)) as (-> & _ & _).
  rewrite byte_to_of_Z, Z.mod_small by lia.
  now destruct (Z.leb_spec 128 x); [lia|].
Qed.

(** Pieces with disjoint bits are added by [Z.lor]. *)
Lemma lor_piece (a d shift : Z) :
  0 <= shift -> 0 <= a < 2 ^ shift -> 0 <= d -> d * 2 ^ shift < 2 ^ 32 ->
  Z.lor a (wrap32 (Z.shiftl d shift)) = a + d * 2 ^ shift.
Proof.
  intros Hs Ha Hd Hfit.
  rewrite Z.shiftl_mul_pow2 by lia.
  unfold wrap32. rewrite Z.mod_small by nia.
  symmetry. apply Z.add_nocarry_lor.
  destruct (Z.eq_dec a 0) as [->|Hnz]; [apply Z.land_0_l|].
  apply Z.bits_inj'. intros n Hn.
  rewrite Z.land_spec, Z.bits_0.
  destruct (Z.lt_ge_cases n shift).
  - rewrite Z.mul_pow2_bits_low by lia. apply andb_false_r.
  - rewrite (Z.bits_above_log2 a n); [reflexivity | lia |].
    apply Z.log2_lt_pow2; [lia|].
    apply Z.lt_le_trans with (2 ^ shift); [lia|].
    apply Z.pow_le_mono_r; lia.
Qed.

Ltac pow_consts :=
  change (2 ^ 0) with 1 in *; change (2 ^ 7) with 128 in *;
  change (2 ^ 14) with 16384 in *; change (2 ^ 21) with 2097152 in *;
  change (2 ^ 28) with 268435456 in *; change (2 ^ 32) with 4294967296 in *.

Ltac lor_pieces :=
  repeat match goal with
  | |- context [Z.lor ?a (wrap32 (Z.shiftl ?d ?s))] =>
    lazymatch a with
    | context [Z.lor] => fail
    | _ =>
      rewrite (lor_piece a d s)
        by (pow_consts; Z.div_mod_to_equations; lia);
      pow_consts
    end
  end.

Lemma GetVarint32_PutVarint32 (v : Z) (rest : list byte) :
  fits32 v -> GetVarint32 (PutVarint32 v ++ rest) = Some (v, rest).
Proof.
  unfold fits32. intros Hv. unfold GetVarint32, PutVarint32.
  cbv zeta. rewrite !Z.shiftr_div_pow2 by lia. pow_consts.
  repeat match goal with
  | |- context [?a <? ?b] => destruct (Z.ltb_spec a b)
  end; cbn [app];
  rewrite ?GetVarint32_loop_continue;
  (rewrite GetVarint32_loop_last by (Z.div_mod_to_equations; lia));
  do 2 f_equal;
  rewrite Z.lor_0_l;
  change (0 + 7) with 7; change (7 + 7) with 14; change (14 + 7) with 21;
  change (21 + 7) with 28;
  match goal with
  | |- context [wrap32 (Z.shiftl ?x 0)] =>
    replace (wrap32 (Z.shiftl x 0)) with x
      by (unfold wrap32; rewrite Z.shiftl_0_r; symmetry; apply Z.mod_small;
          pow_consts; Z.div_mod_to_equations; lia)
  end;
  lor_pieces; Z.div_mod_to_equations; lia.
Qed.

Lemma GetLengthPrefixedSlice_round_trip (value rest : list byte) :
  slice_fits value ->
  GetLengthPrefixedSlice (PutLengthPrefixedSlice [] value ++ rest)
  = Some (value, rest).
Proof.
  unfold slice_fits, GetLengthPrefixedSlice, PutLengthPrefixedSlice.
  intros Hfit. cbn [app]. rewrite <- app_assoc.
  assert (Hw : wrap32 (Z.of_nat (length value)) = Z.of_nat (length value))
    by (apply Z.mod_small; exact Hfit).
  rewrite Hw, GetVarint32_PutVarint32 by exact Hfit.
  rewrite length_app.
  destruct (Z.leb_spec (Z.of_nat (length value))
              (Z.of_nat (length value + length rest))); [|lia].
  rewrite Nat2Z.id. now rewrite take_app_length, drop_app_length.
Qed.

(** The length a gather list is prefixed with is that of its
    concatenation. *)
Lemma parts_total_length (parts : SliceParts) :
  forall t : Z,
    fits32 t ->
    fold_left (fun t p => wrap32 (t + Z.of_nat (length p))) parts t
    = wrap32 (t + Z.of_nat (length (concat parts))).
Proof.
  induction parts as [|p parts IH]; intros t Ht; cbn [fold_left concat].
  - cbn. rewrite Z.add_0_r. symmetry. apply Z.mod_small. exact Ht.
  - rewrite IH by apply wrap32_range.
    rewrite length_app, Nat2Z.inj_add. unfold wrap32.
    rewrite Zplus_mod_idemp_l. f_equal. lia.
Qed.

Lemma PutLengthPrefixedSliceParts_concat (dst : list byte) (parts : SliceParts) :
  PutLengthPrefixedSliceParts dst parts
  = PutLengthPrefixedSlice dst (concat parts).
Proof.
  unfold PutLengthPrefixedSliceParts, PutLengthPrefixedSlice.
  now rewrite parts_total_length by (unfold fits32; lia).
Qed.

Lemma PutLengthPrefixedSlice_app (dst value : list byte) :
  PutLengthPrefixedSlice dst value = dst ++ PutLengthPrefixedSlice [] value.
Proof. reflexivity. Qed.

Section RoundTrip.
Context `{tags : ValueTypeTags}.

(** The [switch] finds the enumerator of the tag an append wrote. *)
Lemma tag_case_tag_char (t : ValueType) : tag_case (tag_char t) = Some t.
Proof.
  unfold tag_case, all_value_types.
  destruct t; cbn [List.find];
    repeat match goal with
    | |- context [Byte.eqb (tag_char ?a) (tag_char ?b)] =>
      let E := fresh "E" in
      destruct (Byte.eqb (tag_char a) (tag_char b)) eqn:E;
      [ apply Byte.byte_dec_bl, tag_char_inj in E; try discriminate E | ]
    end; try reflexivity.
  all: match goal with
       | E : Byte.eqb ?x ?x = false |- _ =>
         rewrite (Byte.byte_dec_lb (eq_refl x)) in E; discriminate E
       end.
Qed.

(** Reading the bytes of a record gives the record back and leaves the
    cursor on what follows. *)
Lemma ReadRecordFromWriteBatch_record_bytes (r : Rec) (rest : list byte) :
  rec_canonical r ->
  ReadRecordFromWriteBatch (record_bytes r ++ rest)
  = ReadOk rest (tag_char (rec_type r)) (rec_column_family r)
      (rec_key r) (rec_value r) (rec_blob r).
Proof.
  destruct r as [t cf key value blob].
  unfold rec_canonical, record_bytes. cbn [rec_type rec_column_family rec_key
    rec_value rec_blob].
  intros (Hcf & Hkey & Hvalue & Hblob & Hplain & Hnovalue & Hlogkey & Hnoblob).
  unfold ReadRecordFromWriteBatch. cbn [app]. rewrite tag_case_tag_char.
  destruct t; cbn [has_column_family has_value app] in *;
    unfold read_column_family, read_key_value, read_key;
    rewrite <- ?app_assoc;
    rewrite ?GetVarint32_PutVarint32 by assumption;
    rewrite ?GetLengthPrefixedSlice_round_trip by assumption;
    cbn [app];
    rewrite ?GetLengthPrefixedSlice_round_trip by assumption;
    try rewrite (Hplain eq_refl); try rewrite (Hnovalue eq_refl);
    try rewrite (Hlogkey eq_refl); try (rewrite Hnoblob by discriminate);
    reflexivity.
Qed.

End RoundTrip.

(** ** Bytes after a record do not change how it is read *)

Lemma GetVarint32_loop_app (n : nat) (extra : list byte) :
  forall (shift result : Z) (p : list byte) (v : Z) (rest : list byte),
    GetVarint32_loop n shift result p = Some (v, rest) ->
    GetVarint32_loop n shift result (p ++ extra) = Some (v, rest ++ extra).
Proof.
  induction n as [|n IH]; intros shift result p v rest;
    cbn [GetVarint32_loop]; [discriminate|].
  destruct p as [|b p]; [discriminate|]. cbn [app].
  destruct (Z.testbit (byte_to_Z b) 7); [apply IH|].
  now intros [= <- <-].
Qed.

Lemma GetLengthPrefixedSlice_app (input extra s rest : list byte) :
  GetLengthPrefixedSlice input = Some (s, rest) ->
  GetLengthPrefixedSlice (input ++ extra) = Some (s, rest ++ extra).
Proof.
  unfold GetLengthPrefixedSlice, GetVarint32.
  destruct (GetVarint32_loop 5 0 0 input) as [[len r]|] eqn:E; [|discriminate].
  rewrite (GetVarint32_loop_app _ extra _ _ _ _ _ E).
  destruct (Z.leb_spec len (Z.of_nat (length r))) as [Hlen|]; [|discriminate].
  intros [= <- <-]. rewrite length_app.
  destruct (Z.leb_spec len (Z.of_nat (length r + length extra))); [|lia].
  destruct (Z.le_gt_cases 0 len).
  - now rewrite take_app_le, drop_app_le by lia.
  - replace (Z.to_nat len) with 0%nat by lia. reflexivity.
Qed.

Section Prefix.
Context `{tags : ValueTypeTags}.

Lemma ReadRecordFromWriteBatch_app (input extra rest : list byte) (tag : byte)
    (cf : Z) (key value blob : list byte) :
  ReadRecordFromWriteBatch input = ReadOk rest tag cf key value blob ->
  ReadRecordFromWriteBatch (input ++ extra)
  = ReadOk (rest ++ extra) tag cf key value blob.
Proof.
  unfold ReadRecordFromWriteBatch.
  destruct input as [|t input]; [discriminate|]. cbn [app].
  destruct (tag_case t) as [[]|];
    unfold read_column_family, read_key_value, read_key;
    repeat match goal with
    | |- context [match GetVarint32 ?i with _ => _ end] =>
      let E := fresh "Ecf" in
      destruct (GetVarint32 i) as [[? ?]|] eqn:E;
      [ unfold GetVarint32 in E |- *;
        rewrite (GetVarint32_loop_app _ extra _ _ _ _ _ E) | discriminate ]
    | |- context [match GetLengthPrefixedSlice ?i with _ => _ end] =>
      let E := fresh "Eslice" in
      destruct (GetLengthPrefixedSlice i) as [[? ?]|] eqn:E;
      [ rewrite (GetLengthPrefixedSlice_app _ extra _ _ E) | discriminate ]
    end;
    try discriminate; now intros [= <- <- <- <- <- <-].
Qed.

(** Fuel beyond the length of the input changes nothing. *)
Lemma decode_records_fuel (fuel : nat) :
  forall (input : list byte) (fuel' : nat),
    (length input <= fuel)%nat -> (length input <= fuel')%nat ->
    decode_records fuel input = decode_records fuel' input.
Proof.
  induction fuel as [|fuel IH]; intros input fuel' H H'.
  - destruct input; [now destruct fuel' | simpl in H; lia].
  - destruct input as [|t input]; [now destruct fuel'|].
    destruct fuel' as [|fuel']; [simpl in H'; lia|].
    cbn [decode_records].
    destruct (ReadRecordFromWriteBatch (t :: input))
      as [rest tag cf key value blob | s |] eqn:E; try reflexivity.
    apply ReadRecordFromWriteBatch_shorter in E as [Hshort _].
    destruct (tag_case tag); [|reflexivity].
    rewrite (IH rest fuel') by (simpl in *; lia). reflexivity.
Qed.

(** A payload that decodes to its end, followed by more bytes: its
    records, then those of the bytes that follow. *)
Lemma decode_records_app (fuel1 : nat) :
  forall (p1 : list byte) (recs1 : list Rec) (p2 : list byte) (fuel : nat),
    decode_records fuel1 p1 = (recs1, DecodeClean) ->
    (length (p1 ++ p2) <= fuel)%nat ->
    decode_records fuel (p1 ++ p2)
    = (recs1 ++ fst (decode_records (length p2) p2),
       snd (decode_records (length p2) p2)).
Proof.
  induction fuel1 as [|fuel1 IH]; intros p1 recs1 p2 fuel Hdec Hfuel.
  - destruct p1; [|discriminate Hdec]. injection Hdec as <-. cbn [app] in *.
    rewrite (decode_records_fuel fuel p2 (length p2)) by lia.
    now destruct (decode_records (length p2) p2).
  - destruct p1 as [|t p1].
    + injection Hdec as <-. cbn [app] in *.
      rewrite (decode_records_fuel fuel p2 (length p2)) by lia.
      now destruct (decode_records (length p2) p2).
    + cbn [decode_records] in Hdec.
      destruct (ReadRecordFromWriteBatch (t :: p1))
        as [rest tag cf key value blob | s |] eqn:E; try discriminate Hdec.
      pose proof (ReadRecordFromWriteBatch_app _ p2 _ _ _ _ _ _ E) as E2.
      apply ReadRecordFromWriteBatch_shorter in E as [Hshort _].
      destruct (tag_case tag) as [ty|] eqn:Ety; [|discriminate Hdec].
      destruct (decode_records fuel1 rest) as [recs e] eqn:Erest.
      injection Hdec as <- ->.
      destruct fuel as [|fuel]; [simpl in Hfuel; lia|].
      cbn [app]. cbn [decode_records]. cbn [app] in E2. rewrite E2, Ety.
      rewrite (IH rest recs p2 fuel Erest)
        by (rewrite length_app in *; simpl in *; lia).
      reflexivity.
Qed.

(** Encoding records one after the other and decoding the bytes gives
    the records back. *)
Lemma decode_records_record_bytes (recs : list Rec) :
  Forall rec_canonical recs ->
  forall fuel : nat,
    (length (concat (map record_bytes recs)) <= fuel)%nat ->
    decode_records fuel (concat (map record_bytes recs)) = (recs, DecodeClean).
Proof.
  induction 1 as [|r recs Hr Hrecs IH]; intros fuel Hfuel.
  - now destruct fuel.
  - cbn [map concat] in *.
    destruct fuel as [|fuel];
      [rewrite length_app in Hfuel; unfold record_bytes in Hfuel;
       simpl in Hfuel; lia|].
    pose proof (ReadRecordFromWriteBatch_record_bytes r
                  (concat (map record_bytes recs)) Hr) as E.
    unfold record_bytes at 1. cbn [app decode_records].
    unfold record_bytes at 1 in E. cbn [app] in E. rewrite E.
    rewrite tag_case_tag_char.
    rewrite IH.
    + now destruct r.
    + rewrite length_app in Hfuel. unfold record_bytes at 1 in Hfuel.
      simpl in Hfuel. lia.
Qed.

End Prefix.

(** ** What an append does to the batch *)

Lemma Count_rep_app (r extra : list byte) :
  (kHeader <= length r)%nat ->
  DecodeFixed32 (drop 8 (r ++ extra)) = DecodeFixed32 (drop 8 r).
Proof.
  unfold kHeader. intros Hlen.
  rewrite drop_app_le by lia. apply DecodeFixed32_app.
  rewrite length_drop. lia.
Qed.

Section Appends.
Context `{tags : ValueTypeTags}.

Lemma op_record_canonical (o : Op) (r : Rec) :
  op_fits o -> op_record o = Some r -> rec_canonical r.
Proof.
  unfold rec_canonical, slice_fits, fits32.
  destruct o; cbn [op_fits op_record]; intros Hfit [= <-];
    cbn [rec_type rec_column_family rec_key rec_value rec_blob length];
    unfold tag_for;
    repeat match goal with
    | |- context [?cf =? 0] => destruct (Z.eqb_spec cf 0)
    end;
    cbn [has_column_family has_value]; unfold slice_fits, fits32 in Hfit;
    repeat split; intros; try discriminate; try congruence; try lia;
    try (cbn; lia).
Qed.

Ltac append_bytes :=
  unfold put_tag, tag_for;
  match goal with
  | |- context [?cf =? 0] => destruct (cf =? 0)
  end;
  unfold push_back, or_content_flags, set_content_flags, set_rep,
    record_bytes;
  rewrite ?PutLengthPrefixedSliceParts_concat;
  unfold PutLengthPrefixedSlice;
  cbn [rep_ save_points_ content_flags_ rec_type rec_column_family rec_key
       rec_value rec_blob has_column_family has_value flag_of];
  rewrite <- ?app_assoc; cbn [app]; rewrite ?app_nil_r; repeat split.

(** An append writes the bytes of its record after the buffer (whose
    count field it has rewritten, unless the record is log data) and
    ORs the flag of the record into the cache. *)
Lemma run_op_bytes (o : Op) (b : WriteBatch) :
  is_append o = true ->
  exists (r : Rec) (b' : WriteBatch),
    op_record o = Some r
    /\ run_op o b = Some b'
    /\ rep_ b'
       = rep_ (if is_log_data r then b else SetCount b (Count b + 1))
         ++ record_bytes r
    /\ content_flags_ b' = Z.lor (content_flags_ b) (flag_of (rec_type r))
    /\ save_points_ b' = save_points_ b.
Proof.
  intros Happ.
  destruct o; try discriminate Happ; cbn [run_op op_record];
    do 2 eexists; (split; [reflexivity|]); (split; [reflexivity|]).
  - unfold Put. append_bytes.
  - unfold PutParts. append_bytes.
  - unfold Delete. append_bytes.
  - unfold DeleteParts. append_bytes.
  - unfold SingleDelete. append_bytes.
  - unfold SingleDeleteParts. append_bytes.
  - unfold Merge. append_bytes.
  - unfold MergeParts. append_bytes.
  - unfold PutLogData, push_back, set_rep, record_bytes, PutLengthPrefixedSlice.
    cbn [rep_ save_points_ content_flags_ rec_type rec_column_family rec_key
         rec_value rec_blob has_column_family has_value flag_of is_log_data].
    rewrite <- ?app_assoc, Z.lor_0_r. cbn [app]. repeat split.
Qed.

End Appends.

Lemma counted_app (recs1 recs2 : list Rec) :
  counted (recs1 ++ recs2) = counted recs1 + counted recs2.
Proof.
  unfold counted. rewrite List.filter_app, length_app. lia.
Qed.

Lemma counted_nonneg (recs : list Rec) : 0 <= counted recs.
Proof. unfold counted. lia. Qed.

Lemma classify_app (recs1 recs2 : list Rec) (f : Z) :
  classify (recs1 ++ recs2) f = classify recs2 (classify recs1 f).
Proof. unfold classify. apply fold_left_app. Qed.

Section WellFormed.
Context `{tags : ValueTypeTags}.

Lemma records_of_app (b b' : WriteBatch) (recs : list Rec) (r : Rec) :
  records_of b = (recs, DecodeClean) ->
  rec_canonical r ->
  drop kHeader (rep_ b') = drop kHeader (rep_ b) ++ record_bytes r ->
  records_of b' = (recs ++ [r], DecodeClean).
Proof.
  unfold records_of. intros Hrecs Hr ->.
  rewrite (decode_records_app _ _ _ _ _ Hrecs) by lia.
  pose proof (decode_records_record_bytes [r] (Forall_cons_2 _ _ _ Hr (Forall_nil_2 _))
                (length (record_bytes r))) as E.
  cbn [map concat] in E. rewrite app_nil_r in E.
  now rewrite E by lia.
Qed.

(** An append keeps a batch well formed and adds its record at the end,
    as long as the count stays in the range of an [int]. *)
Lemma run_op_well_formed (o : Op) (b : WriteBatch) :
  is_append o = true ->
  op_fits o ->
  well_formed b ->
  Count b + 1 < 2 ^ 31 ->
  exists (r : Rec) (b' : WriteBatch),
    op_record o = Some r
    /\ run_op o b = Some b'
    /\ well_formed b'
    /\ fst (records_of b') = fst (records_of b) ++ [r]
    /\ content_flags_ b' = Z.lor (content_flags_ b) (flag_of (rec_type r))
    /\ save_points_ b' = save_points_ b
    /\ Count b' = Count b + (if is_log_data r then 0 else 1).
Proof.
  intros Happ Hfit (Hlen & Hclean & Hcount) Hroom.
  destruct (run_op_bytes o b Happ) as (r & b' & Hr & Hrun & Hrep & Hflags & Hsp).
  pose proof (op_record_canonical o r Hfit Hr) as Hcan.
  destruct (records_of b) as [recs e] eqn:Hrecs. cbn [fst snd] in *. subst e.
  set (x := if is_log_data r then b else SetCount b (Count b + 1)) in *.
  assert (Hx : (kHeader <= length (rep_ x))%nat
               /\ drop kHeader (rep_ x) = drop kHeader (rep_ b)
               /\ Count x = Count b + (if is_log_data r then 0 else 1)).
  { subst x. destruct (is_log_data r).
    - repeat split; [exact Hlen | lia].
    - destruct (SetCount_payload b (Count b + 1) Hlen) as (Hp & _ & Hl).
      repeat split; [lia | exact Hp |].
      rewrite Count_SetCount by exact Hlen. apply to_int_wrap32.
      pose proof (counted_nonneg recs). lia. }
  destruct Hx as (Hxlen & Hxpay & Hxcount).
  assert (Hpay : drop kHeader (rep_ b') = drop kHeader (rep_ b) ++ record_bytes r).
  { rewrite Hrep, drop_app_le by exact Hxlen. now rewrite Hxpay. }
  pose proof (records_of_app b b' recs r Hrecs Hcan Hpay) as Hrecs'.
  assert (Hcount' : Count b' = Count b + (if is_log_data r then 0 else 1)).
  { unfold Count at 1. rewrite Hrep, Count_rep_app by exact Hxlen. exact Hxcount. }
  exists r, b'. repeat split; try assumption.
  - rewrite Hrep, length_app. lia.
  - now rewrite Hrecs'.
  - rewrite Hrecs'. cbn [fst]. rewrite counted_app, Hcount', Hcount.
    unfold counted at 3. cbn [List.filter]. now destruct (is_log_data r).
  - now rewrite Hrecs'.
Qed.

(** A query keeps the records and the count. *)
Lemma run_op_query_well_formed (o : Op) (b : WriteBatch) :
  is_append o = false ->
  exists b',
    run_op o b = Some b'
    /\ rep_ b' = rep_ b
    /\ save_points_ b' = save_points_ b
    /\ (Z.land (content_flags_ b) DEFERRED = 0 -> b' = b)
    /\ (Z.land (content_flags_ b) DEFERRED <> 0 ->
        (kHeader <= length (rep_ b))%nat ->
        content_flags_ b' = flags_of (fst (records_of b))).
Proof.
  intros Hq.
  assert (H : forall flag,
             exists b', snd <$> has_flag flag b = Some b'
                        /\ rep_ b' = rep_ b
                        /\ save_points_ b' = save_points_ b
                        /\ (Z.land (content_flags_ b) DEFERRED = 0 -> b' = b)
                        /\ (Z.land (content_flags_ b) DEFERRED <> 0 ->
                            (kHeader <= length (rep_ b))%nat ->
                            content_flags_ b' = flags_of (fst (records_of b)))).
  { intros flag. unfold has_flag, ComputeContentFlags.
    destruct (Z.eqb_spec (Z.land (content_flags_ b) DEFERRED) 0) as [E|E];
      cbn [negb].
    - exists b. cbn. repeat split. congruence.
    - destruct (Iterate_classifier b) as [s Hit].
      assert (Hrv : (kHeader <= length (rep_ b))%nat ->
                    (if (length (rep_ b) <? kHeader)%nat then 0
                     else flags_of (fst (records_of b)))
                    = flags_of (fst (records_of b)))
        by (intros Hlen;
            now destruct (Nat.ltb_spec (length (rep_ b)) kHeader); [lia|]).
      set (rv := if (length (rep_ b) <? kHeader)%nat then 0
                 else flags_of (fst (records_of b))) in *.
      rewrite Hit. exists (set_content_flags b rv).
      repeat split; [congruence|]. intros _ Hlen. now apply Hrv. }
  destruct o; try discriminate Hq; cbn [run_op];
    unfold HasPut, HasDelete, HasSingleDelete, HasMerge; apply H.
Qed.

End WellFormed.

Section Invariant.
Context `{tags : ValueTypeTags}.

Lemma ops_records_cons (o : Op) (ops : list Op) :
  ops_records (o :: ops)
  = match op_record o with
    | Some r => r :: ops_records ops
    | None => ops_records ops
    end.
Proof. reflexivity. Qed.

Lemma records_of_same_rep (b b' : WriteBatch) :
  rep_ b' = rep_ b -> records_of b' = records_of b.
Proof. unfold records_of. now intros ->. Qed.

Lemma well_formed_same_rep (b b' : WriteBatch) :
  rep_ b' = rep_ b -> well_formed b -> well_formed b'.
Proof.
  intros E. unfold well_formed, Count.
  now rewrite (records_of_same_rep b b' E), E.
Qed.

Lemma cache_ok_append (b b' : WriteBatch) (r : Rec) :
  cache_ok b ->
  fst (records_of b') = fst (records_of b) ++ [r] ->
  content_flags_ b' = Z.lor (content_flags_ b) (flag_of (rec_type r)) ->
  cache_ok b'.
Proof.
  unfold cache_ok. intros Hok Hrecs Hflags Hclear.
  rewrite Hflags in Hclear |- *.
  rewrite Z.land_lor_distr_l in Hclear.
  apply Z.lor_eq_0_iff in Hclear as [Hclear _].
  rewrite (Hok Hclear), Hrecs. unfold flags_of.
  now rewrite classify_app.
Qed.

(** Appends and queries keep a batch well formed and its cache of
    content flags right; the records appended follow those it had. *)
Lemma run_ops_invariant (ops : list Op) :
  forall b : WriteBatch,
    well_formed b ->
    cache_ok b ->
    Forall op_fits ops ->
    Count b + Z.of_nat (length ops) < 2 ^ 31 ->
    exists b',
      run_ops ops b = Some b'
      /\ well_formed b'
      /\ cache_ok b'
      /\ fst (records_of b') = fst (records_of b) ++ ops_records ops
      /\ save_points_ b' = save_points_ b.
Proof.
  induction ops as [|o ops IH]; intros b Hwf Hok Hfits Hroom.
  - exists b. cbn [run_ops]. change (ops_records []) with (@nil Rec).
    rewrite app_nil_r. auto.
  - apply Forall_cons in Hfits as [Hfit Hfits].
    cbn [length] in Hroom. cbn [run_ops].
    destruct (is_append o) eqn:Eo.
    + destruct (run_op_well_formed o b Eo Hfit Hwf ltac:(lia))
        as (r & b1 & Hr & Hrun & Hwf1 & Hrecs1 & Hflags1 & Hsp1 & Hcount1).
      rewrite Hrun.
      destruct (IH b1 Hwf1 (cache_ok_append b b1 r Hok Hrecs1 Hflags1) Hfits)
        as (b' & Hrun' & Hwf' & Hok' & Hrecs' & Hsp').
      { rewrite Hcount1. destruct (is_log_data r); lia. }
      exists b'. repeat split; try assumption; try apply Hwf'.
      * rewrite Hrecs', Hrecs1, ops_records_cons, Hr.
        now rewrite <- app_assoc.
      * congruence.
    + destruct (run_op_query_well_formed o b Eo)
        as (b1 & Hrun & Hrep1 & Hsp1 & Hsame & Hdef).
      rewrite Hrun.
      assert (Hwf1 : well_formed b1) by now apply (well_formed_same_rep b).
      assert (Hok1 : cache_ok b1).
      { destruct (Z.eq_dec (Z.land (content_flags_ b) DEFERRED) 0) as [E|E].
        - now rewrite (Hsame E).
        - intros _. rewrite (records_of_same_rep b b1 Hrep1).
          apply Hdef; [exact E | apply Hwf]. }
      destruct (IH b1 Hwf1 Hok1 Hfits) as (b' & Hrun' & Hwf' & Hok' & Hrecs' & Hsp').
      { unfold Count in *. rewrite Hrep1. lia. }
      exists b'. repeat split; try assumption; try apply Hwf'.
      * rewrite Hrecs', (records_of_same_rep b b1 Hrep1), ops_records_cons.
        now destruct o; try discriminate Eo.
      * congruence.
Qed.

Lemma WriteBatch_new_well_formed (reserved_bytes : nat) :
  well_formed (WriteBatch_new reserved_bytes)
  /\ cache_ok (WriteBatch_new reserved_bytes)
  /\ records_of (WriteBatch_new reserved_bytes) = ([], DecodeClean).
Proof.
  unfold well_formed, cache_ok. repeat split.
  vm_compute. lia.
Qed.

End Invariant.

(** ** Iterate, record by record *)

Section Walk.
Context `{tags : ValueTypeTags}.

Lemma Iterate_loop_walk {St : Type} (handler : Handler St) (fuel : nat) :
  forall (input : list byte) (found : Z) (h : St),
    (length input <= fuel)%nat ->
    Iterate_loop handler fuel input found h
    = Some (walk handler (fst (decode_records fuel input))
              (snd (decode_records fuel input)) found h).
Proof.
  induction fuel as [|fuel IH]; intros input found h Hlen.
  - destruct input; [reflexivity | simpl in Hlen; lia].
  - destruct input as [|t input]; [reflexivity|].
    cbn [Iterate_loop decode_records].
    destruct (ReadRecordFromWriteBatch_nonempty (t :: input)) as
      [(rest & tag & cf & key & value & blob & E) | (msg & E)]; [congruence| |].
    + rewrite E.
      apply ReadRecordFromWriteBatch_shorter in E as [Hshort [ty Hty]].
      rewrite Hty.
      assert (Hrest : (length rest <= fuel)%nat) by (simpl in *; lia).
      destruct (decode_records fuel rest) as [recs e] eqn:Edec.
      cbn [fst snd walk].
      destruct (Continue handler h) as [c h1]. destruct c; cbn [negb];
        [|reflexivity].
      destruct ty; unfold dispatch; cbn [rec_type rec_column_family rec_key
        rec_value rec_blob is_log_data];
        try (match goal with
             | |- context [ok (fst ?r)] =>
               destruct r as [s h2]; cbn [fst snd]; destruct (ok s);
               [rewrite (IH rest _ h2 Hrest), Edec|]; reflexivity
             end).
      cbn [ok]. now rewrite (IH rest _ _ Hrest), Edec.
    + rewrite E. cbn [fst snd walk].
      destruct (Continue handler h) as [c h1]. now destruct c.
Qed.

End Walk.

Section WalkResults.
Context `{tags : ValueTypeTags}.

(** What Iterate makes of the result of the walk. *)
Lemma Iterate_with_header {St : Type} (handler : Handler St)
    (b : WriteBatch) (h : St) :
  (kHeader <= length (rep_ b))%nat ->
  Iterate handler b h
  = let '(s, found, h') :=
      walk handler (fst (records_of b)) (snd (records_of b)) 0 h in
    Some (if negb (ok s) then s
          else if negb (found =? Count b)
               then Corruption "WriteBatch has wrong count"
               else OK,
          h').
Proof.
  intros Hlen. unfold Iterate, records_of.
  destruct (Nat.ltb_spec (length (rep_ b)) kHeader); [lia|].
  rewrite Iterate_loop_walk by lia.
  destruct (walk handler _ _ 0 h) as [[s found] h'].
  destruct (negb (ok s)); [reflexivity|].
  now destruct (negb (found =? Count b)).
Qed.

(** *** Corruption reported by Iterate *)

(** A run that reaches the end has been through every record and has
    counted those that are not log data. *)
Lemma walk_run_to_end {St : Type} (handler : Handler St) :
  forall (recs : list Rec) (found : Z) (h h' : St),
    run_to_end handler recs h = Some h' ->
    walk handler recs DecodeClean found h = (OK, found + counted recs, h').
Proof.
  induction recs as [|r recs IH]; intros found h h'; cbn [run_to_end walk].
  - intros [= <-]. unfold counted. cbn. now rewrite Z.add_0_r.
  - destruct (Continue handler h) as [[|] h1]; [|discriminate]. cbn [negb].
    destruct (dispatch handler r h1) as [s h2].
    destruct (ok s); [|discriminate].
    intros Hrun. rewrite (IH _ _ _ Hrun), counted_cons.
    destruct (is_log_data r); rewrite ?Z.add_0_l, ?Z.add_assoc; reflexivity.
Qed.

(** C2.  On a buffer shorter than 12 bytes Iterate returns Corruption
    "malformed WriteBatch (too small)", whatever the handler.  On a
    buffer whose records all decode cleanly and whose number of records
    other than log data differs from the count of the header, Iterate
    returns Corruption "WriteBatch has wrong count" on every run that
    reaches the end of the records (on this run Continue answers true
    and the callbacks return OK), whatever the handler, with the handler
    as the last record left it. *)
Theorem Iterate_reports_corruption {St : Type}
    (handler : Handler St) (b : WriteBatch) (h : St) :
  ((length (rep_ b) < kHeader)%nat ->
   Iterate handler b h
   = Some (Corruption "malformed WriteBatch (too small)", h))
  /\ ((kHeader <= length (rep_ b))%nat ->
      forall (recs : list Rec) (h' : St),
        records_of b = (recs, DecodeClean) ->
        counted recs <> Count b ->
        run_to_end handler recs h = Some h' ->
        Iterate handler b h
        = Some (Corruption "WriteBatch has wrong count", h')).
Proof.
  split.
  - intros Hshort. unfold Iterate.
    now destruct (Nat.ltb_spec (length (rep_ b)) kHeader); [|lia].
  - intros Hlen recs h' Hrecs Hcount Hrun.
    rewrite Iterate_with_header by exact Hlen.
    rewrite Hrecs. cbn [fst snd].
    rewrite (walk_run_to_end handler recs 0 h h' Hrun).
    cbn [ok negb]. rewrite Z.add_0_l.
    now destruct (Z.eqb_spec (counted recs) (Count b)).
Qed.

(** *** The walk and the handler *)

(** X6.  Iterate is the walk over the records of the payload, followed by the
    comparison of the number of records counted with the header. *)
Theorem Iterate_walks_records {St : Type} (handler : Handler St)
    (b : WriteBatch) (h : St) :
  Iterate handler b h
  = if (length (rep_ b) <? kHeader)%nat
    then Some (Corruption "malformed WriteBatch (too small)", h)
    else
      let '(s, found, h') :=
        walk handler (fst (records_of b)) (snd (records_of b)) 0 h in
      Some (if negb (ok s) then s
            else if negb (found =? Count b)
                 then Corruption "WriteBatch has wrong count"
                 else OK,
            h').
Proof.
  destruct (Nat.ltb_spec (length (rep_ b)) kHeader) as [Hshort|Hlen].
  - unfold Iterate.
    now destruct (Nat.ltb_spec (length (rep_ b)) kHeader); [|lia].
  - now apply Iterate_with_header.
Qed.

Lemma walk_visit {St : Type} (handler : Handler St) :
  default_Continue handler ->
  forall (recs : list Rec) (e : DecodeEnd) (found : Z) (h h' : St),
    visit handler recs h = Some h' ->
    walk handler recs e found h
    = (match e with DecodeFailed s => s | _ => OK end,
       found + counted recs, h').
Proof.
  intros Hcont recs e.
  induction recs as [|r recs IH]; intros found h h'; cbn [visit walk].
  - intros [= <-]. unfold counted. cbn. rewrite Z.add_0_r.
    destruct e; try reflexivity. now rewrite Hcont.
  - rewrite Hcont. cbn [negb].
    destruct (dispatch handler r h) as [s h1].
    destruct (ok s); [|discriminate].
    intros Hvisit. rewrite (IH _ _ _ Hvisit), counted_cons.
    destruct (is_log_data r); rewrite ?Z.add_0_l, ?Z.add_assoc; reflexivity.
Qed.

Lemma walk_visit_error {St : Type} (handler : Handler St) :
  default_Continue handler ->
  forall (recs1 : list Rec) (r : Rec) (recs2 : list Rec) (e : DecodeEnd)
         (found : Z) (h h1 h2 : St) (s : Status),
    visit handler recs1 h = Some h1 ->
    dispatch handler r h1 = (s, h2) ->
    ok s = false ->
    exists found',
      walk handler (recs1 ++ r :: recs2) e found h = (s, found', h2).
Proof.
  intros Hcont recs1 r recs2 e.
  induction recs1 as [|r1 recs1 IH]; intros found h h1 h2 s;
    cbn [visit walk app].
  - intros [= <-] Hr Hs. rewrite Hcont, Hr, Hs. cbn [negb]. eauto.
  - rewrite Hcont. cbn [negb].
    destruct (dispatch handler r1 h) as [s1 h'].
    destruct (ok s1); [|discriminate]. apply IH.
Qed.

Lemma decode_failure_is_corruption (fuel : nat) :
  forall (input : list byte) (s : Status),
    snd (decode_records fuel input) = DecodeFailed s ->
    exists msg, s = Corruption msg.
Proof.
  induction fuel as [|fuel IH]; intros input s.
  - destruct input; discriminate.
  - destruct input as [|t input]; [discriminate|]. cbn [decode_records].
    destruct (ReadRecordFromWriteBatch_nonempty (t :: input)) as
      [(rest & tag & cf & key & value & blob & E) | (msg & E)];
      [congruence | | rewrite E; cbn; intros [= <-]; eauto].
    rewrite E.
    destruct (tag_case tag); [|cbn; intros [= <-]; eauto].
    specialize (IH rest s).
    destruct (decode_records fuel rest) as [recs e]. exact IH.
Qed.

Lemma Iterate_visit {St : Type} (handler : Handler St)
    (b : WriteBatch) (h h' : St) :
  well_formed b ->
  default_Continue handler ->
  visit handler (fst (records_of b)) h = Some h' ->
  Iterate handler b h = Some (OK, h').
Proof.
  intros (Hlen & Hclean & Hcount) Hcont Hvisit.
  rewrite Iterate_with_header by exact Hlen.
  rewrite (walk_visit handler Hcont _ _ 0 h h' Hvisit), Hclean.
  cbn [ok negb]. rewrite Z.add_0_l, <- Hcount. now rewrite Z.eqb_refl.
Qed.

(** X7.  On a well-formed batch, a handler that inherits Continue and whose
    callbacks all return OK is given every record, in buffer order, and
    Iterate returns OK: its result is the handler after the last
    callback.  The handler is never left halfway: Iterate returns a
    result whenever the callbacks do. *)
Theorem Iterate_dispatches_in_order {St : Type} (handler : Handler St)
    (b : WriteBatch) (h : St) :
  well_formed b ->
  default_Continue handler ->
  (forall r h0, ok (fst (dispatch handler r h0)) = true) ->
  exists h',
    visit handler (fst (records_of b)) h = Some h'
    /\ Iterate handler b h = Some (OK, h').
Proof.
  intros Hwf Hcont Hok.
  assert (Hvisit : forall recs h0, exists h', visit handler recs h0 = Some h').
  { induction recs as [|r recs IH]; intros h0; cbn [visit]; [eauto|].
    specialize (Hok r h0). destruct (dispatch handler r h0) as [s h1].
    cbn [fst] in Hok. rewrite Hok. apply IH. }
  destruct (Hvisit (fst (records_of b)) h) as [h' E].
  exists h'. split; [exact E|].
  destruct Hwf as (Hlen & Hclean & Hcount).
  rewrite Iterate_with_header by exact Hlen.
  rewrite (walk_visit handler Hcont _ _ 0 h h' E), Hclean.
  cbn [ok negb]. rewrite Z.add_0_l, <- Hcount. now rewrite Z.eqb_refl.
Qed.

(** X8.  A callback that does not return OK ends Iterate at once with that
    status: the records before it have been dispatched, none after it
    is, and the count is not compared. *)
Theorem Iterate_halts_on_callback_error {St : Type} (handler : Handler St)
    (b : WriteBatch) (recs1 recs2 : list Rec) (r : Rec) (h h1 h2 : St)
    (s : Status) :
  (kHeader <= length (rep_ b))%nat ->
  default_Continue handler ->
  fst (records_of b) = recs1 ++ r :: recs2 ->
  visit handler recs1 h = Some h1 ->
  dispatch handler r h1 = (s, h2) ->
  ok s = false ->
  Iterate handler b h = Some (s, h2).
Proof.
  intros Hlen Hcont Hrecs Hvisit Hr Hs.
  rewrite Iterate_with_header by exact Hlen.
  rewrite Hrecs.
  destruct (walk_visit_error handler Hcont recs1 r recs2
              (snd (records_of b)) 0 h h1 h2 s Hvisit Hr Hs) as [found' E].
  rewrite E. now rewrite Hs.
Qed.

(** X9.  When a record does not decode, Iterate returns the Corruption status
    of the reader, but only after the records before it have been
    dispatched: the handler has seen that prefix. *)
Theorem Iterate_surfaces_decode_failure {St : Type} (handler : Handler St)
    (b : WriteBatch) (h h' : St) (s : Status) :
  (kHeader <= length (rep_ b))%nat ->
  default_Continue handler ->
  snd (records_of b) = DecodeFailed s ->
  visit handler (fst (records_of b)) h = Some h' ->
  Iterate handler b h = Some (s, h') /\ exists msg, s = Corruption msg.
Proof.
  intros Hlen Hcont Hfail Hvisit.
  destruct (decode_failure_is_corruption _ _ _ Hfail) as [msg ->].
  split; [|eauto].
  rewrite Iterate_with_header by exact Hlen.
  now rewrite (walk_visit handler Hcont _ _ 0 h h' Hvisit), Hfail.
Qed.

End WalkResults.

(** ** The inserter: records it declines, records it applies *)

Section InserterPaths.
Context {W : Type} `{collab : Collaborators W}.

Lemma Inserter_declines (i : MemTableInserter) (cf : Z) (w w1 : W) (s : Status) :
  SeekToColumnFamily i cf w = (false, s, w1) ->
  forall (key value : list byte) (delete_type : ValueType),
    Inserter_PutCF cf key value (i, w) = (s, (bump_sequence i, w1))
    /\ DeleteImpl cf key delete_type (i, w) = (s, (bump_sequence i, w1))
    /\ Inserter_MergeCF cf key value (i, w) = (s, (bump_sequence i, w1)).
Proof.
  intros E key value delete_type.
  unfold Inserter_PutCF, DeleteImpl, Inserter_MergeCF. now rewrite E.
Qed.

(** X10.  A record for a column family that Seek does not find is not applied:
    every callback returns InvalidArgument, or OK when missing families
    are to be ignored, nothing but the Seek has touched the
    collaborators, and one sequence number is consumed. *)
Theorem Inserter_missing_column_family (i : MemTableInserter) (cf : Z) (w : W)
    (key value : list byte) :
  fst (cf_mems_Seek cf w) = false ->
  let s := if ignore_missing_column_families_ i then OK
           else InvalidArgument "Invalid column family specified in write batch" in
  let st := (bump_sequence i, snd (cf_mems_Seek cf w)) in
  Inserter_PutCF cf key value (i, w) = (s, st)
  /\ Inserter_DeleteCF cf key (i, w) = (s, st)
  /\ Inserter_SingleDeleteCF cf key (i, w) = (s, st)
  /\ Inserter_MergeCF cf key value (i, w) = (s, st).
Proof.
  intros Hseek s st.
  assert (E : SeekToColumnFamily i cf w = (false, s, snd (cf_mems_Seek cf w))).
  { unfold SeekToColumnFamily, s. destruct (cf_mems_Seek cf w) as [found w1].
    cbn [fst snd] in *. subst found. cbn [negb].
    now destruct (ignore_missing_column_families_ i). }
  unfold Inserter_DeleteCF, Inserter_SingleDeleteCF.
  pose proof (Inserter_declines i cf w _ s E key value kTypeDeletion) as (? & ? & ?).
  pose proof (Inserter_declines i cf w _ s E key value kTypeSingleDeletion)
    as (_ & ? & _).
  auto.
Qed.

(** X11.  Recovery: a record for a column family whose log number is beyond
    the log being replayed is skipped.  Every callback returns OK,
    nothing but the Seek has touched the collaborators (no memtable
    add, no read, no tick, no flush), and one sequence number is
    consumed. *)
Theorem Inserter_skips_absorbed_log (i : MemTableInserter) (cf : Z) (w : W)
    (key value : list byte) :
  fst (cf_mems_Seek cf w) = true ->
  log_number_ i <> 0 ->
  log_number_ i < cf_mems_GetLogNumber (snd (cf_mems_Seek cf w)) ->
  let st := (bump_sequence i, snd (cf_mems_Seek cf w)) in
  Inserter_PutCF cf key value (i, w) = (OK, st)
  /\ Inserter_DeleteCF cf key (i, w) = (OK, st)
  /\ Inserter_SingleDeleteCF cf key (i, w) = (OK, st)
  /\ Inserter_MergeCF cf key value (i, w) = (OK, st).
Proof.
  intros Hseek Hlog Hbehind st.
  assert (E : SeekToColumnFamily i cf w = (false, OK, snd (cf_mems_Seek cf w))).
  { unfold SeekToColumnFamily. destruct (cf_mems_Seek cf w) as [found w1].
    cbn [fst snd] in *. subst found. cbn [negb].
    destruct (Z.eqb_spec (log_number_ i) 0); [contradiction|].
    now destruct (Z.ltb_spec (log_number_ i) (cf_mems_GetLogNumber w1)); [|lia]. }
  unfold Inserter_DeleteCF, Inserter_SingleDeleteCF.
  pose proof (Inserter_declines i cf w _ OK E key value kTypeDeletion) as (? & ? & ?).
  pose proof (Inserter_declines i cf w _ OK E key value kTypeSingleDeletion)
    as (_ & ? & _).
  auto.
Qed.




End InserterPaths.


Section InsertIntoResults.
Context {W : Type} `{collab : Collaborators W} `{tags : ValueTypeTags}.







End InsertIntoResults.

(** ** The header fields *)

Lemma DecodeFixed64_EncodeFixed64 (v : Z) (rest : list byte) :
  0 <= v < 2 ^ 64 -> DecodeFixed64 (EncodeFixed64 v ++ rest) = v.
Proof.
  intros Hv. unfold DecodeFixed64, EncodeFixed64.
  cbn [seq map app fold_right nth]. rewrite !byte_to_of_Z.
  cbn [Z.of_nat Pos.of_succ_nat Pos.succ Z.mul Pos.mul Pos.add].
  change (2 ^ 64) with 18446744073709551616 in Hv.
  change (2 ^ 0) with 1; change (2 ^ 8) with 256; change (2 ^ 16) with 65536;
    change (2 ^ 24) with 16777216; change (2 ^ 32) with 4294967296;
    change (2 ^ 40) with 1099511627776;
    change (2 ^ 48) with 281474976710656;
    change (2 ^ 56) with 72057594037927936.
  Z.div_mod_to_equations. lia.
Qed.

(** X16.  SetSequence and SetCount write their own field and nothing else:
    each value is read back (modulo the width of its field, the count as
    an [int]).  SetSequence leaves every byte from offset 8 on as it was,
    SetCount the first 8 bytes and every byte from offset 12 on; both
    keep the size of the buffer, the content flags and the save points,
    hence the other field, the payload and the records. *)
Theorem header_fields_round_trip `{tags : ValueTypeTags} (b : WriteBatch)
    (seq n : Z) :
  (kHeader <= length (rep_ b))%nat ->
  (Sequence (SetSequence b seq) = wrap64 seq
   /\ drop 8 (rep_ (SetSequence b seq)) = drop 8 (rep_ b)
   /\ length (rep_ (SetSequence b seq)) = length (rep_ b)
   /\ content_flags_ (SetSequence b seq) = content_flags_ b
   /\ save_points_ (SetSequence b seq) = save_points_ b
   /\ Count (SetSequence b seq) = Count b
   /\ records_of (SetSequence b seq) = records_of b)
  /\ (Count (SetCount b n) = to_int (wrap32 n)
      /\ take 8 (rep_ (SetCount b n)) = take 8 (rep_ b)
      /\ drop kHeader (rep_ (SetCount b n)) = drop kHeader (rep_ b)
      /\ length (rep_ (SetCount b n)) = length (rep_ b)
      /\ content_flags_ (SetCount b n) = content_flags_ b
      /\ save_points_ (SetCount b n) = save_points_ b
      /\ Sequence (SetCount b n) = Sequence b
      /\ records_of (SetCount b n) = records_of b).
Proof.
  intros Hlen. pose proof Hlen as Hlen'. split_header Hlen'.
  assert (Hseq : rep_ (SetSequence b seq)
                 = EncodeFixed64 (wrap64 seq) ++ c0 :: c1 :: c2 :: c3 :: payload)
    by (unfold SetSequence, set_rep; cbn [rep_]; now rewrite Erep).
  destruct (SetCount_payload b n Hlen) as (Hpay & Htake & Hsize).
  split; split_and!.
  - unfold Sequence. rewrite Hseq. apply DecodeFixed64_EncodeFixed64.
    apply Z.mod_pos_bound. lia.
  - now rewrite Hseq, Erep.
  - now rewrite Hseq, Erep.
  - reflexivity.
  - reflexivity.
  - unfold Count. now rewrite Hseq, Erep.
  - unfold records_of. now rewrite Hseq, Erep.
  - now apply Count_SetCount.
  - exact Htake.
  - exact Hpay.
  - exact Hsize.
  - reflexivity.
  - reflexivity.
  - unfold Sequence. apply Sequence_take8; [unfold kHeader in Hlen; lia|].
    exact Htake.
  - unfold records_of. now rewrite Hpay.
Qed.

(** ** Append *)

Lemma wrap32_to_int_add (a c : Z) :
  wrap32 (to_int (wrap32 a) + c) = wrap32 (a + c).
Proof.
  unfold wrap32, to_int.
  change (2 ^ 32) with 4294967296. change (2 ^ 31) with 2147483648.
  destruct (a mod 4294967296 <? 2147483648); Z.div_mod_to_equations; lia.
Qed.

Lemma Append_rep (dst src : WriteBatch) :
  (kHeader <= length (rep_ dst))%nat ->
  rep_ (Append dst src)
  = take 8 (rep_ dst) ++ EncodeFixed32 (wrap32 (Count dst + Count src))
    ++ drop kHeader (rep_ dst) ++ drop kHeader (rep_ src).
Proof.
  intros Hlen. unfold Append, SetCount, set_content_flags, set_rep.
  cbn [rep_]. now rewrite <- !app_assoc.
Qed.

Lemma Append_length (dst src : WriteBatch) :
  (kHeader <= length (rep_ dst))%nat ->
  length (rep_ (Append dst src))
  = (length (rep_ dst) + length (drop kHeader (rep_ src)))%nat.
Proof.
  intros Hlen. rewrite Append_rep by exact Hlen.
  rewrite !length_app, length_take, !length_drop. unfold kHeader in *.
  cbn [EncodeFixed32 length]. lia.
Qed.

Lemma Count_Append (dst src : WriteBatch) :
  (kHeader <= length (rep_ dst))%nat ->
  Count (Append dst src) = to_int (wrap32 (Count dst + Count src)).
Proof.
  intros Hlen. rewrite <- (Count_SetCount dst) by exact Hlen.
  destruct (SetCount_payload dst (Count dst + Count src) Hlen) as (_ & _ & Hl).
  unfold Count at 1.
  change (rep_ (Append dst src))
    with (rep_ (SetCount dst (Count dst + Count src)) ++ drop kHeader (rep_ src)).
  now rewrite Count_rep_app by lia.
Qed.

(** X17.  The size callers reserve for a merged buffer is the size Append
    produces: AppendedByteSize of the two sizes is the size of the buffer
    of Append as a [size_t], and the size itself when that fits 64
    bits. *)
Theorem Append_size_is_AppendedByteSize (dst src : WriteBatch) :
  (kHeader <= length (rep_ dst))%nat ->
  (kHeader <= length (rep_ src))%nat ->
  let appended := Z.of_nat (length (rep_ (Append dst src))) in
  let reserved :=
    AppendedByteSize (Z.of_nat (length (rep_ dst)))
                     (Z.of_nat (length (rep_ src))) in
  reserved = wrap64 appended
  /\ (appended < 2 ^ 64 -> reserved = appended).
Proof.
  intros Hd Hs appended reserved.
  assert (E : reserved = wrap64 appended).
  { unfold reserved, appended. rewrite Append_length by exact Hd.
    unfold AppendedByteSize, kHeader in *. rewrite length_drop.
    destruct (Z.eqb_spec (Z.of_nat (length (rep_ dst))) 0); [lia|].
    destruct (Z.eqb_spec (Z.of_nat (length (rep_ src))) 0); [lia|].
    cbn [orb]. f_equal. lia. }
  split; [exact E|].
  intros Hfits. rewrite E. apply Z.mod_small. unfold appended in *. lia.
Qed.

(** X18.  Appending is associative: the same batch results, byte for byte and
    flag for flag, however three batches are grouped. *)
Theorem Append_assoc (b x y : WriteBatch) :
  (kHeader <= length (rep_ b))%nat ->
  (kHeader <= length (rep_ x))%nat ->
  (kHeader <= length (rep_ y))%nat ->
  Append (Append b x) y = Append b (Append x y).
Proof.
  intros Hb Hx _.
  assert (Hbx : (kHeader <= length (rep_ (Append b x)))%nat)
    by (rewrite Append_length by exact Hb; lia).
  assert (Hrep : rep_ (Append (Append b x) y) = rep_ (Append b (Append x y))).
  { rewrite (Append_rep (Append b x) y Hbx), (Append_rep b (Append x y) Hb).
    rewrite !Count_Append by assumption.
    rewrite wrap32_to_int_add.
    rewrite (Z.add_comm (Count b) (to_int (wrap32 (Count x + Count y)))).
    rewrite wrap32_to_int_add.
    replace (Count x + Count y + Count b) with (Count b + Count x + Count y) by lia.
    rewrite (Append_rep b x Hb), (Append_rep x y Hx).
    unfold kHeader in *.
    rewrite !take_app_le by (rewrite length_take; lia).
    rewrite take_take. replace (8 `min` 8)%nat with 8%nat by lia.
    f_equal. f_equal.
    assert (Hdrop : forall (r : list byte) (e t : list byte),
               (12 <= length r)%nat -> length e = 4%nat ->
               drop 12 (take 8 r ++ e ++ t) = t).
    { intros r e t Hr He.
      rewrite drop_app_ge by (rewrite length_take; lia).
      rewrite length_take. replace (12 - 8 `min` length r)%nat with 4%nat by lia.
      rewrite drop_app_ge by lia. now rewrite He. }
    rewrite !Hdrop by (try assumption; reflexivity).
    now rewrite <- app_assoc. }
  destruct (Append (Append b x) y) as [sp1 f1 r1] eqn:E1.
  destruct (Append b (Append x y)) as [sp2 f2 r2] eqn:E2.
  cbn [rep_] in Hrep. subst r2.
  apply (f_equal save_points_) in E1 as Hsp1.
  apply (f_equal save_points_) in E2 as Hsp2.
  apply (f_equal content_flags_) in E1 as Hf1.
  apply (f_equal content_flags_) in E2 as Hf2.
  cbn [save_points_ content_flags_ Append SetCount set_rep set_content_flags]
    in Hsp1, Hsp2, Hf1, Hf2.
  subst. now rewrite Z.lor_assoc.
Qed.

Lemma classify_lor (recs : list Rec) :
  forall f : Z, classify recs f = Z.lor f (classify recs 0).
Proof.
  unfold classify.
  induction recs as [|r recs IH]; intros f; cbn [fold_left].
  - now rewrite Z.lor_0_r.
  - rewrite IH, (IH (Z.lor 0 _)). now rewrite Z.lor_0_l, Z.lor_assoc.
Qed.

Section AppendRecords.
Context `{tags : ValueTypeTags}.

Lemma Append_payload (dst src : WriteBatch) :
  (kHeader <= length (rep_ dst))%nat ->
  drop kHeader (rep_ (Append dst src))
  = drop kHeader (rep_ dst) ++ drop kHeader (rep_ src).
Proof.
  intros Hlen. rewrite Append_rep by exact Hlen. unfold kHeader in *.
  rewrite drop_app_ge by (rewrite length_take; lia).
  rewrite length_take. replace (12 - 8 `min` length (rep_ dst))%nat with 4%nat by lia.
  now rewrite drop_app_ge by (cbn; lia).
Qed.

(** X19.  Appending a well-formed batch to a well-formed batch gives a
    well-formed batch whose records are those of the first followed by
    those of the second, and whose cache of content flags is right if
    both caches were (the sum of the counts fitting an [int]). *)
Theorem Append_concatenates_records (dst src : WriteBatch) :
  well_formed dst ->
  well_formed src ->
  Count dst + Count src < 2 ^ 31 ->
  well_formed (Append dst src)
  /\ fst (records_of (Append dst src))
     = fst (records_of dst) ++ fst (records_of src)
  /\ (cache_ok dst -> cache_ok src -> cache_ok (Append dst src)).
Proof.
  intros (Hd & Hdclean & Hdcount) (Hs & Hsclean & Hscount) Hroom.
  assert (Hrecs : records_of (Append dst src)
                  = (fst (records_of dst) ++ fst (records_of src), DecodeClean)).
  { unfold records_of at 1. rewrite Append_payload by exact Hd.
    destruct (records_of dst) as [rd ed] eqn:Erd. cbn [fst snd] in *. subst ed.
    unfold records_of in Erd.
    rewrite (decode_records_app _ _ _ _ _ Erd) by lia.
    fold (records_of src). now rewrite Hsclean. }
  unfold well_formed. split_and!.
  - rewrite Append_length by exact Hd. lia.
  - now rewrite Hrecs.
  - rewrite Hrecs. cbn [fst]. rewrite counted_app, <- Hdcount, <- Hscount.
    rewrite Count_Append by exact Hd. apply to_int_wrap32.
    pose proof (counted_nonneg (fst (records_of dst))).
    pose proof (counted_nonneg (fst (records_of src))). lia.
  - now rewrite Hrecs.
  - unfold cache_ok. intros Hokd Hoks Hclear. rewrite Hrecs. cbn [fst].
    change (content_flags_ (Append dst src))
      with (Z.lor (content_flags_ dst) (content_flags_ src)) in *.
    rewrite Z.land_lor_distr_l in Hclear.
    apply Z.lor_eq_0_iff in Hclear as [Hcd Hcs].
    rewrite (Hokd Hcd), (Hoks Hcs). unfold flags_of.
    now rewrite classify_app, (classify_lor _ (classify _ 0)).
Qed.

End AppendRecords.

(** ** The content-flag queries tell the truth *)

Lemma flag_bit (flag : Z) (t : ValueType) :
  In flag [HAS_PUT; HAS_DELETE; HAS_SINGLE_DELETE; HAS_MERGE] ->
  negb (Z.land (flag_of t) flag =? 0) = (flag_of t =? flag).
Proof.
  intros [<- | [<- | [<- | [<- | []]]]]; now destruct t.
Qed.

Lemma classify_has_kind (flag : Z) (recs : list Rec) :
  In flag [HAS_PUT; HAS_DELETE; HAS_SINGLE_DELETE; HAS_MERGE] ->
  forall f : Z,
    negb (Z.land (classify recs f) flag =? 0)
    = negb (Z.land f flag =? 0) || has_kind flag recs.
Proof.
  intros Hflag. unfold classify, has_kind.
  induction recs as [|r recs IH]; intros f; cbn [fold_left existsb].
  - now rewrite orb_false_r.
  - rewrite IH, Z.land_lor_distr_l, <- (flag_bit flag (rec_type r) Hflag).
    rewrite orb_assoc. f_equal.
    destruct (Z.eqb_spec (Z.land f flag) 0) as [->|Hf];
      destruct (Z.eqb_spec (Z.land (flag_of (rec_type r)) flag) 0) as [->|Hr];
      cbn [negb orb];
      match goal with
      | |- negb (?x =? 0) = _ => destruct (Z.eqb_spec x 0) as [E|E]
      end; try reflexivity;
      first [ apply Z.lor_eq_0_iff in E as [? ?]; contradiction
            | exfalso; apply E; apply Z.lor_eq_0_iff; auto ].
Qed.

Section Queries.
Context `{tags : ValueTypeTags}.

Lemma ComputeContentFlags_flags_of (b : WriteBatch) :
  (kHeader <= length (rep_ b))%nat ->
  cache_ok b ->
  exists b',
    ComputeContentFlags b = Some (flags_of (fst (records_of b)), b')
    /\ rep_ b' = rep_ b
    /\ save_points_ b' = save_points_ b
    /\ content_flags_ b' = flags_of (fst (records_of b)).
Proof.
  intros Hlen Hok. unfold ComputeContentFlags.
  destruct (Z.eqb_spec (Z.land (content_flags_ b) DEFERRED) 0) as [E|E];
    cbn [negb].
  - exists b. rewrite <- (Hok E). auto.
  - destruct (Iterate_classifier b) as [s Hit]. rewrite Hit.
    destruct (Nat.ltb_spec (length (rep_ b)) kHeader); [lia|].
    eexists. split; [reflexivity|]. auto.
Qed.

(** X4.  On a batch whose cache is DEFERRED or right, each query answers
    whether the payload holds a record of its kind; all four leave the
    same batch, with the same bytes and save points, in which the flags
    of the records are stored with DEFERRED clear, so that the next
    computation of the flags returns the stored word and changes
    nothing. *)
Theorem has_queries_truthful (b : WriteBatch) :
  (kHeader <= length (rep_ b))%nat ->
  cache_ok b ->
  exists b',
    HasPut b = Some (has_kind HAS_PUT (fst (records_of b)), b')
    /\ HasDelete b = Some (has_kind HAS_DELETE (fst (records_of b)), b')
    /\ HasSingleDelete b
       = Some (has_kind HAS_SINGLE_DELETE (fst (records_of b)), b')
    /\ HasMerge b = Some (has_kind HAS_MERGE (fst (records_of b)), b')
    /\ rep_ b' = rep_ b
    /\ cache_ok b'
    /\ save_points_ b' = save_points_ b
    /\ content_flags_ b' = flags_of (fst (records_of b))
    /\ Z.land (content_flags_ b') DEFERRED = 0
    /\ ComputeContentFlags b' = Some (flags_of (fst (records_of b)), b').
Proof.
  intros Hlen Hok.
  destruct (ComputeContentFlags_flags_of b Hlen Hok)
    as (b' & E & Hrep & Hsp & Hflags).
  assert (Hclear : Z.land (content_flags_ b') DEFERRED = 0)
    by (rewrite Hflags; now apply classify_not_deferred).
  exists b'. unfold HasPut, HasDelete, HasSingleDelete, HasMerge, has_flag.
  rewrite E. unfold flags_of.
  rewrite !classify_has_kind by (cbn; auto).
  split_and!; try reflexivity; try exact Hrep; try exact Hsp;
    try exact Hflags; try exact Hclear.
  - intros _. now rewrite (records_of_same_rep b b' Hrep).
  - unfold ComputeContentFlags. rewrite Hclear. cbn [Z.eqb negb].
    now rewrite Hflags.
Qed.

(** X5.  A batch rebuilt from the bytes of another (SetContents, or the
    constructor that adopts a string) starts with a DEFERRED cache and
    yet answers the four queries as the original does. *)
Theorem SetContents_same_answers (b c : WriteBatch) :
  (kHeader <= length (rep_ b))%nat ->
  cache_ok b ->
  let c' := SetContents c (rep_ b) in
  content_flags_ c' = DEFERRED
  /\ Count c' = Count b
  /\ fst <$> HasPut c' = fst <$> HasPut b
  /\ fst <$> HasDelete c' = fst <$> HasDelete b
  /\ fst <$> HasSingleDelete c' = fst <$> HasSingleDelete b
  /\ fst <$> HasMerge c' = fst <$> HasMerge b.
Proof.
  intros Hlen Hok c'.
  assert (Hrep : rep_ c' = rep_ b) by reflexivity.
  assert (Hok' : cache_ok c') by (intros Hclear; discriminate Hclear).
  destruct (ComputeContentFlags_flags_of b Hlen Hok) as (b1 & Eb & _).
  destruct (ComputeContentFlags_flags_of c' ltac:(rewrite Hrep; exact Hlen) Hok')
    as (c1 & Ec & _).
  rewrite (records_of_same_rep b c' Hrep) in Ec.
  unfold HasPut, HasDelete, HasSingleDelete, HasMerge, has_flag.
  rewrite Eb, Ec. split_and!; reflexivity.
Qed.

End Queries.

(** ** Clear *)

(** X20.  Clear brings a live batch back to the state of a new one: the
    buffer is the zeroed header, the count and the flags are 0, there
    is no record, and no save point is left to roll back to. *)
Theorem Clear_resets `{tags : ValueTypeTags} (b : WriteBatch) (h : Heap) :
  live b h ->
  exists (b' : WriteBatch) (h' : Heap),
    Clear b h = Some (b', h')
    /\ rep_ b' = rep_ (WriteBatch_new 0)
    /\ content_flags_ b' = 0
    /\ Count b' = 0
    /\ records_of b' = ([], DecodeClean)
    /\ save_points_ b' = save_points_ b
    /\ RollbackToSavePoint b' h' = Some (NotFound, b', h').
Proof.
  unfold live, Clear.
  destruct b as [[l|] flags rep]; cbn [save_points_ set_content_flags set_rep
    rep_ content_flags_].
  - intros [stack E]. rewrite E. do 2 eexists. split; [reflexivity|].
    split_and!; try reflexivity.
    unfold RollbackToSavePoint, set_content_flags, set_rep.
    cbn [save_points_]. now rewrite lookup_insert_eq.
  - intros _. do 2 eexists. split; [reflexivity|].
    split_and!; reflexivity.
Qed.

(** ** From the appends to the handler *)

Section EndToEnd.
Context `{tags : ValueTypeTags}.

(** X3.  A batch built on a new one by appends and queries, iterated: the
    handler is given exactly the records appended, in the order of the
    appends, and Iterate returns OK; the count of the header is the
    number of those records that are not log data. *)
Theorem Iterate_after_appends {St : Type} (handler : Handler St)
    (reserved_bytes : nat) (ops : list Op) (h h' : St) :
  Forall op_fits ops ->
  Z.of_nat (length ops) < 2 ^ 31 ->
  default_Continue handler ->
  visit handler (ops_records ops) h = Some h' ->
  exists b,
    run_ops ops (WriteBatch_new reserved_bytes) = Some b
    /\ records_of b = (ops_records ops, DecodeClean)
    /\ Count b = counted (ops_records ops)
    /\ Iterate handler b h = Some (OK, h').
Proof.
  intros Hfits Hroom Hcont Hvisit.
  destruct (WriteBatch_new_well_formed reserved_bytes) as (Hwf & Hok & Hnew).
  destruct (run_ops_invariant ops (WriteBatch_new reserved_bytes) Hwf Hok Hfits)
    as (b & Hrun & Hwf' & _ & Hrecs & _).
  { change (Count (WriteBatch_new reserved_bytes)) with 0. lia. }
  rewrite Hnew in Hrecs. cbn [fst app] in Hrecs.
  exists b. split; [exact Hrun|].
  assert (Hrecs' : records_of b = (ops_records ops, DecodeClean)).
  { destruct Hwf' as (_ & Hclean & _).
    destruct (records_of b) as [recs e]. cbn [fst snd] in *. congruence. }
  split_and!; [exact Hrecs' | | ].
  - destruct Hwf' as (_ & _ & ->). now rewrite Hrecs'.
  - apply Iterate_visit; [exact Hwf' | exact Hcont |].
    now rewrite Hrecs'.
Qed.

End EndToEnd.

(** ** Save points are undone last in, first out *)

Lemma SetSavePoint_on_stack (b : WriteBatch) (h : Heap) (l : loc)
    (stack : list SavePoint) :
  save_points_ b = Some l ->
  h !! l = Some stack ->
  SetSavePoint b h
  = Some (b, <[l := mkSavePoint (GetDataSize b) (Count b) (content_flags_ b)
                    :: stack]> h).
Proof. intros Hsp Hl. unfold SetSavePoint. now rewrite Hsp, Hl. Qed.

Lemma WriteBatch_eta (b b' : WriteBatch) :
  save_points_ b' = save_points_ b ->
  content_flags_ b' = content_flags_ b ->
  rep_ b' = rep_ b ->
  b' = b.
Proof. destruct b, b'. cbn. now intros -> -> ->. Qed.

(** X21.  Two save points with appends after each: the first rollback brings
    back the batch of the second save point, the second rollback the
    buffer and the flags of the first, and the stack is then what it was
    before both. *)
Theorem nested_save_points `{tags : ValueTypeTags} (b : WriteBatch) (h : Heap)
    (ops1 ops2 : list Op) :
  (kHeader <= length (rep_ b))%nat ->
  live b h ->
  existsb is_append ops1 = true ->
  existsb is_append ops2 = true ->
  exists b1 h1 b2 h2 b4 h5 b6 h6,
    SetSavePoint b h = Some (b1, h1)
    /\ run_ops ops1 b1 = Some b2
    /\ SetSavePoint b2 h1 = Some (b2, h2)
    /\ run_ops ops2 b2 = Some b4
    /\ RollbackToSavePoint b4 h2 = Some (OK, b2, h5)
    /\ RollbackToSavePoint b2 h5 = Some (OK, b6, h6)
    /\ rep_ b6 = rep_ b
    /\ content_flags_ b6 = content_flags_ b
    /\ save_point_stack b6 h6 = Some (default [] (save_point_stack b h)).
Proof.
  intros Hlen Hlive Happ1 Happ2.
  destruct (SetSavePoint_pushes b h Hlive) as [l E1].
  set (b1 := set_save_points b (Some l)) in *.
  set (stack := default [] (save_point_stack b h)) in *.
  set (sp1 := mkSavePoint (GetDataSize b1) (Count b1) (content_flags_ b1)).
  set (h1 := <[l := sp1 :: stack]> h) in *.
  assert (Hlen1 : (kHeader <= length (rep_ b1))%nat) by exact Hlen.
  destruct (run_ops_from ops1 b1 Hlen1) as (b2 & Erun1 & Hinv1).
  rewrite Happ1 in Hinv1.
  pose proof (appends_longer b1 b2 Hlen1 Hinv1) as Hlong1.
  assert (Hlen2 : (kHeader <= length (rep_ b2))%nat) by lia.
  assert (Hsp2 : save_points_ b2 = Some l) by (destruct Hinv1 as (-> & _); reflexivity).
  set (sp2 := mkSavePoint (GetDataSize b2) (Count b2) (content_flags_ b2)).
  pose proof (SetSavePoint_on_stack b2 h1 l (sp1 :: stack) Hsp2
                (lookup_insert_eq _ _ _)) as E2.
  set (h2 := <[l := sp2 :: sp1 :: stack]> h1) in *.
  destruct (run_ops_from ops2 b2 Hlen2) as (b4 & Erun2 & Hinv2).
  rewrite Happ2 in Hinv2.
  assert (Hsp4 : save_points_ b4 = Some l) by (destruct Hinv2 as (-> & _); exact Hsp2).
  destruct (RollbackToSavePoint_after_appends b2 b4 h2 l (sp1 :: stack)
              Hlen2 Hinv2 Hsp4 (lookup_insert_eq _ _ _))
    as (b5 & E3 & Hrep5 & Hflags5 & Hsp5).
  assert (Hb5 : b5 = b2) by (apply WriteBatch_eta; congruence). subst b5.
  set (h5 := <[l := sp1 :: stack]> h2) in *.
  destruct (RollbackToSavePoint_after_appends b1 b2 h5 l stack
              Hlen1 Hinv1 Hsp2 (lookup_insert_eq _ _ _))
    as (b6 & E4 & Hrep6 & Hflags6 & Hsp6).
  exists b1, h1, b2, h2, b4, h5, b6, (<[l := stack]> h5).
  split_and!; try assumption.
  unfold save_point_stack. rewrite Hsp6. apply lookup_insert_eq.
Qed.

(** ** Encoding, then decoding *)

Section Encoded.
Context `{tags : ValueTypeTags}.

(** X1.  Records laid out one after the other behind a header decode to the
    same records, to the end of the buffer. *)
Theorem encoded_records_decode (header : list byte) (recs : list Rec) :
  length header = kHeader ->
  Forall rec_canonical recs ->
  records_of (WriteBatch_of_rep (header ++ concat (map record_bytes recs)))
  = (recs, DecodeClean).
Proof.
  intros Hheader Hrecs. unfold records_of, WriteBatch_of_rep. cbn [rep_].
  rewrite <- Hheader, drop_app_length.
  now apply decode_records_record_bytes.
Qed.

(** X2.  Appends and queries on a well-formed batch: every operation returns,
    the batch stays well formed with a right cache, the records appended
    follow, in order, those the batch had, and the count has grown by
    the number of them that are not log data. *)
Theorem appends_extend_batch (ops : list Op) (b : WriteBatch) :
  well_formed b ->
  cache_ok b ->
  Forall op_fits ops ->
  Count b + Z.of_nat (length ops) < 2 ^ 31 ->
  exists b',
    run_ops ops b = Some b'
    /\ well_formed b'
    /\ cache_ok b'
    /\ fst (records_of b') = fst (records_of b) ++ ops_records ops
    /\ Count b' = Count b + counted (ops_records ops).
Proof.
  intros Hwf Hok Hfits Hroom.
  destruct (run_ops_invariant ops b Hwf Hok Hfits Hroom)
    as (b' & Hrun & Hwf' & Hok' & Hrecs & _).
  exists b'. split_and!; try assumption.
  destruct Hwf as (_ & _ & ->). destruct Hwf' as (_ & _ & ->).
  now rewrite Hrecs, counted_app.
Qed.

End Encoded.

(** * The further theorems at concrete inputs *)

(** S6: three bytes are too small; the truncated batch has one record
    and a header that says 2, and the inserter applies that record
    before Iterate reports the count. *)
Lemma Iterate_reports_corruption_witness :
  let st : MemTableInserter * list Entry :=
    (mkMemTableInserter 100 false false 0 true true false, []) in
  let applier := MemTableInserter_handler (collab := FilteringDb) in
  ((length (rep_ (WriteBatch_of_rep [x01; x02; x03])) < kHeader)%nat
   /\ Iterate (tags := dbformat_tags) applier
        (WriteBatch_of_rep [x01; x02; x03]) st
      = Some (Corruption "malformed WriteBatch (too small)", st))
  /\ ((kHeader <= length (rep_ truncated_batch))%nat
      /\ snd (records_of (tags := dbformat_tags) truncated_batch) = DecodeClean
      /\ counted (fst (records_of (tags := dbformat_tags) truncated_batch))
         <> Count truncated_batch
      /\ exists st',
           run_to_end applier
             (fst (records_of (tags := dbformat_tags) truncated_batch)) st
           = Some st'
           /\ Iterate (tags := dbformat_tags) applier truncated_batch st
              = Some (Corruption "WriteBatch has wrong count", st')).
Proof.
  intros st applier.
  assert (Hshort : (length (rep_ (WriteBatch_of_rep [x01; x02; x03])) < kHeader)%nat)
    by (vm_compute; lia).
  assert (Hlen : (kHeader <= length (rep_ truncated_batch))%nat)
    by (vm_compute; lia).
  assert (Hcount : counted (fst (records_of (tags := dbformat_tags) truncated_batch))
                   <> Count truncated_batch) by (vm_compute; discriminate).
  assert (Hclean : records_of (tags := dbformat_tags) truncated_batch
                   = (fst (records_of (tags := dbformat_tags) truncated_batch),
                      DecodeClean)) by (vm_compute; reflexivity).
  assert (Hrun : is_Some (run_to_end applier
                    (fst (records_of (tags := dbformat_tags) truncated_batch))
                    st)) by (vm_compute; eauto).
  destruct Hrun as [st' Hrun].
  split; [split; [exact Hshort|] | ].
  - exact (proj1 (Iterate_reports_corruption (tags := dbformat_tags)
                    applier (WriteBatch_of_rep [x01; x02; x03]) st)
                 Hshort).
  - split; [exact Hlen|]. split; [now rewrite Hclean|]. split; [exact Hcount|].
    exists st'. split; [exact Hrun|].
    exact (proj2 (Iterate_reports_corruption (tags := dbformat_tags)
                    applier truncated_batch st)
                 Hlen
                 (fst (records_of (tags := dbformat_tags) truncated_batch))
                 st' Hclean Hcount Hrun).
Defined.

Ltac well_formed_by_evaluation :=
  unfold well_formed; split_and!;
  [ vm_compute; lia | vm_compute; reflexivity | vm_compute; reflexivity ].

Ltac each_fits tac :=
  repeat (apply Forall_cons_2; [tac|]); apply Forall_nil_2.

Ltac fits_by_evaluation :=
  first
    [ exact I
    | unfold rec_canonical, op_fits, slice_fits, fits32; cbn;
      split_and!; try lia; try reflexivity; try discriminate;
      try (intros; congruence) ].

Lemma encoded_records_decode_witness :
  let recs := [ mkRec kTypeValue 0 (bytes "k") (bytes "v") [];
                mkRec kTypeColumnFamilyDeletion 7 (bytes "x") [] [];
                mkRec kTypeLogData 0 [] [] (bytes "blob") ] in
  Forall rec_canonical recs
  /\ records_of (tags := dbformat_tags)
       (WriteBatch_of_rep
          (replicate 12 x00
           ++ concat (map (record_bytes (tags := dbformat_tags)) recs)))
     = (recs, DecodeClean).
Proof.
  intros recs.
  assert (Hrecs : Forall rec_canonical recs)
    by (each_fits ltac:(fits_by_evaluation)).
  split; [exact Hrecs|].
  exact (encoded_records_decode (tags := dbformat_tags) (replicate 12 x00) recs
           eq_refl Hrecs).
Defined.

Lemma appends_extend_batch_witness :
  well_formed (tags := dbformat_tags) batch_A
  /\ cache_ok (tags := dbformat_tags) batch_A
  /\ Forall op_fits example_ops
  /\ Count batch_A + Z.of_nat (length example_ops) < 2 ^ 31
  /\ exists b',
       run_ops (tags := dbformat_tags) example_ops batch_A = Some b'
       /\ well_formed (tags := dbformat_tags) b'
       /\ cache_ok (tags := dbformat_tags) b'
       /\ fst (records_of (tags := dbformat_tags) b')
          = fst (records_of (tags := dbformat_tags) batch_A)
            ++ ops_records example_ops
       /\ Count b' = Count batch_A + counted (ops_records example_ops).
Proof.
  assert (Hwf : well_formed (tags := dbformat_tags) batch_A)
    by well_formed_by_evaluation.
  assert (Hok : cache_ok (tags := dbformat_tags) batch_A)
    by (intros _; vm_compute; reflexivity).
  assert (Hfits : Forall op_fits example_ops)
    by (each_fits ltac:(fits_by_evaluation)).
  assert (Hroom : Count batch_A + Z.of_nat (length example_ops) < 2 ^ 31)
    by (vm_compute; reflexivity).
  split_and!; try assumption.
  exact (appends_extend_batch (tags := dbformat_tags) example_ops batch_A
           Hwf Hok Hfits Hroom).
Defined.

Lemma Iterate_after_appends_witness :
  Forall op_fits example_ops
  /\ visit BatchContentClassifier (ops_records example_ops) 0 = Some 22
  /\ exists b,
       run_ops (tags := dbformat_tags) example_ops (WriteBatch_new 0) = Some b
       /\ records_of (tags := dbformat_tags) b
          = (ops_records example_ops, DecodeClean)
       /\ Count b = counted (ops_records example_ops)
       /\ Iterate (tags := dbformat_tags) BatchContentClassifier b 0
          = Some (OK, 22).
Proof.
  assert (Hfits : Forall op_fits example_ops)
    by (each_fits ltac:(fits_by_evaluation)).
  assert (Hvisit : visit BatchContentClassifier (ops_records example_ops) 0
                   = Some 22) by (vm_compute; reflexivity).
  split_and!; try assumption.
  refine (Iterate_after_appends (tags := dbformat_tags) BatchContentClassifier
            0 example_ops 0 22 Hfits _ _ Hvisit).
  - vm_compute. reflexivity.
  - intros h. reflexivity.
Defined.

Lemma has_queries_truthful_witness :
  (kHeader <= length (rep_ malformed_batch))%nat
  /\ cache_ok (tags := dbformat_tags) malformed_batch
  /\ exists b',
       HasPut (tags := dbformat_tags) malformed_batch
       = Some (has_kind HAS_PUT
                 (fst (records_of (tags := dbformat_tags) malformed_batch)), b')
       /\ HasDelete (tags := dbformat_tags) malformed_batch
          = Some (has_kind HAS_DELETE
                    (fst (records_of (tags := dbformat_tags) malformed_batch)),
                  b')
       /\ HasSingleDelete (tags := dbformat_tags) malformed_batch
          = Some (has_kind HAS_SINGLE_DELETE
                    (fst (records_of (tags := dbformat_tags) malformed_batch)),
                  b')
       /\ HasMerge (tags := dbformat_tags) malformed_batch
          = Some (has_kind HAS_MERGE
                    (fst (records_of (tags := dbformat_tags) malformed_batch)),
                  b')
       /\ rep_ b' = rep_ malformed_batch
       /\ cache_ok (tags := dbformat_tags) b'
       /\ save_points_ b' = save_points_ malformed_batch
       /\ content_flags_ b'
          = flags_of (fst (records_of (tags := dbformat_tags) malformed_batch))
       /\ Z.land (content_flags_ b') DEFERRED = 0
       /\ ComputeContentFlags (tags := dbformat_tags) b'
          = Some (flags_of
                    (fst (records_of (tags := dbformat_tags) malformed_batch)),
                  b').
Proof.
  assert (Hlen : (kHeader <= length (rep_ malformed_batch))%nat)
    by (vm_compute; lia).
  assert (Hok : cache_ok (tags := dbformat_tags) malformed_batch)
    by (intros Hclear; vm_compute in Hclear; discriminate Hclear).
  split_and!; try assumption.
  exact (has_queries_truthful (tags := dbformat_tags) malformed_batch Hlen Hok).
Defined.

Lemma SetContents_same_answers_witness :
  (kHeader <= length (rep_ two_puts))%nat
  /\ cache_ok (tags := dbformat_tags) two_puts
  /\ content_flags_ (SetContents batch_B (rep_ two_puts)) = DEFERRED
  /\ Count (SetContents batch_B (rep_ two_puts)) = Count two_puts
  /\ fst <$> HasPut (tags := dbformat_tags) (SetContents batch_B (rep_ two_puts))
     = fst <$> HasPut (tags := dbformat_tags) two_puts
  /\ fst <$> HasDelete (tags := dbformat_tags)
               (SetContents batch_B (rep_ two_puts))
     = fst <$> HasDelete (tags := dbformat_tags) two_puts
  /\ fst <$> HasSingleDelete (tags := dbformat_tags)
               (SetContents batch_B (rep_ two_puts))
     = fst <$> HasSingleDelete (tags := dbformat_tags) two_puts
  /\ fst <$> HasMerge (tags := dbformat_tags)
               (SetContents batch_B (rep_ two_puts))
     = fst <$> HasMerge (tags := dbformat_tags) two_puts.
Proof.
  assert (Hlen : (kHeader <= length (rep_ two_puts))%nat) by (vm_compute; lia).
  assert (Hok : cache_ok (tags := dbformat_tags) two_puts)
    by (intros _; vm_compute; reflexivity).
  split; [exact Hlen|]. split; [exact Hok|].
  exact (SetContents_same_answers (tags := dbformat_tags) two_puts batch_B
           Hlen Hok).
Defined.

Lemma Iterate_dispatches_in_order_witness :
  well_formed (tags := dbformat_tags) put_delete_put
  /\ exists h',
       visit BatchContentClassifier
         (fst (records_of (tags := dbformat_tags) put_delete_put)) 0
       = Some h'
       /\ Iterate (tags := dbformat_tags) BatchContentClassifier
            put_delete_put 0
          = Some (OK, h').
Proof.
  assert (Hwf : well_formed (tags := dbformat_tags) put_delete_put)
    by well_formed_by_evaluation.
  split; [exact Hwf|].
  refine (Iterate_dispatches_in_order (tags := dbformat_tags)
            BatchContentClassifier put_delete_put 0 Hwf _ _).
  - intros h. reflexivity.
  - intros [t cf key value blob] h0. destruct t; reflexivity.
Defined.

Lemma Iterate_halts_on_callback_error_witness :
  let put_a := mkRec kTypeValue 0 (bytes "a") (bytes "1") [] in
  let delete_k := mkRec kTypeColumnFamilyDeletion 7 (bytes "k") [] [] in
  let put_b := mkRec kTypeValue 0 (bytes "b") (bytes "2") [] in
  fst (records_of (tags := dbformat_tags) put_delete_put)
  = [put_a] ++ delete_k :: [put_b]
  /\ visit RejectDeletes [put_a] 0 = Some 1
  /\ dispatch RejectDeletes delete_k 1 = (NotFound, 1)
  /\ Iterate (tags := dbformat_tags) RejectDeletes put_delete_put 0
     = Some (NotFound, 1).
Proof.
  intros put_a delete_k put_b.
  assert (Hrecs : fst (records_of (tags := dbformat_tags) put_delete_put)
                  = [put_a] ++ delete_k :: [put_b]) by (vm_compute; reflexivity).
  split_and!; [exact Hrecs | reflexivity | reflexivity |].
  refine (Iterate_halts_on_callback_error (tags := dbformat_tags) RejectDeletes
            put_delete_put [put_a] [put_b] delete_k 0 1 1 NotFound
            _ _ Hrecs eq_refl eq_refl eq_refl).
  - vm_compute. lia.
  - intros h. reflexivity.
Defined.

Lemma Iterate_surfaces_decode_failure_witness :
  snd (records_of (tags := dbformat_tags) malformed_batch)
  = DecodeFailed (Corruption "unknown WriteBatch tag")
  /\ visit BatchContentClassifier
       (fst (records_of (tags := dbformat_tags) malformed_batch)) 0
     = Some 6
  /\ Iterate (tags := dbformat_tags) BatchContentClassifier malformed_batch 0
     = Some (Corruption "unknown WriteBatch tag", 6)
  /\ exists msg, Corruption "unknown WriteBatch tag" = Corruption msg.
Proof.
  assert (Hfail : snd (records_of (tags := dbformat_tags) malformed_batch)
                  = DecodeFailed (Corruption "unknown WriteBatch tag"))
    by (vm_compute; reflexivity).
  assert (Hvisit : visit BatchContentClassifier
                     (fst (records_of (tags := dbformat_tags) malformed_batch)) 0
                   = Some 6) by (vm_compute; reflexivity).
  split; [exact Hfail|]. split; [exact Hvisit|].
  refine (Iterate_surfaces_decode_failure (tags := dbformat_tags)
            BatchContentClassifier malformed_batch 0 6 _ _ _ Hfail Hvisit).
  - vm_compute. lia.
  - intros h. reflexivity.
Defined.

Lemma Inserter_missing_column_family_witness :
  let i := mkMemTableInserter 100 false false 0 true false false in
  let s := InvalidArgument "Invalid column family specified in write batch" in
  let st : MemTableInserter * list Entry := (bump_sequence i, []) in
  fst (cf_mems_Seek (Collaborators := FilteringDb) 7 []) = false
  /\ Inserter_PutCF (collab := FilteringDb) 7 (bytes "k") (bytes "v") (i, [])
     = (s, st)
  /\ Inserter_DeleteCF (collab := FilteringDb) 7 (bytes "k") (i, []) = (s, st)
  /\ Inserter_SingleDeleteCF (collab := FilteringDb) 7 (bytes "k") (i, [])
     = (s, st)
  /\ Inserter_MergeCF (collab := FilteringDb) 7 (bytes "k") (bytes "v") (i, [])
     = (s, st).
Proof.
  intros i s st. split; [reflexivity|].
  exact (Inserter_missing_column_family (collab := FilteringDb) i 7 []
           (bytes "k") (bytes "v") eq_refl).
Defined.

(** S7: the log being replayed is 5, the family is at log 10. *)
Lemma Inserter_skips_absorbed_log_witness :
  let i := mkMemTableInserter 100 false false 5 true true false in
  let st : MemTableInserter * list Entry := (bump_sequence i, []) in
  log_number_ i <> 0
  /\ log_number_ i
     < cf_mems_GetLogNumber (Collaborators := PlainDb 10)
         (snd (cf_mems_Seek (Collaborators := PlainDb 10) 0 []))
  /\ Inserter_PutCF (collab := PlainDb 10) 0 (bytes "k") (bytes "v") (i, [])
     = (OK, st)
  /\ Inserter_DeleteCF (collab := PlainDb 10) 0 (bytes "k") (i, []) = (OK, st)
  /\ Inserter_SingleDeleteCF (collab := PlainDb 10) 0 (bytes "k") (i, [])
     = (OK, st)
  /\ Inserter_MergeCF (collab := PlainDb 10) 0 (bytes "k") (bytes "v") (i, [])
     = (OK, st).
Proof.
  intros i st.
  assert (Hlog : log_number_ i <> 0) by discriminate.
  assert (Hbehind : log_number_ i
                    < cf_mems_GetLogNumber (Collaborators := PlainDb 10)
                        (snd (cf_mems_Seek (Collaborators := PlainDb 10) 0 [])))
    by reflexivity.
  split; [exact Hlog|]. split; [exact Hbehind|].
  exact (Inserter_skips_absorbed_log (collab := PlainDb 10) i 0 []
           (bytes "k") (bytes "v") eq_refl Hlog Hbehind).
Defined.




Lemma header_fields_round_trip_witness :
  (kHeader <= length (rep_ two_puts))%nat
  /\ (Sequence (SetSequence two_puts (2 ^ 64 + 5)) = wrap64 (2 ^ 64 + 5)
      /\ drop 8 (rep_ (SetSequence two_puts (2 ^ 64 + 5)))
         = drop 8 (rep_ two_puts)
      /\ length (rep_ (SetSequence two_puts (2 ^ 64 + 5)))
         = length (rep_ two_puts)
      /\ content_flags_ (SetSequence two_puts (2 ^ 64 + 5))
         = content_flags_ two_puts
      /\ save_points_ (SetSequence two_puts (2 ^ 64 + 5))
         = save_points_ two_puts
      /\ Count (SetSequence two_puts (2 ^ 64 + 5)) = Count two_puts
      /\ records_of (tags := dbformat_tags)
           (SetSequence two_puts (2 ^ 64 + 5))
         = records_of (tags := dbformat_tags) two_puts)
  /\ (Count (SetCount two_puts 7) = to_int (wrap32 7)
      /\ take 8 (rep_ (SetCount two_puts 7)) = take 8 (rep_ two_puts)
      /\ drop kHeader (rep_ (SetCount two_puts 7))
         = drop kHeader (rep_ two_puts)
      /\ length (rep_ (SetCount two_puts 7)) = length (rep_ two_puts)
      /\ content_flags_ (SetCount two_puts 7) = content_flags_ two_puts
      /\ save_points_ (SetCount two_puts 7) = save_points_ two_puts
      /\ Sequence (SetCount two_puts 7) = Sequence two_puts
      /\ records_of (tags := dbformat_tags) (SetCount two_puts 7)
         = records_of (tags := dbformat_tags) two_puts).
Proof.
  assert (Hlen : (kHeader <= length (rep_ two_puts))%nat) by (vm_compute; lia).
  split; [exact Hlen|].
  exact (header_fields_round_trip (tags := dbformat_tags) two_puts
           (2 ^ 64 + 5) 7 Hlen).
Defined.

Lemma Append_size_is_AppendedByteSize_witness :
  (kHeader <= length (rep_ batch_A))%nat
  /\ (kHeader <= length (rep_ batch_B))%nat
  /\ Z.of_nat (length (rep_ (Append batch_A batch_B))) < 2 ^ 64
  /\ AppendedByteSize (Z.of_nat (length (rep_ batch_A)))
                      (Z.of_nat (length (rep_ batch_B)))
     = Z.of_nat (length (rep_ (Append batch_A batch_B))).
Proof.
  assert (Ha : (kHeader <= length (rep_ batch_A))%nat) by (vm_compute; lia).
  assert (Hb : (kHeader <= length (rep_ batch_B))%nat) by (vm_compute; lia).
  assert (Hfits : Z.of_nat (length (rep_ (Append batch_A batch_B))) < 2 ^ 64)
    by (vm_compute; reflexivity).
  split; [exact Ha|]. split; [exact Hb|]. split; [exact Hfits|].
  exact (proj2 (Append_size_is_AppendedByteSize batch_A batch_B Ha Hb) Hfits).
Defined.

Lemma Append_assoc_witness :
  (kHeader <= length (rep_ batch_A))%nat
  /\ (kHeader <= length (rep_ batch_B))%nat
  /\ (kHeader <= length (rep_ two_puts))%nat
  /\ Append (Append batch_A batch_B) two_puts
     = Append batch_A (Append batch_B two_puts).
Proof.
  assert (Ha : (kHeader <= length (rep_ batch_A))%nat) by (vm_compute; lia).
  assert (Hb : (kHeader <= length (rep_ batch_B))%nat) by (vm_compute; lia).
  assert (Hc : (kHeader <= length (rep_ two_puts))%nat) by (vm_compute; lia).
  split_and!; try assumption.
  exact (Append_assoc batch_A batch_B two_puts Ha Hb Hc).
Defined.

Lemma Append_concatenates_records_witness :
  well_formed (tags := dbformat_tags) batch_A
  /\ well_formed (tags := dbformat_tags) batch_B
  /\ Count batch_A + Count batch_B < 2 ^ 31
  /\ well_formed (tags := dbformat_tags) (Append batch_A batch_B)
  /\ fst (records_of (tags := dbformat_tags) (Append batch_A batch_B))
     = fst (records_of (tags := dbformat_tags) batch_A)
       ++ fst (records_of (tags := dbformat_tags) batch_B)
  /\ (cache_ok (tags := dbformat_tags) batch_A ->
      cache_ok (tags := dbformat_tags) batch_B ->
      cache_ok (tags := dbformat_tags) (Append batch_A batch_B)).
Proof.
  assert (Ha : well_formed (tags := dbformat_tags) batch_A)
    by well_formed_by_evaluation.
  assert (Hb : well_formed (tags := dbformat_tags) batch_B)
    by well_formed_by_evaluation.
  assert (Hroom : Count batch_A + Count batch_B < 2 ^ 31)
    by (vm_compute; reflexivity).
  split; [exact Ha|]. split; [exact Hb|]. split; [exact Hroom|].
  exact (Append_concatenates_records (tags := dbformat_tags) batch_A batch_B
           Ha Hb Hroom).
Defined.

Lemma Clear_resets_witness :
  let b := mkWriteBatch (Some 1%positive) HAS_PUT (rep_ two_puts) in
  let h : Heap := {[ 1%positive := [mkSavePoint 12 0 0] ]} in
  live b h
  /\ exists (b' : WriteBatch) (h' : Heap),
       Clear b h = Some (b', h')
       /\ rep_ b' = rep_ (WriteBatch_new 0)
       /\ content_flags_ b' = 0
       /\ Count b' = 0
       /\ records_of (tags := dbformat_tags) b' = ([], DecodeClean)
       /\ save_points_ b' = save_points_ b
       /\ RollbackToSavePoint b' h' = Some (NotFound, b', h').
Proof.
  intros b h.
  assert (Hlive : live b h) by (exists [mkSavePoint 12 0 0]; reflexivity).
  split; [exact Hlive|].
  exact (Clear_resets (tags := dbformat_tags) b h Hlive).
Defined.

Lemma nested_save_points_witness :
  let ops1 := [OpPut 0 (bytes "b") (bytes "2")] in
  let ops2 := [OpHasPut; OpDelete 7 (bytes "c")] in
  (kHeader <= length (rep_ batch_A))%nat
  /\ live batch_A ∅
  /\ exists b1 h1 b2 h2 b4 h5 b6 h6,
       SetSavePoint batch_A ∅ = Some (b1, h1)
       /\ run_ops (tags := dbformat_tags) ops1 b1 = Some b2
       /\ SetSavePoint b2 h1 = Some (b2, h2)
       /\ run_ops (tags := dbformat_tags) ops2 b2 = Some b4
       /\ RollbackToSavePoint b4 h2 = Some (OK, b2, h5)
       /\ RollbackToSavePoint b2 h5 = Some (OK, b6, h6)
       /\ rep_ b6 = rep_ batch_A
       /\ content_flags_ b6 = content_flags_ batch_A
       /\ save_point_stack b6 h6 = Some (default [] (save_point_stack batch_A ∅)).
Proof.
  intros ops1 ops2.
  assert (Hlen : (kHeader <= length (rep_ batch_A))%nat) by (vm_compute; lia).
  assert (Hlive : live batch_A ∅) by exact I.
  split; [exact Hlen|]. split; [exact Hlive|].
  exact (nested_save_points (tags := dbformat_tags) batch_A ∅ ops1 ops2
           Hlen Hlive eq_refl eq_refl).
Defined.


